(** * meep_adjoint: frequency-domain cells, grids and adjoint sources

    A shallow embedding of [meep_adjoint/dft_cell.py] and
    [meep_adjoint/objective.py], and the properties of the specification
    that are decided by that code.

    Conventions of the embedding.
    - A Python float is an exact rational ([Qc]); a Python complex is a pair
      of rationals ([C]).  Rounding, overflow, infinities and NaN are outside
      the model: where numpy would produce inf/nan (an array divided by an
      entry equal to zero) the model raises [FloatingPointError].
    - A raised Python exception is a value of [PyExn]; a function that may
      raise returns a [result].
    - A one-dimensional numpy array, and a flattened field slice, is a [list];
      an array whose rank matters is an [ndarray] (shape and row-major data).
    - The time-stepping engine is reached only through the record
      [Simulation]; its answers are values (each call returns a fresh array).
*)

From Stdlib Require Import ZArith QArith Qcanon Qround Ascii String List Lia.
From stdpp Require Import gmap strings list pretty.

Local Open Scope string_scope.
Local Open Scope list_scope.
Local Open Scope Z_scope.

(** ** Python exceptions and results *)

Inductive PyExn : Type :=
| ValueError (msg : string)
| IndexError
| UnboundLocalError (name : string)
| AttributeError (attr : string)
| ZeroDivisionError
| OverflowError
| FloatingPointError
| NameError (name : string).

Inductive result (A : Type) : Type :=
| Ok (a : A)
| Raise (e : PyExn).
Arguments Ok {A} a.
Arguments Raise {A} e.

#[global] Instance result_ret : MRet result := fun _ a => Ok a.
#[global] Instance result_bind : MBind result := fun _ _ f m =>
  match m with
  | Ok a => f a
  | Raise e => Raise e
  end.

(** [for x in xs: ...] collecting one result per element, in order. *)
Fixpoint mapM {A B} (f : A -> result B) (xs : list A) : result (list B) :=
  match xs with
  | [] => Ok []
  | x :: xs' => y ← f x; ys ← mapM f xs'; Ok (y :: ys)
  end.

(** A nested comprehension: the inner sequence is evaluated once per outer
    element, so an exception of the inner expression is raised only when the
    outer sequence is not empty. *)
Fixpoint concatM {A B} (f : A -> result (list B)) (xs : list A) : result (list B) :=
  match xs with
  | [] => Ok []
  | x :: xs' => ys ← f x; zs ← concatM f xs'; Ok (ys ++ zs)
  end.

(** [seq[i]] for a Python sequence: a negative index counts from the end. *)
Definition getitem {A} (l : list A) (i : Z) : result A :=
  let n := Z.of_nat (length l) in
  if (0 <=? i) && (i <? n) then
    match l !! Z.to_nat i with Some a => Ok a | None => Raise IndexError end
  else if (- n <=? i) && (i <? 0) then
    match l !! Z.to_nat (n + i) with Some a => Ok a | None => Raise IndexError end
  else Raise IndexError.

(** [seq[i] = v] on a Python list. *)
Definition setitem {A} (l : list A) (i : Z) (v : A) : result (list A) :=
  let n := Z.of_nat (length l) in
  if (0 <=? i) && (i <? n) then Ok (<[Z.to_nat i := v]> l)
  else if (- n <=? i) && (i <? 0) then Ok (<[Z.to_nat (n + i) := v]> l)
  else Raise IndexError.

(** [seq[0:n]]: a slice never raises. *)
Definition slice_to {A} (l : list A) (n : nat) : list A := firstn n l.

(** ** Numbers *)

Definition Qc_eqb (a b : Qc) : bool := Qeq_bool a b.
Definition Qc_ltb (a b : Qc) : bool := negb (Qle_bool b a).
Definition Qc_of_Z (z : Z) : Qc := Q2Qc (inject_Z z).
Definition half : Qc := Q2Qc (1 # 2).

(** [numpy.pi] is the double 884279719003555 / 2^48. *)
Definition np_pi : Qc := Q2Qc (884279719003555 # 281474976710656).

Record C : Type := mkC { re : Qc; im : Qc }.

Definition C_of_Qc (x : Qc) : C := mkC x 0%Qc.
Definition C_of_Z (z : Z) : C := C_of_Qc (Qc_of_Z z).
Definition Czero : C := mkC 0%Qc 0%Qc.
Definition Cone : C := mkC 1%Qc 0%Qc.
Definition Cj : C := mkC 0%Qc 1%Qc.
Definition Cadd (a b : C) : C := mkC (re a + re b)%Qc (im a + im b)%Qc.
Definition Csub (a b : C) : C := mkC (re a - re b)%Qc (im a - im b)%Qc.
Definition Cmul (a b : C) : C :=
  mkC (re a * re b - im a * im b)%Qc (re a * im b + im a * re b)%Qc.
Definition Cconj (a : C) : C := mkC (re a) (- im a)%Qc.
Definition Cnorm2 (a : C) : Qc := (re a * re a + im a * im a)%Qc.
Definition Ceqb (a b : C) : bool := Qc_eqb (re a) (re b) && Qc_eqb (im a) (im b).
(** Division, for a divisor different from zero. *)
Definition Cdiv (a b : C) : C :=
  mkC ((re a * re b + im a * im b) / Cnorm2 b)%Qc
      ((im a * re b - re a * im b) / Cnorm2 b)%Qc.

(** ** Strings: [str.upper], [str.islower], [in] *)

Definition is_lower_ascii (c : ascii) : bool :=
  let n := nat_of_ascii c in (97 <=? n)%nat && (n <=? 122)%nat.
Definition is_upper_ascii (c : ascii) : bool :=
  let n := nat_of_ascii c in (65 <=? n)%nat && (n <=? 90)%nat.
Definition upper_ascii (c : ascii) : ascii :=
  if is_lower_ascii c then ascii_of_nat (nat_of_ascii c - 32) else c.

(** [s.upper()], on ASCII strings. *)
Fixpoint upper (s : string) : string :=
  match s with
  | EmptyString => EmptyString
  | String c s' => String (upper_ascii c) (upper s')
  end.

Fixpoint any_ascii (p : ascii -> bool) (s : string) : bool :=
  match s with
  | EmptyString => false
  | String c s' => p c || any_ascii p s'
  end.

(** [s.islower()]: at least one cased character, and no uppercase one. *)
Definition islower (s : string) : bool :=
  any_ascii is_lower_ascii s && negb (any_ascii is_upper_ascii s).

Fixpoint has_prefix (p s : string) : bool :=
  match p, s with
  | EmptyString, _ => true
  | String a p', String b s' => Ascii.eqb a b && has_prefix p' s'
  | String _ _, EmptyString => false
  end.

(** [p in s] for two strings: [p] occurs in [s] as a contiguous substring. *)
Fixpoint str_in (p s : string) : bool :=
  has_prefix p s ||
  match s with
  | EmptyString => false
  | String _ s' => str_in p s'
  end.

(** [x in [s1, s2, ...]] for a list of strings. *)
Definition str_in_list (x : string) (l : list string) : bool :=
  existsb (String.eqb x) l.

(** ** numpy arrays *)

Record ndarray (A : Type) : Type := mkArr { nd_shape : list nat; nd_data : list A }.
Arguments mkArr {A} nd_shape nd_data.
Arguments nd_shape {A} n.
Arguments nd_data {A} n.

(** [np.array([x1, ..., xn])] *)
Definition array1 {A} (l : list A) : ndarray A := mkArr [length l] l.

Definition broadcast_msg : string := "operands could not be broadcast together".

(** An elementwise operation on two one-dimensional arrays, with numpy's
    broadcasting of a one-element operand. *)
Definition broadcast2 {A B D} (f : A -> B -> D) (xs : list A) (ys : list B)
  : result (list D) :=
  if (length xs =? length ys)%nat then Ok (zip_with f xs ys)
  else match xs, ys with
       | [x], _ => Ok (map (f x) ys)
       | _, [y] => Ok (map (fun x => f x y) xs)
       | _, _ => Raise (ValueError broadcast_msg)
       end.

Definition Qc_prod (l : list Qc) : Qc := fold_right Qcmult 1%Qc l.
Definition Qc_sum (l : list Qc) : Qc := fold_right Qcplus 0%Qc l.
Definition Z_prod (l : list Z) : Z := fold_right Z.mul 1 l.
Definition nat_prod (l : list nat) : nat := fold_right Nat.mul 1%nat l.
Definition C_sum (l : list C) : C := fold_right Cadd Czero l.

(** [np.linspace(a, b, num)] *)
Definition linspace (a b : Qc) (num : Z) : result (list Qc) :=
  if num <? 0 then
    Raise (ValueError ("Number of samples, " +:+ pretty num +:+ ", must be non-negative."))
  else if num =? 0 then Ok []
  else if num =? 1 then Ok [a]
  else
    let step := ((b - a) / Qc_of_Z (num - 1))%Qc in
    Ok (map (fun i => (a + Qc_of_Z (Z.of_nat i) * step)%Qc) (seq 0 (Z.to_nat num - 1))
          ++ [b]).

(** [np.reshape(a, shape)] of a flat array keeps the data and needs the sizes
    to agree. *)
Definition reshape {A} (a : list A) (shape : list nat) : result (list A) :=
  if (length a =? nat_prod shape)%nat then Ok a
  else Raise (ValueError "cannot reshape array").

(** ** dft_cell.py: [fix_array_metadata] *)

(** One turn of the loop [for d in range(0,3)]. *)
Definition fix_axis (center size : list Qc) (xyzw : list (ndarray Qc)) (d : Z)
  : result (list (ndarray Qc)) :=
  sd ← getitem size d;
  collapse ←
    (if Qc_eqb sd 0%Qc then
       a ← getitem xyzw d;
       x0 ← getitem (nd_data a) 0;
       cd ← getitem center d;
       Ok (negb (Qc_eqb x0 cd))
     else Ok false);
  if (collapse : bool) then
    cd ← getitem center d;
    setitem xyzw d (array1 [cd])
  else
    a ← getitem xyzw d;
    setitem xyzw d a.

Fixpoint for_axes (center size : list Qc) (ds : list Z) (xyzw : list (ndarray Qc))
  : result (list (ndarray Qc)) :=
  match ds with
  | [] => Ok xyzw
  | d :: ds' => xyzw' ← fix_axis center size xyzw d; for_axes center size ds' xyzw'
  end.

(** The function updates [xyzw] in place; the model returns the updated list. *)
Definition fix_array_metadata (xyzw : list (ndarray Qc)) (center size : list Qc)
  : result (list (ndarray Qc)) :=
  for_axes center size [0; 1; 2] xyzw.

(** ** dft_cell.py: [Grid], [make_grid], [xyzw2grid] *)

Record Grid : Type := mkGrid {
  xtics : list Qc;
  ytics : list Qc;
  ztics : list Qc;
  points : list (list Qc);
  weights : list Qc;
  shape : list nat
}.

Definition flatnonzero (a : list Qc) : list nat :=
  map fst (List.filter (fun p => negb (Qc_eqb (snd p) 0%Qc)) (imap (fun i x => (i, x)) a)).

(** [int(np.ceil(s/length))] *)
Definition ceil_div (s len : Qc) : result Z :=
  if Qc_eqb len 0%Qc then
    (if Qc_eqb s 0%Qc then Raise (ValueError "cannot convert float NaN to integer")
     else Raise OverflowError)
  else Ok (Qceiling (s / len)%Qc).

Fixpoint zip3 {A B D} (xs : list A) (ys : list B) (zs : list D) : list (A * B * D) :=
  match xs, ys, zs with
  | x :: xs', y :: ys', z :: zs' => (x, y, z) :: zip3 xs' ys' zs'
  | _, _, _ => []
  end.

Definition ORIGIN : list Qc := [0%Qc; 0%Qc; 0%Qc].

Definition make_grid (size center : list Qc) (dims : option (list Z)) (length_ : option Qc)
  : result Grid :=
  let nd := length (flatnonzero size) in
  let center := slice_to center nd in
  let size := slice_to size nd in
  dims ←
    match length_ with
    | Some len => ds ← mapM (fun s => n ← ceil_div s len; Ok (Z.max 1 n)) size; Ok (Some ds)
    | None => Ok dims
    end;
  let dims :=
    match dims with
    | None => map (fun s => if Qc_ltb 0%Qc s then 10 else 1) size
    | Some ds => ds
    end in
  let hsize := map (Qcmult half) size in
  pmin ← broadcast2 Qcminus center hsize;
  pmax ← broadcast2 Qcplus center hsize;
  tics ← mapM (fun '(a, b, n) => linspace a b n) (zip3 pmin pmax dims);
  let tics := if (length tics =? 2)%nat then tics ++ [[0%Qc]] else tics in
  t0 ← getitem tics 0;
  points ←
    concatM (fun x =>
      t1 ← getitem tics 1;
      concatM (fun y =>
        t2 ← getitem tics 2;
        Ok (map (fun z => [x; y; z]) t2)) t1) t0;
  let vol := Qc_prod (List.filter (fun s => Qc_ltb 0%Qc s) size) in
  let ntot := Z_prod dims in
  weights ←
    (if ntot <? 0 then Raise (ValueError "negative dimensions are not allowed")
     else if ntot =? 0 then Ok []
     else Ok (replicate (Z.to_nat ntot) (vol / Qc_of_Z ntot)%Qc));
  let shape := List.filter (fun n => (1 <? n)%nat) (map length tics) in
  t0 ← getitem tics 0;
  t1 ← getitem tics 1;
  t2 ← getitem tics 2;
  Ok (mkGrid t0 t1 t2 points weights shape).

Definition xyzw2grid (xyzw : list (ndarray Qc)) : result Grid :=
  x ← getitem xyzw 0;
  y ← getitem xyzw 1;
  z ← getitem xyzw 2;
  pts ←
    (x' ← getitem xyzw 0;
     concatM (fun a =>
       y' ← getitem xyzw 1;
       concatM (fun b =>
         z' ← getitem xyzw 2;
         Ok (map (fun c => [a; b; c]) (nd_data z'))) (nd_data y')) (nd_data x'));
  w ← getitem xyzw 3;
  Ok (mkGrid (nd_data x) (nd_data y) (nd_data z) pts (nd_data w) (nd_shape w)).

(** ** dft_cell.py: [Subregion] *)

Record Vector3 : Type := V3 { vx : Qc; vy : Qc; vz : Qc }.

Definition v3_add (a b : Vector3) : Vector3 :=
  V3 (vx a + vx b)%Qc (vy a + vy b)%Qc (vz a + vz b)%Qc.
Definition v3_sub (a b : Vector3) : Vector3 :=
  V3 (vx a - vx b)%Qc (vy a - vy b)%Qc (vz a - vz b)%Qc.
Definition v3_scale (k : Qc) (a : Vector3) : Vector3 :=
  V3 (k * vx a)%Qc (k * vy a)%Qc (k * vz a)%Qc.
Definition v3_list (a : Vector3) : list Qc := [vx a; vy a; vz a].
Definition v3_zero : Vector3 := V3 0%Qc 0%Qc 0%Qc.

(** An attribute that [__init__] may leave unset is an [option]. *)
Record Subregion : Type := mkSubregion {
  sr_fcen : Qc;
  sr_df : Qc;
  sr_nfreq : Z;
  sr_xmin : option Vector3;
  sr_xmax : option Vector3;
  sr_center : option Vector3;
  sr_size : option Vector3;
  sr_normal : option Z;
  sr_name : option string
}.

(** [__init__(self, fcen, df=0, nfreq=1, xmin=None, xmax=None, center=mp.Vector3(),
    size=None, normal=None, dir=None, name=None)].  The branch for two
    corners starts with [v3(xmin)]; the module neither defines nor imports
    the name [v3], so that branch raises [NameError] and no object is
    built.  Its remaining text, [center = 0.5*(xmax+xmin)] and
    [size = xmax-xmin], is never reached. *)
Definition Subregion_init (fcen df : Qc) (nfreq : Z)
    (xmin xmax : option Vector3) (center : Vector3) (size : option Vector3)
    (normal dir : option Z) (name : option string) : result Subregion :=
  let nrm := match normal with None => dir | Some n => Some n end in
  match xmin, xmax, size with
  | Some _, Some _, _ => Raise (NameError "v3")
  | _, _, Some sz =>
      Ok (mkSubregion fcen df nfreq
            (Some (v3_add center (v3_scale (Qc_of_Z (-1)) sz)))
            (Some (v3_add center (v3_scale (Qc_of_Z 1) sz)))
            (Some center) (Some sz) nrm name)
  | _, _, None =>
      Ok (mkSubregion fcen df nfreq None None None None nrm name)
  end.

(** ** The simulation engine, as seen from this package *)

Inductive Component : Type :=
| Ex | Ey | Ez | Hx | Hy | Hz | Dielectric | Permeability.

#[global] Instance Component_eq_dec : EqDecision Component.
Proof. solve_decision. Defined.

Definition E_CPTS : list Component := [Ex; Ey; Ez].
Definition H_CPTS : list Component := [Hx; Hy; Hz].
Definition EH_CPTS : list Component := E_CPTS ++ H_CPTS.
Definition EH_TRANSVERSE : list (list Component) :=
  [ [Ey; Ez; Hy; Hz];
    [Ez; Ex; Hz; Hx];
    [Ex; Ey; Hx; Hy] ].

Definition cpt_in (c : Component) (l : list Component) : bool :=
  bool_decide (c ∈ l).

(** What [get_dft_array] answers: a rank-0 array when the monitor holds no
    data for the component, an array of amplitudes otherwise. *)
Inductive DftArray : Type :=
| Rank0 (c : C)
| Slice (a : list C).

(** A monitor handle ([DftFlux], [DftFields]). *)
Record DftObj : Type := mkDftObj { dft_id : nat; dft_normal_direction : Z }.

(** The temporal envelope of a source. *)
Record TimeSrc : Type := mkTimeSrc {
  frequency : Qc;
  fourier_transform : Qc -> C
}.

(** The answer of [get_eigenmode_coefficients]: [alpha] has shape
    (bands, frequencies, 2). *)
Record EigCoeffs : Type := mkEigCoeffs {
  alpha : ndarray C;
  ob_cscale : list Qc
}.

Definition Kwargs : Type := list (string * string).

Record Simulation : Type := mkSim {
  resolution : Qc;
  sources : list TimeSrc;  (* [s.src for s in sim.sources] *)
  add_flux : Qc -> Qc -> Z -> Vector3 -> Vector3 -> option Z -> DftObj;
  add_dft_fields : list Component -> Qc -> Qc -> Z -> Vector3 -> Vector3 -> DftObj;
  get_dft_array : option DftObj -> Component -> Z -> DftArray;
  get_array_metadata : Vector3 -> Vector3 -> list (ndarray Qc);
  get_eigenmode : Qc -> option Z -> Vector3 -> Vector3 -> Z -> Vector3 -> list Qc -> Component -> C;
  get_eigenmode_coefficients : DftObj -> list Z -> Kwargs -> EigCoeffs;
  get_eigenmode_freqs : DftObj -> list Qc
}.

(** A Python value returned by the quantity evaluation. *)
Inductive PyVal : Type :=
| VNone
| VFloat (x : Qc)
| VComplex (z : C).

(** Reading an attribute that may be unset. *)
Definition attr {A} (name : string) (o : option A) : result A :=
  match o with
  | Some a => Ok a
  | None => Raise (AttributeError name)
  end.

(** ** dft_cell.py: [DFTCell] *)

Module DFTCell.

Record t : Type := mk {
  region : Subregion;
  normal : option Z;
  celltype : string;
  components : list Component;
  fcen : Qc;
  df : Qc;
  nfreq : Z;
  freqs : list Qc;
  sim : option Simulation;
  dft_obj : option DftObj;
  EH_cache : gmap string (list (list (list C)));
  eigencache : gmap (Z * Z) (list (list C));
  name : string;
  grid : option Grid
}.

Definition set_sim (s : option Simulation) (c : t) : t :=
  mk (region c) (normal c) (celltype c) (components c) (fcen c) (df c) (nfreq c)
     (freqs c) s (dft_obj c) (EH_cache c) (eigencache c) (name c) (grid c).
Definition set_dft_obj (o : option DftObj) (c : t) : t :=
  mk (region c) (normal c) (celltype c) (components c) (fcen c) (df c) (nfreq c)
     (freqs c) (sim c) o (EH_cache c) (eigencache c) (name c) (grid c).
Definition set_EH_cache (m : gmap string (list (list (list C)))) (c : t) : t :=
  mk (region c) (normal c) (celltype c) (components c) (fcen c) (df c) (nfreq c)
     (freqs c) (sim c) (dft_obj c) m (eigencache c) (name c) (grid c).
Definition set_eigencache (m : gmap (Z * Z) (list (list C))) (c : t) : t :=
  mk (region c) (normal c) (celltype c) (components c) (fcen c) (df c) (nfreq c)
     (freqs c) (sim c) (dft_obj c) (EH_cache c) m (name c) (grid c).
Definition set_grid (g : option Grid) (c : t) : t :=
  mk (region c) (normal c) (celltype c) (components c) (fcen c) (df c) (nfreq c)
     (freqs c) (sim c) (dft_obj c) (EH_cache c) (eigencache c) (name c) g.

(** [__init__(self, region, components=None)].  [names] is the module-level
    list [dft_cell_names]; the new list is returned with the cell. *)
Definition init (names : list string) (rgn : Subregion)
    (cpts : option (list Component)) : result (t * list string) :=
  let nrm := sr_normal rgn in
  let ctype := match nrm with Some _ => "flux" | None => "fields" end in
  cs ←
    match cpts with
    | Some (c :: l) => Ok (c :: l)
    | _ => match nrm with
           | Some n => getitem EH_TRANSVERSE n
           | None => Ok EH_CPTS
           end
    end;
  fs ←
    (if sr_nfreq rgn =? 1 then Ok [sr_fcen rgn]
     else linspace (sr_fcen rgn - half * sr_df rgn)%Qc
                   (sr_fcen rgn + half * sr_df rgn)%Qc (sr_nfreq rgn));
  let nm :=
    match sr_name rgn with
    | Some rn => rn +:+ "_" +:+ ctype
    | None => ctype +:+ "_" +:+ pretty (length names)
    end in
  Ok (mk rgn nrm ctype cs (sr_fcen rgn) (sr_df rgn) (sr_nfreq rgn) fs
         None None ∅ ∅ nm None,
      names ++ [nm]).

(** [register(self, sim)]: the cell after the call, and the exception if one
    was raised on the way. *)
Definition register (s : Simulation) (c : t) : result unit * t :=
  let c := set_sim (Some s) c in
  let obj :=
    if String.eqb (celltype c) "flux" then
      ctr ← attr "center" (sr_center (region c));
      sz ← attr "size" (sr_size (region c));
      Ok (add_flux s (fcen c) (df c) (nfreq c) ctr sz (normal c))
    else
      f0 ← getitem (freqs c) 0;
      f1 ← getitem (freqs c) (-1);
      ctr ← attr "center" (sr_center (region c));
      sz ← attr "size" (sr_size (region c));
      Ok (add_dft_fields s (components c) f0 f1 (nfreq c) ctr sz) in
  match obj with
  | Raise e => (Raise e, c)
  | Ok o =>
      let c := set_dft_obj (Some o) c in
      match grid c with
      | Some _ => (Ok (), c)
      | None =>
          let g :=
            ctr ← attr "center" (sr_center (region c));
            sz ← attr "size" (sr_size (region c));
            xyzw ← fix_array_metadata (get_array_metadata s ctr sz)
                                      (v3_list ctr) (v3_list sz);
            xyzw2grid xyzw in
          match g with
          | Raise e => (Raise e, c)
          | Ok g => (Ok (), set_grid (Some g) c)
          end
      end
  end.

Definition get_EH_slice (c : t) (cpt : Component) (nf : Z) : result (list C) :=
  s ← attr "get_dft_array" (sim c);
  match get_dft_array s (dft_obj c) cpt nf with
  | Slice a => Ok a
  | Rank0 _ =>
      g ← attr "shape" (grid c);
      Ok (replicate (nat_prod (shape g)) Czero)
  end.

Definition no_saved_data (cell label : string) : string :=
  "DFTCell " +:+ cell +:+ " has no saved data for label '" +:+ label +:+ "'".

Definition get_EH_slices (c : t) (label : option string) (nf : Z)
  : result (list (list C)) :=
  match label with
  | None => mapM (fun cpt => get_EH_slice c cpt nf) (components c)
  | Some l =>
      match EH_cache c !! l with
      | Some saved => getitem saved nf
      | None => Raise (ValueError (no_saved_data (name c) l))
      end
  end.

(** [a -= b] on arrays: [b] is broadcast to the shape of [a]. *)
Definition isub (a b : list C) : result (list C) :=
  if (length a =? length b)%nat then Ok (zip_with Csub a b)
  else match b with
       | [y] => Ok (map (fun x => Csub x y) a)
       | _ => Raise (ValueError broadcast_msg)
       end.

Fixpoint subtract_loop (EHI : list (list C)) (ncs : list Z) (EHT : list (list C))
  : result (list (list C)) :=
  match ncs with
  | [] => Ok EHT
  | nc :: ncs' =>
      a ← getitem EHT nc;
      b ← getitem EHI nc;
      d ← isub a b;
      EHT' ← setitem EHT nc d;
      subtract_loop EHI ncs' EHT'
  end.

(** [range(n)] *)
Definition range (n : nat) : list Z := map Z.of_nat (seq 0 n).

(** [subtract_incident_fields(self, EHT, nf)] updates [EHT] in place; the
    model returns the updated list. *)
Definition subtract_incident_fields (c : t) (EHT : list (list C)) (nf : Z)
  : result (list (list C)) :=
  EHI ← get_EH_slices c (Some "incident") nf;
  subtract_loop EHI (range (length (components c))) EHT.

Definition save_fields (label : string) (c : t) : result unit * t :=
  match mapM (fun nf => get_EH_slices c None nf) (range (length (freqs c))) with
  | Ok slices => (Ok (), set_EH_cache (<[label := slices]> (EH_cache c)) c)
  | Raise e => (Raise e, c)
  end.

(** The cache key 'M{}.F{}'.format(mode, nf) determines, and is determined
    by, the pair (mode, nf). *)
Definition tag (mode nf : Z) : Z * Z := (mode, nf).

Definition get_eigenmode_slices (mode nf : Z) (c : t)
  : result (list (list C)) * t :=
  match eigencache c !! tag mode nf with
  | Some slices => (Ok slices, c)
  | None =>
      let r :=
        freq ← getitem (freqs c) nf;
        ctr ← attr "center" (sr_center (region c));
        sz ← attr "size" (sr_size (region c));
        s ← attr "get_eigenmode" (sim c);
        let eigenmode := get_eigenmode s freq (normal c) ctr sz mode v3_zero in
        mapM (fun cpt =>
                g ← attr "points" (grid c);
                reshape (map (fun p => eigenmode p cpt) (points g)) (shape g))
             (components c) in
      match r with
      | Ok eh => (Ok eh, set_eigencache (<[tag mode nf := eh]> (eigencache c)) c)
      | Raise e => (Raise e, c)
      end
  end.

Definition Cmul_conj (a b : C) : C := Cmul (Cconj a) b.

(** [np.sum( w*(np.conj(a1)*b1 - np.conj(a2)*b2) )] *)
Definition overlap_sum (w : list C) (a1 b1 a2 b2 : result (list C)) : result C :=
  a1 ← a1; b1 ← b1; p1 ← broadcast2 Cmul_conj a1 b1;
  a2 ← a2; b2 ← b2; p2 ← broadcast2 Cmul_conj a2 b2;
  d ← broadcast2 Csub p1 p2;
  wd ← broadcast2 Cmul w d;
  Ok (C_sum wd).

(** [np.sum(arrays, axis=0)]; the sum of an empty list is the scalar 0.0. *)
Fixpoint sum_axis0 (l : list (list C)) : result (list C) :=
  match l with
  | [] => Ok [Czero]
  | [a] => Ok a
  | a :: l' => s ← sum_axis0 l';
               if (length a =? length s)%nat then Ok (zip_with Cadd a s)
               else Raise (ValueError "setting an array element with a sequence")
  end.

Definition dft_values (d : DftArray) : list C :=
  match d with Rank0 c => [c] | Slice a => a end.

(** The [|F|^2] density summed over the components of [EH] that are in [cpts] *)
Definition field_norm2 (c : t) (EH : list (list C)) (cpts : list Component)
  : result (list C) :=
  terms ←
    mapM (fun '(nc, cpt) => a ← getitem EH nc; broadcast2 Cmul_conj a a)
         (List.filter (fun p => cpt_in (snd p) cpts)
                 (imap (fun i cpt => (Z.of_nat i, cpt)) (components c)));
  sum_axis0 terms.

(** [0.5*np.sum(w*m*F2)] *)
Definition energy_term (w m F2 : list C) : result C :=
  wm ← broadcast2 Cmul w m;
  wmf ← broadcast2 Cmul wm F2;
  Ok (Cmul (C_of_Qc half) (C_sum wmf)).

Definition pyadd (q : PyVal) (z : C) : PyVal :=
  match q with
  | VComplex a => VComplex (Cadd a z)
  | VFloat x => VComplex (Cadd (C_of_Qc x) z)
  | VNone => VNone
  end.

Definition unsupported_quantity (cell qcode : string) : string :=
  "DFTCell " +:+ cell +:+ ": unsupported quantity type " +:+ qcode.

(** [__call__(self, qcode, mode=1, nf=0)] *)
Definition call (qcode : string) (mode nf : Z) (c : t) : result PyVal * t :=
  let pre :=
    g ← attr "weights" (grid c);
    w ← reshape (weights g) (shape g);
    EH ← get_EH_slices c None nf;
    EH ← (if islower qcode then subtract_incident_fields c EH nf else Ok EH);
    Ok (map C_of_Qc w, EH) in
  match pre with
  | Raise e => (Raise e, c)
  | Ok (w, EH) =>
      let quantity := upper qcode in
      if String.eqb quantity "S" then
        (s ← overlap_sum w (getitem EH 0) (getitem EH 3) (getitem EH 1) (getitem EH 2);
         Ok (VFloat (re s)), c)
      else if str_in (upper quantity) "PFMB" then
        match get_eigenmode_slices mode nf c with
        | (Raise e, c') => (Raise e, c')
        | (Ok eh, c') =>
            (eH ← overlap_sum w (getitem eh 0) (getitem EH 3) (getitem eh 1) (getitem EH 2);
             hE ← overlap_sum w (getitem eh 3) (getitem EH 0) (getitem eh 2) (getitem EH 1);
             let sign := if str_in_list qcode ["P"; "F"] then C_of_Z 1 else C_of_Z (-1) in
             let temp := Cdiv (Cadd eH (Cmul sign hE)) (C_of_Z 4) in
             Ok (VComplex temp), c')
        end
      else if str_in_list quantity ["UE"; "UH"; "UM"; "UEH"; "UEM"; "UT"] then
        (let q := VFloat 0%Qc in
         q ← (if str_in_list quantity ["UE"; "UEH"; "UEM"; "UT"] then
                s ← attr "get_dft_array" (sim c);
                let eps := dft_values (get_dft_array s (dft_obj c) Dielectric nf) in
                E2 ← field_norm2 c EH E_CPTS;
                u ← energy_term w eps E2;
                Ok (pyadd q u)
              else Ok q);
         q ← (if str_in_list quantity ["UH"; "UM"; "UEH"; "UEM"; "UT"] then
                s ← attr "get_dft_array" (sim c);
                let mu := dft_values (get_dft_array s (dft_obj c) Permeability nf) in
                H2 ← field_norm2 c EH H_CPTS;
                u ← energy_term w mu H2;
                Ok (pyadd q u)
              else Ok q);
         Ok q, c)
      else
        (* the ValueError is built and dropped: the method ends without a
           return statement *)
        let _ := ValueError (unsupported_quantity (name c) qcode) in
        (Ok VNone, c)
  end.

End DFTCell.

(** ** objective.py: [EigenmodeCoefficient] *)

(** [mp.Volume(center=..., size=...)] *)
Record Volume : Type := mkVolume { vol_center : Vector3; vol_size : Vector3 }.

(** The first argument of [mp.EigenModeSource].  [FilteredSource] is defined
    in the module [filter_source]; the model records the arguments it is
    constructed from. *)
Inductive SourceTime : Type :=
| Envelope (src : TimeSrc)
| FilteredSource (center_frequency : Qc) (frequencies : list Qc) (scale : list C)
                 (dt time : Qc) (time_src : TimeSrc).

Inductive Amplitude : Type :=
| AmpArray (a : list C)
| AmpInt (n : Z).

(** The keyword arguments of [mp.EigenModeSource]; the direction is always
    [mp.NO_DIRECTION]. *)
Record EigenModeSource : Type := mkEigenModeSource {
  ems_src : SourceTime;
  eig_band : Z;
  eig_kpoint : Vector3;
  amplitude : Amplitude;
  ems_size : Vector3;
  ems_center : Vector3;
  ems_kwargs : Kwargs
}.

(** [dJ] as the caller passes it, before [np.atleast_1d]. *)
Inductive ArrayLike : Type :=
| Scalar (z : C)
| Array1 (a : list C).

Definition atleast_1d (x : ArrayLike) : list C :=
  match x with Scalar z => [z] | Array1 a => a end.

Definition Qc_abs (x : Qc) : Qc := if Qc_ltb x 0%Qc then (- x)%Qc else x.

(** [np.argmin]: the first index of the least entry. *)
Fixpoint argmin_from (best : Qc) (besti i : Z) (l : list Qc) : Z :=
  match l with
  | [] => besti
  | x :: l' => if Qc_ltb x best then argmin_from x i (i + 1) l'
               else argmin_from best besti (i + 1) l'
  end.
Definition argmin (l : list Qc) : result Z :=
  match l with
  | [] => Raise (ValueError "attempt to get argmin of an empty sequence")
  | x :: l' => Ok (argmin_from x 0 1 l')
  end.

(** [a[:,:,k]] for an array of rank 3. *)
Definition slice_last (a : ndarray C) (k : Z) : result (ndarray C) :=
  match nd_shape a with
  | [nb; nf; nd] =>
      let n := Z.of_nat nd in
      if ((0 <=? k) && (k <? n)) || ((- n <=? k) && (k <? 0)) then
        let k' := Z.to_nat (if k <? 0 then n + k else k) in
        rows ← mapM (fun i => match nd_data a !! (i * nd + k')%nat with
                              | Some z => Ok z
                              | None => Raise IndexError
                              end) (seq 0 (nb * nf));
        Ok (mkArr [nb; nf] rows)
      else Raise IndexError
  | _ => Raise IndexError
  end.

(** [np.squeeze] *)
Definition squeeze {A} (a : ndarray A) : ndarray A :=
  mkArr (List.filter (fun n => negb (n =? 1)%nat) (nd_shape a)) (nd_data a).

(** [a / b] for arrays; an entry of [b] equal to zero has no quotient in the
    model. *)
Definition array_div (a b : list C) : result (list C) :=
  if forallb (fun z => negb (Ceqb z Czero)) b then broadcast2 Cdiv a b
  else Raise FloatingPointError.

(** [mp.Vector3(x=1)], [mp.Vector3(y=1)], [mp.Vector3(z=1)] *)
Definition unit_vector (axis : Z) : Vector3 :=
  V3 (if axis =? 0 then 1%Qc else 0%Qc)
     (if axis =? 1 then 1%Qc else 0%Qc)
     (if axis =? 2 then 1%Qc else 0%Qc).

Module EigenmodeCoefficient.

Record t : Type := mk {
  sim : Simulation;
  volume : Volume;
  mode : Z;
  forward : Z;
  normal_direction : option Z;
  k0 : option Vector3;
  eval : option (ndarray C);
  EigenMode_kwargs : Kwargs;
  (* attributes that exist only after [register_monitors] *)
  fcen : option Qc;
  df : option Qc;
  nf : option Z;
  monitor : option DftObj;
  (* attributes that exist only after [__call__] *)
  time_src : option TimeSrc;
  cscale : option (list Qc);
  freqs : option (list Qc);
  fcen_idx : option Z;
  (* attribute that exists only after [place_adjoint_source] *)
  source : option EigenModeSource
}.

(** [__init__(self, sim, volume, mode, forward=True, k0=None, **kwargs)] *)
Definition init (s : Simulation) (vol : Volume) (m : Z) (fwd : bool)
    (k : option Vector3) (kwargs : Kwargs) : t :=
  mk s vol m (if fwd then 0 else 1) None k None kwargs
     None None None None None None None None None.

Definition register_monitors (fc d : Qc) (n : Z) (o : t) : DftObj * t :=
  let mon := add_flux (sim o) fc d n (vol_center (volume o)) (vol_size (volume o)) None in
  (mon,
   mk (sim o) (volume o) (mode o) (forward o) (Some (dft_normal_direction mon))
      (k0 o) (eval o) (EigenMode_kwargs o)
      (Some fc) (Some d) (Some n) (Some mon)
      (time_src o) (cscale o) (freqs o) (fcen_idx o) (source o)).

Definition set_time_src (ts : TimeSrc) (o : t) : t :=
  mk (sim o) (volume o) (mode o) (forward o) (normal_direction o) (k0 o) (eval o)
     (EigenMode_kwargs o) (fcen o) (df o) (nf o) (monitor o)
     (Some ts) (cscale o) (freqs o) (fcen_idx o) (source o).

(** [__call__(self)]; the assignments made before an exception stay. *)
Definition call (o : t) : result (ndarray C) * t :=
  match getitem (sources (sim o)) 0 with
  | Raise e => (Raise e, o)
  | Ok ts =>
      let o := set_time_src ts o in
      match attr "monitor" (monitor o) with
      | Raise e => (Raise e, o)
      | Ok mon =>
          let ob := get_eigenmode_coefficients (sim o) mon [mode o] (EigenMode_kwargs o) in
          match slice_last (alpha ob) (forward o) with
          | Raise e => (Raise e, o)
          | Ok sl =>
              let ev := squeeze sl in
              let fs := get_eigenmode_freqs (sim o) mon in
              let o1 :=
                mk (sim o) (volume o) (mode o) (forward o) (normal_direction o) (k0 o)
                   (Some ev) (EigenMode_kwargs o) (fcen o) (df o) (nf o) (monitor o)
                   (time_src o) (Some (ob_cscale ob)) (Some fs) (fcen_idx o) (source o) in
              let idx :=
                fc ← attr "fcen" (fcen o);
                argmin (map (fun f => Qc_abs (f - fc)%Qc) fs) in
              match idx with
              | Raise e => (Raise e, o1)
              | Ok i =>
                  (Ok ev,
                   mk (sim o) (volume o) (mode o) (forward o) (normal_direction o) (k0 o)
                      (Some ev) (EigenMode_kwargs o) (fcen o) (df o) (nf o) (monitor o)
                      (time_src o) (Some (ob_cscale ob)) (Some fs) (Some i) (source o))
              end
          end
      end
  end.

(** [direction_scalar = 1 if self.forward else -1] *)
Definition direction_scalar (o : t) : Z := if forward o =? 0 then -1 else 1.

(** The local variable [k0] after the [if self.k0 is None: ... else: ...]
    statement: [None] when no branch has assigned it.  In the branch for
    axis 2 the statement is the comparison [k0 == ...], which reads the
    local variable before any assignment. *)
Definition starting_kpoint (o : t) : result (option Vector3) :=
  let ds := Qc_of_Z (direction_scalar o) in
  match k0 o with
  | None =>
      if bool_decide (normal_direction o = Some 0) then
        Ok (Some (v3_scale ds (unit_vector 0)))
      else if bool_decide (normal_direction o = Some 1) then
        Ok (Some (v3_scale ds (unit_vector 1)))
      else if bool_decide (normal_direction o = Some 2) then
        Raise (UnboundLocalError "k0")
      else Ok None
  | Some k => Ok (Some (v3_scale ds k))
  end.

(** [da_dE = 0.5*(1/self.sim.resolution * 1/self.sim.resolution * self.cscale)] *)
Definition da_dE (o : t) : result (list C) :=
  let res := resolution (sim o) in
  if Qc_eqb res 0%Qc then Raise ZeroDivisionError
  else
    cs ← attr "cscale" (cscale o);
    Ok (map (fun c => C_of_Qc (half * (1 / res * 1 / res * c))%Qc) cs).

(** [scale = da_dE * dJ * 1j * 2 * np.pi * self.freqs / np.array([...])] *)
Definition scale_factor (o : t) (dJ : list C) : result (list C) :=
  d ← da_dE o;
  x ← broadcast2 Cmul d dJ;
  let x := map (fun z => Cmul z Cj) x in
  let x := map (fun z => Cmul z (C_of_Z 2)) x in
  let x := map (fun z => Cmul z (C_of_Qc np_pi)) x in
  fs ← attr "freqs" (freqs o);
  x ← broadcast2 Cmul x (map C_of_Qc fs);
  ft ← mapM (fun f => ts ← attr "time_src" (time_src o); Ok (fourier_transform ts f)) fs;
  array_div x ft.

Definition set_source (src : EigenModeSource) (o : t) : t :=
  mk (sim o) (volume o) (mode o) (forward o) (normal_direction o) (k0 o) (eval o)
     (EigenMode_kwargs o) (fcen o) (df o) (nf o) (monitor o)
     (time_src o) (cscale o) (freqs o) (fcen_idx o) (Some src).

(** [place_adjoint_source(self, dJ, dt, time)] *)
Definition place_adjoint_source (dJ : ArrayLike) (dt time : Qc) (o : t)
  : result EigenModeSource * t :=
  let dJ := atleast_1d dJ in
  let r :=
    kpt ← starting_kpoint o;
    scale ← scale_factor o dJ;
    fs ← attr "freqs" (freqs o);
    ts ← attr "time_src" (time_src o);
    let '(src, amp) :=
      if (length fs =? 1)%nat then (Envelope ts, AmpArray scale)
      else (FilteredSource (frequency ts) fs scale dt time ts, AmpInt 1) in
    match kpt with
    | None => Raise (UnboundLocalError "k0")
    | Some k =>
        Ok (mkEigenModeSource src (mode o) k amp
              (vol_size (volume o)) (vol_center (volume o)) (EigenMode_kwargs o))
    end in
  match r with
  | Ok src => (Ok src, set_source src o)
  | Raise e => (Raise e, o)
  end.

End EigenmodeCoefficient.

(** ** Decidable comparison of computed values

    Two equal rationals may carry different canonicity proofs after
    evaluation, so closed results are compared with these tests. *)

Definition V3_eqb (a b : Vector3) : bool :=
  Qc_eqb (vx a) (vx b) && Qc_eqb (vy a) (vy b) && Qc_eqb (vz a) (vz b).

Definition option_eqb {A} (eqb : A -> A -> bool) (a b : option A) : bool :=
  match a, b with
  | Some x, Some y => eqb x y
  | None, None => true
  | _, _ => false
  end.

Definition PyVal_eqb (a b : PyVal) : bool :=
  match a, b with
  | VNone, VNone => true
  | VFloat x, VFloat y => Qc_eqb x y
  | VComplex x, VComplex y => Ceqb x y
  | _, _ => false
  end.

(** ** A driver scenario

    A flux cell on the line [center = (0,0,0)], [size = (0,2,0)] with normal
    axis 0, sampled at two points of weight 1.  A first run (the incident
    field) is saved under the label 'incident'; the quantity is then
    evaluated on a second run (the total field). *)

(** The region that [Subregion(fcen=1, center=(0,0,0), size=(0,2,0),
    normal=0)] builds. *)
Definition demo_region : Subregion :=
  let size := V3 0%Qc (Qc_of_Z 2) 0%Qc in
  mkSubregion 1%Qc 0%Qc 1
    (Some (v3_add v3_zero (v3_scale (Qc_of_Z (-1)) size)))
    (Some (v3_add v3_zero (v3_scale (Qc_of_Z 1) size)))
    (Some v3_zero) (Some size) (Some 0) None.

Definition demo_metadata : list (ndarray Qc) :=
  [ array1 [0%Qc]; array1 [Qc_of_Z (-1); 1%Qc]; array1 [0%Qc];
    mkArr [2%nat] [1%Qc; 1%Qc] ].

Definition demo_envelope : TimeSrc := mkTimeSrc 1%Qc (fun _ => Cone).

(** The eigenmode has [Ey = Hz = 1] and no other component. *)
Definition demo_mode (p : list Qc) (c : Component) : C :=
  match c with
  | Ey | Hz => Cone
  | _ => Czero
  end.

Definition demo_sim (normal_axis : Z) (cscale : Qc) (ey hz : Z) : Simulation :=
  mkSim 1%Qc [demo_envelope]
    (fun _ _ _ _ _ _ => mkDftObj 0 normal_axis)
    (fun _ _ _ _ _ _ => mkDftObj 1 normal_axis)
    (fun _ c _ =>
       match c with
       | Ey => Slice [C_of_Z ey; C_of_Z ey]
       | Hz => Slice [C_of_Z hz; C_of_Z hz]
       | _ => Rank0 Czero
       end)
    (fun _ _ => demo_metadata)
    (fun _ _ _ _ _ _ => demo_mode)
    (fun _ _ _ => mkEigCoeffs (mkArr [1%nat; 1%nat; 2%nat] [Cone; Cj]) [cscale])
    (fun _ => [1%Qc]).

(** Incident run: [Ey = 1], [Hz = 0].  Total run: [Ey = 3], [Hz = 2]. *)
Definition incident_sim : Simulation := demo_sim 0 1%Qc 1 0.
Definition total_sim : Simulation := demo_sim 0 1%Qc 3 2.

(** The total run in a medium of permittivity 2 and permeability 3 at both
    points. *)
Definition medium_sim : Simulation :=
  mkSim 1%Qc [demo_envelope]
    (fun _ _ _ _ _ _ => mkDftObj 0 0)
    (fun _ _ _ _ _ _ => mkDftObj 1 0)
    (fun _ c _ =>
       match c with
       | Ey => Slice [C_of_Z 3; C_of_Z 3]
       | Hz => Slice [C_of_Z 2; C_of_Z 2]
       | Dielectric => Slice [C_of_Z 2; C_of_Z 2]
       | Permeability => Slice [C_of_Z 3; C_of_Z 3]
       | _ => Rank0 Czero
       end)
    (fun _ _ => demo_metadata)
    (fun _ _ _ _ _ _ => demo_mode)
    (fun _ _ _ => mkEigCoeffs (mkArr [1%nat; 1%nat; 2%nat] [Cone; Cj]) [1%Qc])
    (fun _ => [1%Qc]).

(** The cell that [DFTCell(demo_region)] constructs when no cell was named
    before. *)
Definition demo_cell : DFTCell.t :=
  DFTCell.mk demo_region (Some 0) "flux" [Ey; Ez; Hy; Hz] 1%Qc 0%Qc 1 [1%Qc]
    None None ∅ ∅ "flux_0" None.

(** Build the cell, register it for the total run and evaluate [qcode]. *)
Definition total_run (qcode : string) : result PyVal :=
  '(c, _) ← DFTCell.init [] demo_region None;
  let '(r, c) := DFTCell.register total_sim c in
  _ ← r;
  fst (DFTCell.call qcode 1 0 c).

(** Build the cell, run and save the incident field, register the cell for
    the total run and evaluate [qcode]. *)
Definition scattered_run (qcode : string) : result PyVal :=
  '(c, _) ← DFTCell.init [] demo_region None;
  let '(r, c) := DFTCell.register incident_sim c in
  _ ← r;
  let '(r, c) := DFTCell.save_fields "incident" c in
  _ ← r;
  let '(r, c) := DFTCell.register total_sim c in
  _ ← r;
  fst (DFTCell.call qcode 1 0 c).

(** An objective on a monitor of the given normal axis, registered and, when
    [evaluate] is set, evaluated, before the adjoint source is requested. *)
Definition adjoint_run (normal_axis : Z) (cscale : Qc) (fwd evaluate : bool)
    (k : option Vector3) (dJ : ArrayLike) : result EigenModeSource :=
  let vol := mkVolume v3_zero (V3 0%Qc (Qc_of_Z 2) 0%Qc) in
  let o := EigenmodeCoefficient.init (demo_sim normal_axis cscale 3 2) vol 1 fwd k [] in
  let '(_, o) := EigenmodeCoefficient.register_monitors 1%Qc 0%Qc 1 o in
  let o := if evaluate then snd (EigenmodeCoefficient.call o) else o in
  fst (EigenmodeCoefficient.place_adjoint_source dJ 1%Qc 1%Qc o).

(** Raw metadata in which the engine answered a snapped point on axis 0 and
    two points on axis 2 for a flat region [size = (0, 2, 0)] centred at the
    origin. *)
Definition snapped_metadata : list (ndarray Qc) :=
  [ array1 [half]; array1 [Qc_of_Z (-1); 1%Qc]; array1 [0%Qc; 1%Qc];
    mkArr [1%nat; 2%nat; 2%nat] [1%Qc; 1%Qc; 1%Qc; 1%Qc] ].

(** ** Definitions used to state the properties *)

(** What one turn of the loop of [fix_array_metadata] leaves on the axis it
    visits. *)
Definition fixed_axis (sd cd : Qc) (a : ndarray Qc) : ndarray Qc :=
  match nd_data a with
  | x0 :: _ => if Qc_eqb sd 0%Qc && negb (Qc_eqb x0 cd) then array1 [cd] else a
  | [] => a
  end.

(** The four tangential slices of a flux cell, in its component order. *)
Record Tangential : Type := mkTangential {
  E_t1 : list C;
  E_t2 : list C;
  H_t1 : list C;
  H_t2 : list C
}.

(** The mode-overlap coefficient in the words of the specification:
    [(eH + sign*hE)/4] with
    [eH = sum weight*(conj(e_t1)*H_t2 - conj(e_t2)*H_t1)] and
    [hE = sum weight*(conj(h_t2)*E_t1 - conj(h_t1)*E_t2)]. *)
Definition conj_times (a b : list C) : list C :=
  zip_with (fun x y => Cmul (Cconj x) y) a b.

Definition weighted_sum (w f : list C) : C := C_sum (zip_with Cmul w f).

Definition eH_spec (w : list C) (e F : Tangential) : C :=
  weighted_sum w (zip_with Csub (conj_times (E_t1 e) (H_t2 F))
                                (conj_times (E_t2 e) (H_t1 F))).

Definition hE_spec (w : list C) (e F : Tangential) : C :=
  weighted_sum w (zip_with Csub (conj_times (H_t2 e) (E_t1 F))
                                (conj_times (H_t1 e) (E_t2 F))).

Definition coefficient_spec (sign : C) (w : list C) (e F : Tangential) : C :=
  Cdiv (Cadd (eH_spec w e F) (Cmul sign (hE_spec w e F))) (C_of_Z 4).

(** The sign the specification gives to a quantity code: [+1] for the forward
    codes P, F, p, f and [-1] for the backward codes. *)
Definition sign_spec (qcode : string) : C :=
  if str_in_list (upper qcode) ["P"; "F"] then C_of_Z 1 else C_of_Z (-1).

(** The slices a quantity is computed from: the live ones, less the saved
    incident ones when the code is lowercase. *)
Definition call_fields (qcode : string) (nf : Z) (c : DFTCell.t)
  : result (list (list C)) :=
  EH ← DFTCell.get_EH_slices c None nf;
  if islower qcode then DFTCell.subtract_incident_fields c EH nf else Ok EH.

(** Weights and slices of the driver scenario: the eigenmode, the total
    field and the scattered field (total less incident). *)
Definition demo_weights : list C := [Cone; Cone].
Definition demo_eigen : Tangential :=
  mkTangential [Cone; Cone] [Czero; Czero] [Czero; Czero] [Cone; Cone].
Definition demo_total : Tangential :=
  mkTangential [C_of_Z 3; C_of_Z 3] [Czero; Czero] [Czero; Czero] [C_of_Z 2; C_of_Z 2].
Definition demo_scattered : Tangential :=
  mkTangential [C_of_Z 2; C_of_Z 2] [Czero; Czero] [Czero; Czero] [C_of_Z 2; C_of_Z 2].

(** The component-wise difference of two slice sets. *)
Definition slices_sub (EHT EHI : list (list C)) : list (list C) :=
  zip_with (zip_with Csub) EHT EHI.

(** Operations of a driver on a cell, and the cell they leave. *)
Inductive CellOp : Type :=
| OpRegister (s : Simulation)
| OpSave (label : string)
| OpEigenmode (mode nf : Z)
| OpCall (qcode : string) (mode nf : Z).

Definition cell_step (c : DFTCell.t) (op : CellOp) : DFTCell.t :=
  match op with
  | OpRegister s => snd (DFTCell.register s c)
  | OpSave label => snd (DFTCell.save_fields label c)
  | OpEigenmode mode nf => snd (DFTCell.get_eigenmode_slices mode nf c)
  | OpCall qcode mode nf => snd (DFTCell.call qcode mode nf c)
  end.

Definition cell_run (ops : list CellOp) (c : DFTCell.t) : DFTCell.t :=
  fold_left cell_step ops c.

Fixpoint saved_labels (ops : list CellOp) : list string :=
  match ops with
  | [] => []
  | OpSave label :: ops' => label :: saved_labels ops'
  | _ :: ops' => saved_labels ops'
  end.

(** The per-frequency scale [da_dE * dJ * i * 2 * pi * f / FT]. *)
Definition scale_formula (da_dE : Qc) (dJ : C) (f : Qc) (FT : C) : C :=
  Cdiv (Cmul (Cmul (Cmul (Cmul (Cmul (C_of_Qc da_dE) dJ) Cj) (C_of_Z 2))
                   (C_of_Qc np_pi))
             (C_of_Qc f))
       FT.

(** The scale in the words of the specification: [da_dE = 0.5 / resolution^2]. *)
Definition scale_spec (res : Qc) (dJ : C) (f : Qc) (FT : C) : C :=
  scale_formula (half / (res * res))%Qc dJ f FT.

(** The scale with the coefficient scaling of the monitor in [da_dE]:
    [da_dE = 0.5 * cscale / resolution^2]. *)
Definition scale_with_cscale (res cscale : Qc) (dJ : C) (f : Qc) (FT : C) : C :=
  scale_formula (half * cscale / (res * res))%Qc dJ f FT.

(** An objective after registration on a monitor and one evaluation. *)
Definition evaluated_objective (normal_axis : Z) (cscale : Qc) (fwd : bool)
  : EigenmodeCoefficient.t :=
  let vol := mkVolume v3_zero (V3 0%Qc (Qc_of_Z 2) 0%Qc) in
  let o := EigenmodeCoefficient.init (demo_sim normal_axis cscale 3 2) vol 1 fwd None [] in
  let '(_, o) := EigenmodeCoefficient.register_monitors 1%Qc 0%Qc 1 o in
  snd (EigenmodeCoefficient.call o).

(** ** dft_cell.py: [rescale_sources] *)

(** The temporal envelope [s.src] of a source, as [rescale_sources] reads it:
    the attribute [frequency], and the method [fourier_transform] when the
    envelope has one. *)
Record SrcEnvelope : Type := mkSrcEnvelope {
  env_frequency : option Qc;
  env_fourier_transform : option (Qc -> C)
}.

(** A source: its envelope and its amplitude, a Python number. *)
Record Source : Type := mkSource {
  src : SrcEnvelope;
  src_amplitude : C
}.

(** [x / y] for two Python numbers. *)
Definition py_div (x y : C) : result C :=
  if Ceqb y Czero then Raise ZeroDivisionError else Ok (Cdiv x y).

(** One turn of the loop [for s in sources]. *)
Definition rescale_source (s : Source) : result Source :=
  fcen ← attr "frequency" (env_frequency (src s));
  match env_fourier_transform (src s) with
  | Some ft => a ← py_div (src_amplitude s) (ft fcen); Ok (mkSource (src s) a)
  | None => Ok s
  end.

(** The rescaling is done in place: the list after the call, and the
    exception if one stopped the loop. *)
Fixpoint rescale_sources (sources : list Source) : result unit * list Source :=
  match sources with
  | [] => (Ok (), [])
  | s :: rest =>
      match rescale_source s with
      | Raise e => (Raise e, s :: rest)
      | Ok s' => let '(r, rest') := rescale_sources rest in (r, s' :: rest')
      end
  end.

(** A source that [rescale_sources] can handle: its envelope has a
    frequency, and a Fourier transform, if any, that does not vanish there. *)
Definition rescalable (s : Source) : Prop :=
  exists fc, env_frequency (src s) = Some fc /\
             forall ft, env_fourier_transform (src s) = Some ft -> ft fc <> Czero.

(** A Gaussian-like envelope whose transform at its own frequency is [2],
    and one without a transform. *)
Definition pulsed_source : Source :=
  mkSource (mkSrcEnvelope (Some 1%Qc) (Some (fun _ => C_of_Z 2))) (C_of_Z 6).
Definition plain_source : Source :=
  mkSource (mkSrcEnvelope (Some 1%Qc) None) (C_of_Z 6).
Definition silent_source : Source :=
  mkSource (mkSrcEnvelope (Some 1%Qc) (Some (fun _ => Czero))) (C_of_Z 6).

(** The points of a lattice, the last axis running fastest. *)
Definition lattice (xs ys zs : list Qc) : list (list Qc) :=
  flat_map (fun a => flat_map (fun b => map (fun c => [a; b; c]) zs) ys) xs.

(** ** dft_cell.py: the default components of a flux cell *)

(** The field components along axis [d], counted cyclically. *)
Definition E_axis (d : Z) : Component :=
  match d mod 3 with 0 => Ex | 1 => Ey | _ => Ez end.
Definition H_axis (d : Z) : Component :=
  match d mod 3 with 0 => Hx | 1 => Hy | _ => Hz end.

(** The tangential components for normal axis [n], in right-handed order:
    the two electric ones, then the two magnetic ones. *)
Definition transverse_pair (n : Z) : list Component :=
  [E_axis (n + 1); E_axis (n + 2); H_axis (n + 1); H_axis (n + 2)].

(** * Properties *)

(** ** Basic facts *)

Lemma Qc_eqb_eq (a b : Qc) : Qc_eqb a b = true <-> a = b.
Proof.
  unfold Qc_eqb. rewrite Qeq_bool_iff. split.
  - apply Qc_is_canon.
  - intros ->. reflexivity.
Qed.

Lemma Qc_eqb_refl (a : Qc) : Qc_eqb a a = true.
Proof. apply Qc_eqb_eq. reflexivity. Qed.

Lemma Qc_eqb_neq (a b : Qc) : Qc_eqb a b = false <-> a <> b.
Proof.
  split.
  - intros H E. apply Qc_eqb_eq in E. congruence.
  - intros H. destruct (Qc_eqb a b) eqn:E; [|reflexivity].
    apply Qc_eqb_eq in E. contradiction.
Qed.

Lemma getitem_lookup {A} (l : list A) (n : nat) (a : A) :
  l !! n = Some a -> getitem l (Z.of_nat n) = Ok a.
Proof.
  intros H. pose proof (lookup_lt_Some _ _ _ H) as Hlt.
  unfold getitem.
  replace (0 <=? Z.of_nat n) with true by (symmetry; apply Z.leb_le; lia).
  replace (Z.of_nat n <? Z.of_nat (length l)) with true by (symmetry; apply Z.ltb_lt; lia).
  simpl. rewrite Nat2Z.id, H. reflexivity.
Qed.

Lemma setitem_insert {A} (l : list A) (n : nat) (v : A) :
  (n < length l)%nat -> setitem l (Z.of_nat n) v = Ok (<[n := v]> l).
Proof.
  intros Hlt. unfold setitem.
  replace (0 <=? Z.of_nat n) with true by (symmetry; apply Z.leb_le; lia).
  replace (Z.of_nat n <? Z.of_nat (length l)) with true by (symmetry; apply Z.ltb_lt; lia).
  simpl. rewrite Nat2Z.id. reflexivity.
Qed.

Lemma Ceqb_eq (a b : C) : Ceqb a b = true <-> a = b.
Proof.
  destruct a as [ar ai], b as [br bi]. unfold Ceqb. simpl.
  rewrite andb_true_iff, !Qc_eqb_eq. split.
  - intros [-> ->]. reflexivity.
  - intros H. injection H as -> ->. split; reflexivity.
Qed.

Lemma V3_eqb_eq (a b : Vector3) : V3_eqb a b = true <-> a = b.
Proof.
  destruct a as [ax ay az], b as [bx by_ bz]. unfold V3_eqb. simpl.
  rewrite !andb_true_iff, !Qc_eqb_eq. split.
  - intros [[-> ->] ->]. reflexivity.
  - intros H. injection H as -> -> ->. repeat split; reflexivity.
Qed.

Lemma PyVal_eqb_eq (a b : PyVal) : PyVal_eqb a b = true -> a = b.
Proof.
  destruct a, b; simpl; try discriminate; intros H.
  - reflexivity.
  - apply Qc_eqb_eq in H. congruence.
  - apply Ceqb_eq in H. congruence.
Qed.

Lemma option_V3_eqb_eq (a b : option Vector3) : option_eqb V3_eqb a b = true -> a = b.
Proof.
  destruct a, b; simpl; try discriminate; intros H.
  - apply V3_eqb_eq in H. congruence.
  - reflexivity.
Qed.

Lemma Ok_PyVal_eq (r : result PyVal) (v : PyVal) :
  match r with Ok a => PyVal_eqb a v | Raise _ => false end = true -> r = Ok v.
Proof.
  destruct r; [|discriminate]. intros H. apply PyVal_eqb_eq in H. congruence.
Qed.

(** ** [fix_array_metadata] *)

Lemma fix_axis_step (center size : list Qc) (xyzw : list (ndarray Qc)) (d : nat)
    (sd cd : Qc) (a : ndarray Qc) :
  size !! d = Some sd -> center !! d = Some cd -> xyzw !! d = Some a ->
  (sd = 0%Qc -> nd_data a <> []) ->
  fix_axis center size xyzw (Z.of_nat d) = Ok (<[d := fixed_axis sd cd a]> xyzw).
Proof.
  intros Hs Hc Hx Hne.
  pose proof (lookup_lt_Some _ _ _ Hx) as Hlt.
  unfold fix_axis, fixed_axis.
  rewrite (getitem_lookup _ _ _ Hs). simpl.
  destruct (Qc_eqb sd 0%Qc) eqn:E; simpl.
  - rewrite (getitem_lookup _ _ _ Hx). simpl.
    apply Qc_eqb_eq in E. specialize (Hne E).
    destruct (nd_data a) as [|x0 rest] eqn:Ed; [contradiction|].
    change 0 with (Z.of_nat 0).
    rewrite (getitem_lookup (x0 :: rest) 0%nat x0 eq_refl). simpl.
    rewrite (getitem_lookup _ _ _ Hc). simpl.
    destruct (Qc_eqb x0 cd); simpl.
    + apply setitem_insert, Hlt.
    + apply setitem_insert, Hlt.
  - rewrite (getitem_lookup _ _ _ Hx). simpl.
    rewrite setitem_insert by exact Hlt.
    destruct (nd_data a); reflexivity.
Qed.

(** C4, as the code has it.  For well-formed arguments (three axes present,
    and a non-empty coordinate array on each axis of zero size)
    [fix_array_metadata] returns, and on every axis [d] with [size[d] == 0]
    it leaves the one-element array [[center[d]]] when the first raw
    coordinate differs from [center[d]], and the raw array, unchanged, when
    the first raw coordinate equals [center[d]]. *)
Theorem fix_array_metadata_degenerate_axis :
  forall (xyzw : list (ndarray Qc)) (center size : list Qc),
    (3 <= length xyzw)%nat -> (3 <= length center)%nat -> (3 <= length size)%nat ->
    (forall d a, (d < 3)%nat -> size !! d = Some 0%Qc -> xyzw !! d = Some a ->
                 nd_data a <> []) ->
    exists xyzw',
      fix_array_metadata xyzw center size = Ok xyzw' /\
      forall d a x0 cd,
        (d < 3)%nat -> size !! d = Some 0%Qc -> xyzw !! d = Some a ->
        nd_data a !! 0%nat = Some x0 -> center !! d = Some cd ->
        xyzw' !! d = Some (if Qc_eqb x0 cd then a else array1 [cd]).
Proof.
  intros xyzw center size Hx Hc Hs Hne.
  destruct xyzw as [|a0 [|a1 [|a2 rest]]]; simpl in Hx; try lia.
  destruct center as [|c0 [|c1 [|c2 crest]]]; simpl in Hc; try lia.
  destruct size as [|s0 [|s1 [|s2 srest]]]; simpl in Hs; try lia.
  set (center := c0 :: c1 :: c2 :: crest).
  set (size := s0 :: s1 :: s2 :: srest).
  assert (H0 : s0 = 0%Qc -> nd_data a0 <> []).
  { intros ->. apply (Hne 0%nat); [lia|reflexivity|reflexivity]. }
  assert (H1 : s1 = 0%Qc -> nd_data a1 <> []).
  { intros ->. apply (Hne 1%nat); [lia|reflexivity|reflexivity]. }
  assert (H2 : s2 = 0%Qc -> nd_data a2 <> []).
  { intros ->. apply (Hne 2%nat); [lia|reflexivity|reflexivity]. }
  eexists. split.
  - unfold fix_array_metadata, for_axes.
    change 0 with (Z.of_nat 0). change 1 with (Z.of_nat 1). change 2 with (Z.of_nat 2).
    rewrite (fix_axis_step center size (a0 :: a1 :: a2 :: rest) 0 s0 c0 a0)
      by (reflexivity || assumption).
    cbn [mbind result_bind].
    rewrite (fix_axis_step center size
               (<[0%nat := fixed_axis s0 c0 a0]> (a0 :: a1 :: a2 :: rest)) 1 s1 c1 a1)
      by (reflexivity || assumption).
    cbn [mbind result_bind].
    rewrite (fix_axis_step center size
               (<[1%nat := fixed_axis s1 c1 a1]>
                  (<[0%nat := fixed_axis s0 c0 a0]> (a0 :: a1 :: a2 :: rest))) 2 s2 c2 a2)
      by (reflexivity || assumption).
    reflexivity.
  - intros d a x0 cd Hd Hsd Hxd Hx0 Hcd.
    destruct d as [|[|[|d]]]; [| | |lia]; simpl in *;
      injection Hsd as ->; injection Hxd as ->; injection Hcd as ->;
      unfold fixed_axis; destruct (nd_data a) as [|y ys]; try discriminate;
      injection Hx0 as ->; rewrite Qc_eqb_refl; simpl;
      destruct (Qc_eqb x0 cd); reflexivity.
Qed.

(** C4 fails as stated: on an axis of zero size whose first raw coordinate
    already equals the centre, a raw array of two points is kept. *)
Lemma fix_array_metadata_keeps_matching_axis :
  ~ (forall (xyzw xyzw' : list (ndarray Qc)) (center size : list Qc) (d : nat) (cd : Qc),
        fix_array_metadata xyzw center size = Ok xyzw' ->
        (d < 3)%nat -> size !! d = Some 0%Qc -> center !! d = Some cd ->
        xyzw' !! d = Some (array1 [cd])).
Proof.
  intros H.
  destruct (fix_array_metadata snapped_metadata ORIGIN [0%Qc; Qc_of_Z 2; 0%Qc])
    as [xyzw'|e] eqn:E; [|vm_compute in E; discriminate].
  specialize (H _ _ _ _ 2%nat 0%Qc E ltac:(lia) eq_refl eq_refl).
  vm_compute in E. injection E as <-. vm_compute in H. discriminate.
Qed.

Lemma fix_array_metadata_degenerate_axis_witness :
  exists xyzw',
    fix_array_metadata snapped_metadata ORIGIN [0%Qc; Qc_of_Z 2; 0%Qc] = Ok xyzw' /\
    forall d a x0 cd,
      (d < 3)%nat -> [0%Qc; Qc_of_Z 2; 0%Qc] !! d = Some 0%Qc ->
      snapped_metadata !! d = Some a ->
      nd_data a !! 0%nat = Some x0 -> ORIGIN !! d = Some cd ->
      xyzw' !! d = Some (if Qc_eqb x0 cd then a else array1 [cd]).
Proof.
  apply fix_array_metadata_degenerate_axis.
  - simpl. lia.
  - simpl. lia.
  - simpl. lia.
  - intros d a Hd Hs Ha.
    destruct d as [|[|[|d]]]; simpl in Ha; try lia;
      injection Ha as <-; discriminate.
Defined.

(** ** [make_grid] *)

(** C3 at the flat region [size = (0, 2, 0)] centred at the origin: the call
    raises [IndexError] and returns no grid. *)
Theorem make_grid_line_raises_IndexError :
  make_grid [0%Qc; Qc_of_Z 2; 0%Qc] ORIGIN None None = Raise IndexError.
Proof. vm_compute. reflexivity. Qed.

Ltac qc_eq :=
  repeat first [ reflexivity | apply Qc_is_canon; vm_compute; reflexivity | f_equal ].

(** Other regions with an axis of zero size: the third coordinate is the
    constant 0 whatever the centre is, and an extent that follows a zero
    entry is dropped from the volume. *)
Lemma make_grid_ignores_center_z :
  exists g, make_grid [Qc_of_Z 2; Qc_of_Z 3; 0%Qc] [0%Qc; 0%Qc; Qc_of_Z 5] None None = Ok g /\
            ztics g = [0%Qc].
Proof. eexists. split; [vm_compute; reflexivity|]. qc_eq. Qed.

Lemma make_grid_drops_trailing_extent :
  exists g, make_grid [Qc_of_Z 2; 0%Qc; Qc_of_Z 3] ORIGIN None None = Ok g /\
            Qc_sum (weights g) = Qc_of_Z 2.
Proof. eexists. split; [vm_compute; reflexivity|]. qc_eq. Qed.

Lemma Qc_ltb_lt (a b : Qc) : Qc_ltb a b = true <-> (a < b)%Qc.
Proof.
  unfold Qc_ltb, Qclt. rewrite negb_true_iff. split.
  - intros H. apply Qnot_le_lt. intros Hle. apply Qle_bool_iff in Hle. congruence.
  - intros H. destruct (Qle_bool b a) eqn:E; [|reflexivity].
    apply Qle_bool_iff in E. exfalso. exact (Qlt_not_le _ _ H E).
Qed.

Lemma Qc_of_Z_succ (n : nat) : Qc_of_Z (Z.of_nat (S n)) = (1 + Qc_of_Z (Z.of_nat n))%Qc.
Proof.
  rewrite Nat2Z.inj_succ. unfold Z.succ, Qc_of_Z.
  apply Qc_is_canon. cbn [this Q2Qc Qcplus].
  rewrite !Qred_correct. rewrite inject_Z_plus. apply Qplus_comm.
Qed.

Lemma Qc_sum_replicate (n : nat) (x : Qc) :
  Qc_sum (replicate n x) = (Qc_of_Z (Z.of_nat n) * x)%Qc.
Proof.
  induction n as [|n IH].
  - change (Qc_of_Z (Z.of_nat 0)) with 0%Qc. unfold Qc_sum. cbn [replicate fold_right]. ring.
  - rewrite Qc_of_Z_succ. unfold Qc_sum in *. cbn [replicate fold_right]. rewrite IH. ring.
Qed.

Lemma Qc_of_Z_nonzero (z : Z) : z <> 0 -> Qc_of_Z z <> 0%Qc.
Proof.
  intros Hz H. unfold Qc_of_Z in H.
  apply (f_equal this) in H. simpl in H.
  assert (E : Qred (inject_Z z) == 0) by (rewrite H; reflexivity).
  rewrite Qred_correct in E. unfold Qeq in E. simpl in E. lia.
Qed.

(** Where the property of C3 does hold: a region in the plane [z = 0] with
    two positive extents and default discretisation. *)
Lemma make_grid_in_plane (sx sy cx cy : Qc) :
  (0 < sx)%Qc -> (0 < sy)%Qc ->
  exists g,
    make_grid [sx; sy; 0%Qc] [cx; cy; 0%Qc] None None = Ok g /\
    ztics g = [0%Qc] /\
    length (xtics g) = 10%nat /\ length (ytics g) = 10%nat /\
    Qc_sum (weights g) = (sx * sy)%Qc.
Proof.
  intros Hx Hy.
  assert (Ex : Qc_eqb sx 0%Qc = false).
  { apply Qc_eqb_neq. intros ->. exact (Qclt_not_eq _ _ Hx eq_refl). }
  assert (Ey : Qc_eqb sy 0%Qc = false).
  { apply Qc_eqb_neq. intros ->. exact (Qclt_not_eq _ _ Hy eq_refl). }
  apply Qc_ltb_lt in Hx, Hy.
  assert (Hnz : flatnonzero [sx; sy; 0%Qc] = [0%nat; 1%nat]).
  { unfold flatnonzero. cbn -[Qc_eqb]. rewrite Ex, Ey. reflexivity. }
  unfold make_grid. rewrite Hnz.
  cbn [length slice_to firstn map List.filter]. rewrite Hx, Hy.
  eexists. split.
  - cbv -[Qcplus Qcminus Qcmult Qcdiv Qcopp Qcinv Q2Qc Qc_of_Z half]. reflexivity.
  - cbn [ztics xtics ytics weights length].
    repeat split; try reflexivity.
    change (Qc_sum (replicate 100 (sx * (sy * 1) / Qc_of_Z 100)%Qc) = (sx * sy)%Qc).
    rewrite Qc_sum_replicate.
    change (Z.of_nat 100) with 100.
    pose proof (Qc_of_Z_nonzero 100 ltac:(lia)) as Hnz100.
    field. exact Hnz100.
Qed.

Lemma linspace_default_nonempty (a b : Qc) (s : Qc) :
  exists x l, linspace a b (if Qc_ltb 0%Qc s then 10 else 1) = Ok (x :: l).
Proof.
  destruct (Qc_ltb 0%Qc s).
  - unfold linspace. cbn -[Qcplus Qcmult Qcdiv Qcminus Qc_of_Z]. eauto.
  - unfold linspace. cbn. eauto.
Qed.

(** With the default discretisation, a region with fewer than two non-zero
    extents (a point, or a line along any axis) gets no grid: the call
    raises [IndexError]. *)
Lemma make_grid_needs_two_extents (size center : list Qc) :
  (length (flatnonzero size) <= 1)%nat ->
  make_grid size center None None = Raise IndexError.
Proof.
  intros Hnd. unfold make_grid.
  destruct (length (flatnonzero size)) as [|[|n]] eqn:En; [| |lia].
  - reflexivity.
  - destruct size as [|s size'].
    + discriminate En.
    + destruct center as [|c center'].
      * reflexivity.
      * cbn -[linspace Qc_ltb Qcplus Qcminus Qcmult half Qc_of_Z].
        rewrite !take_0.
        cbn -[linspace Qc_ltb Qcplus Qcminus Qcmult half Qc_of_Z].
        destruct (linspace_default_nonempty (c - half * s)%Qc (c + half * s)%Qc s)
          as (x & l & ->).
        reflexivity.
Qed.

(** ** [Subregion] *)

Lemma Qc_of_Z_minus_one (x : Qc) : (Qc_of_Z (-1) * x)%Qc = (- x)%Qc.
Proof.
  assert (H : Qc_of_Z (-1) = (- (1))%Qc) by (apply Qc_is_canon; reflexivity).
  rewrite H. ring.
Qed.

Lemma Qc_of_Z_one (x : Qc) : (Qc_of_Z 1 * x)%Qc = x.
Proof.
  assert (H : Qc_of_Z 1 = 1%Qc) by (apply Qc_is_canon; reflexivity).
  rewrite H. ring.
Qed.

Lemma demo_region_init :
  Subregion_init 1%Qc 0%Qc 1 None None v3_zero (Some (V3 0%Qc (Qc_of_Z 2) 0%Qc))
    (Some 0) None None = Ok demo_region.
Proof. reflexivity. Qed.

(** The corner form: the call of [v3] raises [NameError], whatever else is
    passed. *)
Lemma Subregion_from_corners fcen df nfreq lo hi center size normal dir name :
  Subregion_init fcen df nfreq (Some lo) (Some hi) center size normal dir name =
  Raise (NameError "v3").
Proof. reflexivity. Qed.

(** The (center, size) form: the corners are [center - size] and
    [center + size], a whole [size] away from the centre on each side. *)
Lemma Subregion_from_center_size fcen df nfreq xmin xmax center size normal dir name :
  xmin = None \/ xmax = None ->
  exists r,
    Subregion_init fcen df nfreq xmin xmax center (Some size) normal dir name = Ok r /\
    sr_center r = Some center /\ sr_size r = Some size /\
    sr_xmin r = Some (v3_sub center size) /\
    sr_xmax r = Some (v3_add center size).
Proof.
  intros Hx. eexists. split.
  - unfold Subregion_init. destruct Hx as [-> | ->]; [|destruct xmin]; reflexivity.
  - destruct center as [cx cy cz], size as [sx sy sz].
    repeat split; cbv [sr_center sr_size sr_xmin sr_xmax];
      unfold v3_add, v3_sub, v3_scale; cbn [vx vy vz];
      rewrite ?Qc_of_Z_minus_one, ?Qc_of_Z_one; reflexivity.
Qed.

(** C5 at [center = (0,0,0)], [size = (2,2,2)]: the derived corners are
    [(-2,-2,-2)] and [(2,2,2)], not [center -/+ size/2 = -/+(1,1,1)]; and
    the region cannot be rebuilt from its corners, because the corner form
    raises [NameError]. *)
Theorem Subregion_corners_are_a_full_size_away :
  let two := Qc_of_Z 2 in
  exists r,
    Subregion_init 1%Qc 0%Qc 1 None None v3_zero (Some (V3 two two two))
      None None None = Ok r /\
    sr_center r = Some v3_zero /\
    sr_size r = Some (V3 two two two) /\
    sr_xmin r = Some (V3 (Qc_of_Z (-2)) (Qc_of_Z (-2)) (Qc_of_Z (-2))) /\
    sr_xmax r = Some (V3 two two two) /\
    sr_xmin r <> Some (v3_sub v3_zero (v3_scale half (V3 two two two))) /\
    sr_xmax r <> Some (v3_add v3_zero (v3_scale half (V3 two two two))) /\
    Subregion_init 1%Qc 0%Qc 1 (sr_xmin r) (sr_xmax r) v3_zero None None None None =
      Raise (NameError "v3").
Proof.
  intro two. eexists. split; [reflexivity|].
  repeat split; try (apply option_V3_eqb_eq; vm_compute; reflexivity).
  - intros H. apply (f_equal (option_eqb V3_eqb
        (Some (V3 (Qc_of_Z (-2)) (Qc_of_Z (-2)) (Qc_of_Z (-2)))))) in H.
    vm_compute in H. discriminate H.
  - intros H. apply (f_equal (option_eqb V3_eqb (Some (V3 two two two)))) in H.
    vm_compute in H. discriminate H.
Qed.

(** ** [DFTCell]: saved fields *)

Lemma mapM_lookup {A B} (f : A -> result B) (l : list A) (ys : list B) :
  mapM f l = Ok ys ->
  forall i a, l !! i = Some a -> exists y, ys !! i = Some y /\ f a = Ok y.
Proof.
  revert ys. induction l as [|x l IH]; intros ys H i a Hi.
  - destruct i; discriminate.
  - cbn [mapM] in H.
    destruct (f x) as [y|e] eqn:Ex; cbn [mbind result_bind] in H; [|discriminate].
    destruct (mapM f l) as [ys'|e] eqn:El; cbn [mbind result_bind] in H; [|discriminate].
    injection H as <-.
    destruct i as [|i].
    + injection Hi as <-. exists y. split; [reflexivity|assumption].
    + exact (IH ys' eq_refl i a Hi).
Qed.

Lemma range_lookup (n i : nat) :
  (i < n)%nat -> DFTCell.range n !! i = Some (Z.of_nat i).
Proof.
  intros H. unfold DFTCell.range.
  change (map Z.of_nat (seq 0 n)) with (Z.of_nat <$> seq 0 n).
  rewrite list_lookup_fmap, lookup_seq_lt by exact H. reflexivity.
Qed.

Lemma get_eigenmode_slices_frame (mode nf : Z) (c : DFTCell.t) :
  let c' := snd (DFTCell.get_eigenmode_slices mode nf c) in
  DFTCell.name c' = DFTCell.name c /\
  DFTCell.freqs c' = DFTCell.freqs c /\
  DFTCell.EH_cache c' = DFTCell.EH_cache c.
Proof.
  unfold DFTCell.get_eigenmode_slices. repeat case_match; cbn; auto.
Qed.

Lemma call_frame (qcode : string) (mode nf : Z) (c : DFTCell.t) :
  let c' := snd (DFTCell.call qcode mode nf c) in
  DFTCell.name c' = DFTCell.name c /\
  DFTCell.freqs c' = DFTCell.freqs c /\
  DFTCell.EH_cache c' = DFTCell.EH_cache c.
Proof.
  pose proof (get_eigenmode_slices_frame mode nf c) as He.
  unfold DFTCell.call.
  destruct (DFTCell.get_eigenmode_slices mode nf c) as [[eh|e] c1].
  all: repeat case_match; cbn in *; auto.
Qed.

(** What an operation on a cell leaves untouched: the name, the frequencies
    and every saved label other than the one a [save_fields] writes. *)
Lemma cell_step_frame (c : DFTCell.t) (op : CellOp) (l : string) :
  ~ In l (saved_labels [op]) ->
  DFTCell.name (cell_step c op) = DFTCell.name c /\
  DFTCell.freqs (cell_step c op) = DFTCell.freqs c /\
  DFTCell.EH_cache (cell_step c op) !! l = DFTCell.EH_cache c !! l.
Proof.
  intros Hl. destruct op as [s|label|mode nf|qcode mode nf]; cbn [cell_step].
  - unfold DFTCell.register. repeat case_match; cbn; auto.
  - unfold DFTCell.save_fields. case_match; cbn; [|auto].
    repeat split. apply lookup_insert_ne. intros ->. apply Hl. left. reflexivity.
  - destruct (get_eigenmode_slices_frame mode nf c) as (-> & -> & ->). auto.
  - destruct (call_frame qcode mode nf c) as (-> & -> & ->). auto.
Qed.

Lemma cell_run_frame (ops : list CellOp) (c : DFTCell.t) (l : string) :
  ~ In l (saved_labels ops) ->
  DFTCell.name (cell_run ops c) = DFTCell.name c /\
  DFTCell.freqs (cell_run ops c) = DFTCell.freqs c /\
  DFTCell.EH_cache (cell_run ops c) !! l = DFTCell.EH_cache c !! l.
Proof.
  revert c. induction ops as [|op ops IH]; intros c Hl; [auto|].
  cbn [cell_run fold_left].
  assert (H1 : ~ In l (saved_labels [op])).
  { intros H. apply Hl. destruct op; cbn in *; tauto. }
  assert (H2 : ~ In l (saved_labels ops)).
  { intros H. apply Hl. destruct op; cbn; tauto. }
  destruct (cell_step_frame c op l H1) as (En & Ef & Ec).
  destruct (IH (cell_step c op) H2) as (En' & Ef' & Ec').
  unfold cell_run in *. rewrite En', Ef', Ec'. auto.
Qed.

Lemma init_cache_empty names rgn cpts c names' :
  DFTCell.init names rgn cpts = Ok (c, names') -> DFTCell.EH_cache c = ∅.
Proof.
  unfold DFTCell.init. intros H.
  repeat (match type of H with
          | (?m ≫= _) = _ => destruct m eqn:?; cbn [mbind result_bind] in H
          end; try discriminate).
  injection H as <- _. reflexivity.
Qed.

(** A label that no [save_fields] was given is unknown to the cell. *)
Lemma unknown_label_fails names rgn cpts c0 names' ops label nf :
  DFTCell.init names rgn cpts = Ok (c0, names') ->
  ~ In label (saved_labels ops) ->
  DFTCell.get_EH_slices (cell_run ops c0) (Some label) nf =
  Raise (ValueError (DFTCell.no_saved_data (DFTCell.name (cell_run ops c0)) label)).
Proof.
  intros Hinit Hl.
  destruct (cell_run_frame ops c0 label Hl) as (_ & _ & Ec).
  unfold DFTCell.get_EH_slices. rewrite Ec, (init_cache_empty _ _ _ _ _ Hinit).
  rewrite lookup_empty. reflexivity.
Qed.

(** The slices saved under a label are the live ones of the moment of the
    save, whatever the cell is registered with afterwards. *)
Lemma saved_label_returns_snapshot c x c1 ops nf :
  DFTCell.save_fields x c = (Ok (), c1) ->
  ~ In x (saved_labels ops) ->
  0 <= nf < Z.of_nat (length (DFTCell.freqs c)) ->
  exists EH,
    DFTCell.get_EH_slices c None nf = Ok EH /\
    DFTCell.get_EH_slices (cell_run ops c1) (Some x) nf = Ok EH.
Proof.
  intros Hsave Hx Hnf.
  unfold DFTCell.save_fields in Hsave.
  destruct (mapM _ _) as [slices|e] eqn:Em; [|discriminate].
  injection Hsave as <-.
  assert (Hi : DFTCell.range (length (DFTCell.freqs c)) !! Z.to_nat nf = Some nf).
  { rewrite range_lookup by lia. f_equal. lia. }
  destruct (mapM_lookup _ _ _ Em _ _ Hi) as (EH & Hs & Hget).
  exists EH. split; [exact Hget|].
  destruct (cell_run_frame ops
              (DFTCell.set_EH_cache (<[x:=slices]> (DFTCell.EH_cache c)) c) x Hx)
    as (_ & _ & Ec).
  unfold DFTCell.get_EH_slices at 1. rewrite Ec. cbn [DFTCell.set_EH_cache DFTCell.EH_cache].
  rewrite lookup_insert_eq.
  replace nf with (Z.of_nat (Z.to_nat nf)) by lia.
  apply getitem_lookup. exact Hs.
Qed.

(** C8.  A label never given to [save_fields] makes [get_EH_slices] raise the
    ValueError that names the cell and the label; and after a successful
    [save_fields(x)], [get_EH_slices(label=x, nf)] returns, at every
    frequency index of the cell, the slices that were live at the save,
    whatever simulation the cell is registered with later. *)
Theorem saved_fields_lookup :
  (forall names rgn cpts c0 names' ops label nf,
      DFTCell.init names rgn cpts = Ok (c0, names') ->
      ~ In label (saved_labels ops) ->
      DFTCell.get_EH_slices (cell_run ops c0) (Some label) nf =
      Raise (ValueError (DFTCell.no_saved_data (DFTCell.name (cell_run ops c0)) label))) /\
  (forall c x c1 ops nf,
      DFTCell.save_fields x c = (Ok (), c1) ->
      ~ In x (saved_labels ops) ->
      0 <= nf < Z.of_nat (length (DFTCell.freqs c)) ->
      exists EH,
        DFTCell.get_EH_slices c None nf = Ok EH /\
        DFTCell.get_EH_slices (cell_run ops c1) (Some x) nf = Ok EH).
Proof.
  split.
  - exact unknown_label_fails.
  - exact saved_label_returns_snapshot.
Qed.

Lemma demo_cell_init : DFTCell.init [] demo_region None = Ok (demo_cell, ["flux_0"]).
Proof. reflexivity. Qed.

Lemma saved_fields_lookup_witness :
  let after_incident := cell_run [OpRegister incident_sim] demo_cell in
  let saved := snd (DFTCell.save_fields "incident" after_incident) in
  let later := cell_run [OpRegister total_sim] saved in
  DFTCell.get_EH_slices later (Some "total") 0 =
    Raise (ValueError (DFTCell.no_saved_data (DFTCell.name later) "total")) /\
  exists EH,
    DFTCell.get_EH_slices after_incident None 0 = Ok EH /\
    DFTCell.get_EH_slices later (Some "incident") 0 = Ok EH.
Proof.
  split.
  - apply (proj1 saved_fields_lookup [] demo_region None demo_cell ["flux_0"]
             [OpRegister incident_sim; OpSave "incident"; OpRegister total_sim]
             "total" 0).
    + reflexivity.
    + simpl. intuition discriminate.
  - apply (proj2 saved_fields_lookup
             (cell_run [OpRegister incident_sim] demo_cell) "incident"
             (snd (DFTCell.save_fields "incident"
                     (cell_run [OpRegister incident_sim] demo_cell)))
             [OpRegister total_sim] 0).
    + vm_compute. reflexivity.
    + simpl. tauto.
    + simpl. lia.
Defined.

(** ** [DFTCell]: quantity evaluation *)

(** [str_in] is the substring test of Python's [in] on strings. *)
Lemma has_prefix_spec (p s : string) :
  has_prefix p s = true <-> exists r, s = (p +:+ r)%string.
Proof.
  revert s. induction p as [|a p IH]; intros s.
  - split; [intros _; exists s; reflexivity | reflexivity].
  - destruct s as [|b s]; cbn [has_prefix].
    + split; [discriminate | intros [r Hr]; discriminate Hr].
    + rewrite andb_true_iff, Ascii.eqb_eq, IH. split.
      * intros [-> [r ->]]. exists r. reflexivity.
      * intros [r Hr]. injection Hr as -> ->. split; [reflexivity | exists r; reflexivity].
Qed.

Lemma str_in_substring (p s : string) :
  str_in p s = true <-> exists l r, s = (l +:+ p +:+ r)%string.
Proof.
  induction s as [|b s IH].
  - cbn [str_in]. rewrite orb_false_r, has_prefix_spec. split.
    + intros [r Hr]. exists EmptyString, r. exact Hr.
    + intros [l [r Hr]]. destruct l; [exists r; exact Hr | discriminate Hr].
  - cbn [str_in]. rewrite orb_true_iff, has_prefix_spec, IH. split.
    + intros [[r Hr] | [l [r Hr]]].
      * exists EmptyString, r. exact Hr.
      * exists (String b l), r. rewrite Hr. reflexivity.
    + intros [l [r Hr]]. destruct l as [|c l].
      * left. exists r. exact Hr.
      * right. injection Hr as -> ->. exists l, r. reflexivity.
Qed.

Lemma broadcast2_same_length {A B D} (f : A -> B -> D) (xs : list A) (ys : list B) :
  length xs = length ys -> broadcast2 f xs ys = Ok (zip_with f xs ys).
Proof.
  intros H. unfold broadcast2. rewrite H, Nat.eqb_refl. reflexivity.
Qed.

Lemma overlap_sum_spec (w a1 b1 a2 b2 : list C) :
  length a1 = length w -> length b1 = length w ->
  length a2 = length w -> length b2 = length w ->
  DFTCell.overlap_sum w (Ok a1) (Ok b1) (Ok a2) (Ok b2) =
  Ok (weighted_sum w (zip_with Csub (conj_times a1 b1) (conj_times a2 b2))).
Proof.
  intros H1 H2 H3 H4. unfold DFTCell.overlap_sum, weighted_sum, conj_times.
  cbn [mbind result_bind].
  rewrite (broadcast2_same_length DFTCell.Cmul_conj a1 b1) by congruence.
  cbn [mbind result_bind].
  rewrite (broadcast2_same_length DFTCell.Cmul_conj a2 b2) by congruence.
  cbn [mbind result_bind].
  rewrite broadcast2_same_length
    by (rewrite !length_zip_with; lia).
  cbn [mbind result_bind].
  rewrite broadcast2_same_length
    by (rewrite !length_zip_with; lia).
  reflexivity.
Qed.

Lemma getitem_0 {A} (a : A) l : getitem (a :: l) 0 = Ok a.
Proof. exact (getitem_lookup (a :: l) 0%nat a eq_refl). Qed.
Lemma getitem_1 {A} (a b : A) l : getitem (a :: b :: l) 1 = Ok b.
Proof. exact (getitem_lookup (a :: b :: l) 1%nat b eq_refl). Qed.
Lemma getitem_2 {A} (a b c : A) l : getitem (a :: b :: c :: l) 2 = Ok c.
Proof. exact (getitem_lookup (a :: b :: c :: l) 2%nat c eq_refl). Qed.
Lemma getitem_3 {A} (a b c d : A) l : getitem (a :: b :: c :: d :: l) 3 = Ok d.
Proof. exact (getitem_lookup (a :: b :: c :: d :: l) 3%nat d eq_refl). Qed.

(** The branch of the mode coefficients computes the overlap of the
    specification, with the sign decided by the code as it was passed. *)
Lemma call_mode_coefficient qcode mode nf c g w E1 E2 H1 H2 rest e1 e2 h1 h2 erest c' :
  String.eqb (upper qcode) "S" = false ->
  str_in (upper (upper qcode)) "PFMB" = true ->
  DFTCell.grid c = Some g ->
  reshape (weights g) (shape g) = Ok w ->
  call_fields qcode nf c = Ok (E1 :: E2 :: H1 :: H2 :: rest) ->
  DFTCell.get_eigenmode_slices mode nf c = (Ok (e1 :: e2 :: h1 :: h2 :: erest), c') ->
  Forall (fun a => length a = length w) [E1; E2; H1; H2; e1; e2; h1; h2] ->
  DFTCell.call qcode mode nf c =
  (Ok (VComplex
         (coefficient_spec
            (if str_in_list qcode ["P"; "F"] then C_of_Z 1 else C_of_Z (-1))
            (map C_of_Qc w) (mkTangential e1 e2 h1 h2) (mkTangential E1 E2 H1 H2))),
   c').
Proof.
  intros HS HP Hg Hw HEH Heh Hlen.
  repeat match goal with
         | H : Forall _ (_ :: _) |- _ => apply Forall_cons in H; destruct H as [? H]
         end.
  unfold call_fields in HEH. unfold DFTCell.call.
  rewrite Hg. cbn [attr mbind result_bind]. rewrite Hw. cbn [mbind result_bind].
  destruct (DFTCell.get_EH_slices c None nf) as [EH0|e]; [|discriminate].
  cbn [mbind result_bind] in HEH |- *.
  rewrite HEH. cbn [mbind result_bind].
  rewrite HS, HP, Heh.
  rewrite !getitem_0, !getitem_1, !getitem_2, !getitem_3.
  rewrite !overlap_sum_spec by (rewrite ?length_map; assumption).
  reflexivity.
Qed.

Lemma isub_same_length (a b : list C) :
  length a = length b -> DFTCell.isub a b = Ok (zip_with Csub a b).
Proof. intros H. unfold DFTCell.isub. rewrite H, Nat.eqb_refl. reflexivity. Qed.

Lemma subtract_loop_app (post ipost : list (list C)) :
  Forall2 (fun a b => length a = length b) post ipost ->
  forall pre ipre : list (list C),
    length pre = length ipre ->
    DFTCell.subtract_loop (ipre ++ ipost)
      (map Z.of_nat (seq (length pre) (length post))) (pre ++ post) =
    Ok (pre ++ slices_sub post ipost).
Proof.
  induction 1 as [|a b post ipost Hab Hrest IH]; intros pre ipre Hlen.
  - reflexivity.
  - cbn [length seq map DFTCell.subtract_loop].
    rewrite (getitem_lookup (pre ++ a :: post) (length pre) a)
      by (apply list_lookup_middle; reflexivity).
    cbn [mbind result_bind].
    rewrite (getitem_lookup (ipre ++ b :: ipost) (length pre) b)
      by (apply list_lookup_middle; exact Hlen).
    cbn [mbind result_bind].
    rewrite (isub_same_length a b Hab). cbn [mbind result_bind].
    rewrite setitem_insert by (rewrite length_app; cbn; lia).
    cbn [mbind result_bind].
    replace (<[length pre := zip_with Csub a b]> (pre ++ a :: post))
      with ((pre ++ [zip_with Csub a b]) ++ post).
    2:{ rewrite <- (Nat.add_0_r (length pre)) at 1.
        rewrite insert_app_r. cbn. rewrite <- app_assoc. reflexivity. }
    replace (ipre ++ b :: ipost) with ((ipre ++ [b]) ++ ipost)
      by (rewrite <- app_assoc; reflexivity).
    replace (S (length pre)) with (length (pre ++ [zip_with Csub a b]))
      by (rewrite length_app; cbn; lia).
    rewrite IH by (rewrite !length_app; cbn; lia).
    rewrite <- app_assoc. reflexivity.
Qed.

(** A lowercase code subtracts the slices saved under 'incident', component
    by component, from the live ones. *)
Lemma subtract_incident_fields_spec c EHT nf saved EHI :
  DFTCell.EH_cache c !! "incident" = Some saved ->
  getitem saved nf = Ok EHI ->
  length EHT = length (DFTCell.components c) ->
  Forall2 (fun a b => length a = length b) EHT EHI ->
  DFTCell.subtract_incident_fields c EHT nf = Ok (slices_sub EHT EHI).
Proof.
  intros Hc Hs Hn Hlen.
  unfold DFTCell.subtract_incident_fields, DFTCell.get_EH_slices.
  rewrite Hc, Hs. cbn [mbind result_bind].
  unfold DFTCell.range. rewrite <- Hn.
  exact (subtract_loop_app EHT EHI Hlen [] [] eq_refl).
Qed.

(** An uppercase code is evaluated on the live slices as they are. *)
Lemma call_fields_uppercase qcode nf c :
  islower qcode = false ->
  call_fields qcode nf c = DFTCell.get_EH_slices c None nf.
Proof.
  intros H. unfold call_fields. rewrite H.
  destruct (DFTCell.get_EH_slices c None nf); reflexivity.
Qed.

Lemma call_fields_lowercase qcode nf c EH saved EHI :
  islower qcode = true ->
  DFTCell.get_EH_slices c None nf = Ok EH ->
  DFTCell.EH_cache c !! "incident" = Some saved ->
  getitem saved nf = Ok EHI ->
  length EH = length (DFTCell.components c) ->
  Forall2 (fun a b => length a = length b) EH EHI ->
  call_fields qcode nf c = Ok (slices_sub EH EHI).
Proof.
  intros Hl HEH Hc Hs Hn Hlen. unfold call_fields. rewrite HEH, Hl.
  cbn [mbind result_bind]. eapply subtract_incident_fields_spec; eassumption.
Qed.

(** For the uppercase codes and for the lowercase backward codes the sign is
    the one the specification gives. *)
Lemma call_coefficient_sign_agrees qcode mode nf c g w E1 E2 H1 H2 rest
    e1 e2 h1 h2 erest c' :
  In qcode ["P"; "F"; "M"; "B"; "m"; "b"] ->
  DFTCell.grid c = Some g ->
  reshape (weights g) (shape g) = Ok w ->
  call_fields qcode nf c = Ok (E1 :: E2 :: H1 :: H2 :: rest) ->
  DFTCell.get_eigenmode_slices mode nf c = (Ok (e1 :: e2 :: h1 :: h2 :: erest), c') ->
  Forall (fun a => length a = length w) [E1; E2; H1; H2; e1; e2; h1; h2] ->
  DFTCell.call qcode mode nf c =
  (Ok (VComplex (coefficient_spec (sign_spec qcode) (map C_of_Qc w)
                   (mkTangential e1 e2 h1 h2) (mkTangential E1 E2 H1 H2))), c').
Proof.
  intros Hq Hg Hw HEH Heh Hlen.
  cbn [In] in Hq.
  destruct Hq as [<-|[<-|[<-|[<-|[<-|[<-|[]]]]]]];
    refine (call_mode_coefficient _ mode nf c g w E1 E2 H1 H2 rest e1 e2 h1 h2 erest c'
              _ _ Hg Hw HEH Heh Hlen); reflexivity.
Qed.

(** For the lowercase forward codes the sign test compares the code as it was
    passed with 'P' and 'F', so the sign is [-1]. *)
Lemma call_coefficient_lowercase_forward qcode mode nf c g w E1 E2 H1 H2 rest
    e1 e2 h1 h2 erest c' :
  In qcode ["p"; "f"] ->
  DFTCell.grid c = Some g ->
  reshape (weights g) (shape g) = Ok w ->
  call_fields qcode nf c = Ok (E1 :: E2 :: H1 :: H2 :: rest) ->
  DFTCell.get_eigenmode_slices mode nf c = (Ok (e1 :: e2 :: h1 :: h2 :: erest), c') ->
  Forall (fun a => length a = length w) [E1; E2; H1; H2; e1; e2; h1; h2] ->
  sign_spec qcode = C_of_Z 1 /\
  DFTCell.call qcode mode nf c =
  (Ok (VComplex (coefficient_spec (C_of_Z (-1)) (map C_of_Qc w)
                   (mkTangential e1 e2 h1 h2) (mkTangential E1 E2 H1 H2))), c').
Proof.
  intros Hq Hg Hw HEH Heh Hlen.
  cbn [In] in Hq.
  destruct Hq as [<-|[<-|[]]]; (split; [reflexivity|]);
    refine (call_mode_coefficient _ mode nf c g w E1 E2 H1 H2 rest e1 e2 h1 h2 erest c'
              _ _ Hg Hw HEH Heh Hlen); reflexivity.
Qed.

(** A lowercase forward code is evaluated exactly as the lowercase backward
    code. *)
Lemma call_p_is_call_m mode nf c :
  DFTCell.call "p" mode nf c = DFTCell.call "m" mode nf c /\
  DFTCell.call "f" mode nf c = DFTCell.call "b" mode nf c.
Proof. split; reflexivity. Qed.

(** C2 at the code 'p' in the driver scenario (incident field saved, total
    field live): the value returned is the overlap of the scattered field
    with sign [-1], which is 0 here, and not the forward coefficient, which
    is 2. *)
Theorem lowercase_p_uses_backward_sign :
  scattered_run "p" =
    Ok (VComplex (coefficient_spec (C_of_Z (-1)) demo_weights demo_eigen demo_scattered)) /\
  coefficient_spec (C_of_Z (-1)) demo_weights demo_eigen demo_scattered = Czero /\
  coefficient_spec (sign_spec "p") demo_weights demo_eigen demo_scattered = C_of_Z 2.
Proof.
  split; [|split].
  - apply Ok_PyVal_eq. vm_compute. reflexivity.
  - apply Ceqb_eq. vm_compute. reflexivity.
  - apply Ceqb_eq. vm_compute. reflexivity.
Qed.

(** A code that no branch recognises: nothing is raised and the call ends
    without a value. *)
Lemma call_unrecognised_returns_None qcode mode nf c g w EH :
  String.eqb (upper qcode) "S" = false ->
  str_in (upper (upper qcode)) "PFMB" = false ->
  str_in_list (upper qcode) ["UE"; "UH"; "UM"; "UEH"; "UEM"; "UT"] = false ->
  DFTCell.grid c = Some g ->
  reshape (weights g) (shape g) = Ok w ->
  call_fields qcode nf c = Ok EH ->
  DFTCell.call qcode mode nf c = (Ok VNone, c).
Proof.
  intros HS HP HU Hg Hw HEH.
  unfold call_fields in HEH. unfold DFTCell.call.
  rewrite Hg. cbn [attr mbind result_bind]. rewrite Hw. cbn [mbind result_bind].
  destruct (DFTCell.get_EH_slices c None nf) as [EH0|e]; [|discriminate].
  cbn [mbind result_bind] in HEH |- *.
  rewrite HEH. cbn [mbind result_bind].
  rewrite HS, HP, HU. reflexivity.
Qed.

(** C1 at the code 'X' on a registered cell: the call returns [None]. *)
Theorem unsupported_code_returns_None :
  total_run "X" = Ok VNone.
Proof. vm_compute. reflexivity. Qed.

(** C10.  The empty string is evaluated as the backward code 'M', and 'pf',
    'fm' and 'mb' as the lowercase backward code 'm'; in the driver scenario
    these calls return the overlap coefficient of sign [-1]. *)
Theorem substring_codes_return_coefficient :
  (forall mode nf c,
      DFTCell.call "" mode nf c = DFTCell.call "M" mode nf c /\
      DFTCell.call "pf" mode nf c = DFTCell.call "m" mode nf c /\
      DFTCell.call "fm" mode nf c = DFTCell.call "m" mode nf c /\
      DFTCell.call "mb" mode nf c = DFTCell.call "m" mode nf c) /\
  total_run "" =
    Ok (VComplex (coefficient_spec (C_of_Z (-1)) demo_weights demo_eigen demo_total)) /\
  scattered_run "pf" =
    Ok (VComplex (coefficient_spec (C_of_Z (-1)) demo_weights demo_eigen demo_scattered)) /\
  scattered_run "fm" =
    Ok (VComplex (coefficient_spec (C_of_Z (-1)) demo_weights demo_eigen demo_scattered)) /\
  scattered_run "mb" =
    Ok (VComplex (coefficient_spec (C_of_Z (-1)) demo_weights demo_eigen demo_scattered)).
Proof.
  split.
  - intros mode nf c. repeat split; reflexivity.
  - split; [|split; [|split]]; apply Ok_PyVal_eq; vm_compute; reflexivity.
Qed.

(** ** [EigenmodeCoefficient]: the adjoint source *)

Lemma lookup_map {A B} (f : A -> B) (l : list A) (i : nat) :
  map f l !! i = f <$> l !! i.
Proof.
  revert i. induction l as [|x l IH]; intros [|i]; cbn; auto.
Qed.

Lemma mapM_Ok {A B} (f : A -> B) (l : list A) :
  mapM (fun x => Ok (f x)) l = Ok (map f l).
Proof.
  induction l as [|x l IH]; [reflexivity|].
  cbn [mapM map mbind result_bind]. rewrite IH. reflexivity.
Qed.

Lemma Ceqb_neq (a b : C) : Ceqb a b = false <-> a <> b.
Proof.
  split.
  - intros H E. apply Ceqb_eq in E. congruence.
  - intros H. destruct (Ceqb a b) eqn:E; [|reflexivity].
    apply Ceqb_eq in E. contradiction.
Qed.

Lemma da_dE_with_cscale (res c : Qc) :
  res <> 0%Qc ->
  (half * (1 / res * 1 / res * c))%Qc = (half * c / (res * res))%Qc.
Proof. intros H. field. exact H. Qed.

(** C6, as the code has it.  After an evaluation, with one derivative and one
    coefficient scaling per frequency and an envelope whose transform does
    not vanish on the sweep, the scale at each frequency is
    [da_dE * dJ * i * 2 * pi * f / FT(f)] with
    [da_dE = 0.5 * cscale / resolution^2]. *)
Theorem scale_factor_carries_cscale :
  forall (o : EigenmodeCoefficient.t) (dJ : list C) (cs fs : list Qc) (ts : TimeSrc),
    resolution (EigenmodeCoefficient.sim o) <> 0%Qc ->
    EigenmodeCoefficient.cscale o = Some cs ->
    EigenmodeCoefficient.freqs o = Some fs ->
    EigenmodeCoefficient.time_src o = Some ts ->
    length cs = length fs -> length dJ = length fs ->
    (forall f, In f fs -> fourier_transform ts f <> Czero) ->
    exists scale,
      EigenmodeCoefficient.scale_factor o dJ = Ok scale /\
      length scale = length fs /\
      forall i c d f,
        cs !! i = Some c -> dJ !! i = Some d -> fs !! i = Some f ->
        scale !! i =
        Some (scale_with_cscale (resolution (EigenmodeCoefficient.sim o)) c d f
                (fourier_transform ts f)).
Proof.
  intros o dJ cs fs ts Hres Hcs Hfs Hts Hlc Hld Hft.
  unfold EigenmodeCoefficient.scale_factor, EigenmodeCoefficient.da_dE.
  apply Qc_eqb_neq in Hres. rewrite Hres, Hcs, Hfs, Hts.
  cbn [attr mbind result_bind].
  rewrite broadcast2_same_length by (rewrite length_map; congruence).
  cbn [mbind result_bind].
  rewrite broadcast2_same_length
    by (rewrite !length_map, length_zip_with, length_map; lia).
  cbn [mbind result_bind].
  rewrite (mapM_Ok (fourier_transform ts) fs).
  cbn [mbind result_bind].
  unfold array_div.
  assert (Hnz : forallb (fun z => negb (Ceqb z Czero)) (map (fourier_transform ts) fs) = true).
  { apply forallb_forall. intros z Hz. apply in_map_iff in Hz.
    destruct Hz as (f & <- & Hf). apply negb_true_iff, Ceqb_neq, Hft, Hf. }
  rewrite Hnz.
  rewrite broadcast2_same_length
    by (rewrite length_zip_with, !length_map, length_zip_with, !length_map; lia).
  eexists. split; [reflexivity|]. split.
  - rewrite length_zip_with, !length_map, length_zip_with, !length_map,
      length_zip_with, !length_map. lia.
  - intros i c d f Hc Hd Hf.
    repeat (rewrite lookup_zip_with || rewrite lookup_map).
    rewrite Hc, Hd, Hf.
    cbn. unfold scale_with_cscale, scale_formula.
    rewrite da_dE_with_cscale by (apply Qc_eqb_neq; exact Hres).
    reflexivity.
Qed.

(** C6 fails as stated: with a coefficient scaling of 2 (resolution 1, one
    frequency 1, envelope transform 1, derivative 1) the scale is not the
    one computed with [da_dE = 0.5 / resolution^2]. *)
Lemma scale_factor_is_not_the_unscaled_formula :
  exists v,
    EigenmodeCoefficient.scale_factor (evaluated_objective 0 (Qc_of_Z 2) true) [Cone]
      = Ok [v] /\
    v <> scale_spec 1%Qc Cone 1%Qc Cone.
Proof.
  eexists. split.
  - vm_compute. reflexivity.
  - apply Ceqb_neq. vm_compute. reflexivity.
Qed.

Lemma scale_factor_carries_cscale_witness :
  exists scale,
    EigenmodeCoefficient.scale_factor (evaluated_objective 0 (Qc_of_Z 2) true) [Cone]
      = Ok scale /\
    length scale = length [1%Qc] /\
    forall i c d f,
      [Qc_of_Z 2] !! i = Some c -> [Cone] !! i = Some d -> [1%Qc] !! i = Some f ->
      scale !! i =
      Some (scale_with_cscale
              (resolution (EigenmodeCoefficient.sim (evaluated_objective 0 (Qc_of_Z 2) true)))
              c d f (fourier_transform demo_envelope f)).
Proof.
  apply (scale_factor_carries_cscale (evaluated_objective 0 (Qc_of_Z 2) true)
           [Cone] [Qc_of_Z 2] [1%Qc] demo_envelope).
  - intros H. vm_compute in H. discriminate H.
  - reflexivity.
  - reflexivity.
  - reflexivity.
  - reflexivity.
  - reflexivity.
  - intros f _ H. vm_compute in H. discriminate H.
Defined.

Lemma place_adjoint_source_kpoint dJ dt time o src o' :
  EigenmodeCoefficient.place_adjoint_source dJ dt time o = (Ok src, o') ->
  EigenmodeCoefficient.starting_kpoint o = Ok (Some (eig_kpoint src)).
Proof.
  unfold EigenmodeCoefficient.place_adjoint_source. intros H.
  destruct (EigenmodeCoefficient.starting_kpoint o) as [[k|]|e];
    cbn [mbind result_bind] in H.
  - repeat match type of H with
           | context [?m ≫= _] => destruct m; cbn [mbind result_bind] in H
           end; try discriminate.
    destruct (length _ =? 1)%nat; injection H as <- _; reflexivity.
  - repeat match type of H with
           | context [?m ≫= _] => destruct m; cbn [mbind result_bind] in H
           end; try discriminate.
    destruct (length _ =? 1)%nat; discriminate.
  - discriminate.
Qed.

(** The scale reaches the source as its amplitude when the sweep has one
    frequency, and as the spectrum of a filtered envelope otherwise. *)
Lemma place_adjoint_source_uses_scale dJ dt time o src o' :
  EigenmodeCoefficient.place_adjoint_source dJ dt time o = (Ok src, o') ->
  exists scale fs ts,
    EigenmodeCoefficient.scale_factor o (atleast_1d dJ) = Ok scale /\
    EigenmodeCoefficient.freqs o = Some fs /\
    EigenmodeCoefficient.time_src o = Some ts /\
    (ems_src src, amplitude src) =
      (if (length fs =? 1)%nat then (Envelope ts, AmpArray scale)
       else (FilteredSource (frequency ts) fs scale dt time ts, AmpInt 1)).
Proof.
  unfold EigenmodeCoefficient.place_adjoint_source. intros H.
  destruct (EigenmodeCoefficient.starting_kpoint o) as [k|e];
    cbn [mbind result_bind] in H; [|discriminate].
  destruct (EigenmodeCoefficient.scale_factor o (atleast_1d dJ)) as [scale|e];
    cbn [mbind result_bind] in H; [|discriminate].
  destruct (EigenmodeCoefficient.freqs o) as [fs|];
    cbn [attr mbind result_bind] in H; [|discriminate].
  destruct (EigenmodeCoefficient.time_src o) as [ts|];
    cbn [attr mbind result_bind] in H; [|discriminate].
  exists scale, fs, ts. repeat split.
  destruct (length fs =? 1)%nat; destruct k as [k|]; try discriminate;
    injection H as <- _; reflexivity.
Qed.

(** The constructor stores 0 for [forward=True] and 1 for [forward=False];
    registration and evaluation keep the flag and the supplied wavevector. *)
Lemma forward_flag s vol m fwd k kwargs fc d n :
  let o := EigenmodeCoefficient.init s vol m fwd k kwargs in
  let o1 := snd (EigenmodeCoefficient.register_monitors fc d n o) in
  let o2 := snd (EigenmodeCoefficient.call o1) in
  EigenmodeCoefficient.forward o = (if fwd then 0 else 1) /\
  EigenmodeCoefficient.forward o1 = (if fwd then 0 else 1) /\
  EigenmodeCoefficient.forward o2 = (if fwd then 0 else 1) /\
  EigenmodeCoefficient.k0 o2 = k.
Proof.
  cbn zeta. repeat split.
  - unfold EigenmodeCoefficient.call. repeat case_match; reflexivity.
  - unfold EigenmodeCoefficient.call. repeat case_match; reflexivity.
Qed.

(** C7, as the code has it.  With no wavevector supplied, on a monitor of
    normal axis 0 or 1 the wavevector is the unit vector of that axis times
    [-1] for an objective built with [forward=True] and times [+1] for one
    built with [forward=False]; on normal axis 2 no wavevector is ever set:
    the comparison reads the unassigned local and the call stops with
    [UnboundLocalError]. *)
Theorem default_wavevector :
  forall (o : EigenmodeCoefficient.t) (fwd : bool),
    EigenmodeCoefficient.k0 o = None ->
    EigenmodeCoefficient.forward o = (if fwd then 0 else 1) ->
    (forall axis, axis = 0 \/ axis = 1 ->
       EigenmodeCoefficient.normal_direction o = Some axis ->
       EigenmodeCoefficient.starting_kpoint o =
         Ok (Some (v3_scale (Qc_of_Z (if fwd then -1 else 1)) (unit_vector axis))) /\
       forall dJ dt time src o',
         EigenmodeCoefficient.place_adjoint_source dJ dt time o = (Ok src, o') ->
         eig_kpoint src = v3_scale (Qc_of_Z (if fwd then -1 else 1)) (unit_vector axis)) /\
    (EigenmodeCoefficient.normal_direction o = Some 2 ->
       forall dJ dt time,
         EigenmodeCoefficient.place_adjoint_source dJ dt time o =
         (Raise (UnboundLocalError "k0"), o)).
Proof.
  intros o fwd Hk Hf.
  assert (Hds : EigenmodeCoefficient.direction_scalar o = if fwd then -1 else 1).
  { unfold EigenmodeCoefficient.direction_scalar. rewrite Hf. destruct fwd; reflexivity. }
  split.
  - intros axis Hax Hn.
    assert (Hs : EigenmodeCoefficient.starting_kpoint o =
                 Ok (Some (v3_scale (Qc_of_Z (if fwd then -1 else 1)) (unit_vector axis)))).
    { unfold EigenmodeCoefficient.starting_kpoint. rewrite Hk, Hn, Hds.
      destruct Hax as [-> | ->]; reflexivity. }
    split; [exact Hs|].
    intros dJ dt time src o' Hp.
    apply place_adjoint_source_kpoint in Hp. rewrite Hs in Hp. congruence.
  - intros Hn dJ dt time.
    unfold EigenmodeCoefficient.place_adjoint_source, EigenmodeCoefficient.starting_kpoint.
    rewrite Hk, Hn. reflexivity.
Qed.

Lemma default_wavevector_witness :
  let o := evaluated_objective 0 1%Qc true in
  (forall axis, axis = 0 \/ axis = 1 ->
     EigenmodeCoefficient.normal_direction o = Some axis ->
     EigenmodeCoefficient.starting_kpoint o =
       Ok (Some (v3_scale (Qc_of_Z (-1)) (unit_vector axis))) /\
     forall dJ dt time src o',
       EigenmodeCoefficient.place_adjoint_source dJ dt time o = (Ok src, o') ->
       eig_kpoint src = v3_scale (Qc_of_Z (-1)) (unit_vector axis)) /\
  (EigenmodeCoefficient.normal_direction o = Some 2 ->
     forall dJ dt time,
       EigenmodeCoefficient.place_adjoint_source dJ dt time o =
       (Raise (UnboundLocalError "k0"), o)).
Proof.
  apply (default_wavevector (evaluated_objective 0 1%Qc true) true).
  - reflexivity.
  - reflexivity.
Defined.

(** C7 fails as stated: for an objective built with [forward=True] on a
    monitor of normal axis 0 the wavevector of the adjoint source is
    [(-1, 0, 0)], not [+1] times the unit vector. *)
Lemma forward_objective_wavevector_is_reversed :
  exists src,
    adjoint_run 0 1%Qc true true None (Scalar Cone) = Ok src /\
    eig_kpoint src = V3 (Qc_of_Z (-1)) 0%Qc 0%Qc /\
    eig_kpoint src <> v3_scale (Qc_of_Z 1) (unit_vector 0).
Proof.
  eexists. split; [vm_compute; reflexivity|]. split.
  - apply V3_eqb_eq. vm_compute. reflexivity.
  - intros H. apply V3_eqb_eq in H. vm_compute in H. discriminate H.
Qed.



Lemma register_monitors_not_evaluated s vol m fwd k kwargs fc d n :
  let o := snd (EigenmodeCoefficient.register_monitors fc d n
                  (EigenmodeCoefficient.init s vol m fwd k kwargs)) in
  EigenmodeCoefficient.cscale o = None /\
  EigenmodeCoefficient.freqs o = None /\
  EigenmodeCoefficient.time_src o = None /\
  EigenmodeCoefficient.k0 o = k /\
  EigenmodeCoefficient.normal_direction o =
    Some (dft_normal_direction (add_flux s fc d n (vol_center vol) (vol_size vol) None)).
Proof. repeat split. Qed.



(** * Further properties of the code *)

(** ** [rescale_sources] *)

Lemma py_div_nonzero (x y : C) : y <> Czero -> py_div x y = Ok (Cdiv x y).
Proof. intros H. unfold py_div. apply Ceqb_neq in H. rewrite H. reflexivity. Qed.

Lemma rescale_source_rescalable (s : Source) :
  rescalable s ->
  exists s', rescale_source s = Ok s' /\ src s' = src s /\
    match env_fourier_transform (src s), env_frequency (src s) with
    | Some ft, Some fc => src_amplitude s' = Cdiv (src_amplitude s) (ft fc)
    | _, _ => src_amplitude s' = src_amplitude s
    end.
Proof.
  intros (fc & Hf & Hft). unfold rescale_source. rewrite Hf. cbn [attr mbind result_bind].
  destruct (env_fourier_transform (src s)) as [ft|] eqn:E.
  - rewrite (py_div_nonzero _ _ (Hft ft eq_refl)). cbn [mbind result_bind].
    eexists. split; [reflexivity|]. cbn [src src_amplitude].
    split; reflexivity.
  - exists s. auto.
Qed.

(** X1.  When every source has a frequency and no envelope transform vanishes
    at it, [rescale_sources] raises nothing, keeps the number, the order and
    the envelopes of the sources, replaces the amplitude of each source that
    has a transform by the quotient [amplitude / transform(frequency)], and
    leaves the others as they are. *)
Theorem rescale_sources_divides_by_envelope :
  forall sources : list Source,
    Forall rescalable sources ->
    exists sources',
      rescale_sources sources = (Ok (), sources') /\
      length sources' = length sources /\
      forall i s, sources !! i = Some s ->
        exists s', sources' !! i = Some s' /\ src s' = src s /\
          match env_fourier_transform (src s), env_frequency (src s) with
          | Some ft, Some fc => src_amplitude s' = Cdiv (src_amplitude s) (ft fc)
          | _, _ => src_amplitude s' = src_amplitude s
          end.
Proof.
  induction 1 as [|s rest Hs Hrest IH].
  - exists []. repeat split. intros i s Hi. destruct i; discriminate.
  - destruct IH as (rest' & Hr & Hlen & Hprop).
    destruct (rescale_source_rescalable s Hs) as (s' & Hs' & Hsrc & Hamp).
    exists (s' :: rest'). cbn [rescale_sources]. rewrite Hs', Hr.
    split; [reflexivity|]. split; [cbn; congruence|].
    intros [|i] t Hi.
    + injection Hi as <-. exists s'. auto.
    + exact (Hprop i t Hi).
Qed.

Lemma rescale_sources_divides_by_envelope_witness :
  exists sources',
    rescale_sources [pulsed_source; plain_source] = (Ok (), sources') /\
    length sources' = length [pulsed_source; plain_source] /\
    forall i s, [pulsed_source; plain_source] !! i = Some s ->
      exists s', sources' !! i = Some s' /\ src s' = src s /\
        match env_fourier_transform (src s), env_frequency (src s) with
        | Some ft, Some fc => src_amplitude s' = Cdiv (src_amplitude s) (ft fc)
        | _, _ => src_amplitude s' = src_amplitude s
        end.
Proof.
  apply rescale_sources_divides_by_envelope.
  repeat constructor.
  - exists 1%Qc. split; [reflexivity|].
    intros ft H. injection H as <-. intros E. vm_compute in E. discriminate E.
  - exists 1%Qc. split; [reflexivity|]. intros ft H. discriminate H.
Defined.

(** X2.  When the loop stops at a source (no frequency, or a transform that
    vanishes at it), the sources before it have already been rescaled, and
    that source and the ones after it are as they were. *)
Theorem rescale_sources_stops_midway :
  forall (pre post pre' : list Source) (s : Source) (e : PyExn),
    rescale_sources pre = (Ok (), pre') ->
    rescale_source s = Raise e ->
    rescale_sources (pre ++ s :: post) = (Raise e, pre' ++ s :: post).
Proof.
  induction pre as [|p pre IH]; intros post pre' s e Hpre Hs.
  - cbn in Hpre. injection Hpre as <-. cbn [app rescale_sources]. rewrite Hs. reflexivity.
  - cbn [rescale_sources] in Hpre. cbn [app rescale_sources].
    destruct (rescale_source p) as [p'|e']; [|discriminate].
    destruct (rescale_sources pre) as [r rest'] eqn:Er.
    injection Hpre as -> <-.
    rewrite (IH post rest' s e eq_refl Hs). reflexivity.
Qed.

Lemma rescale_sources_stops_midway_witness :
  let p := hd pulsed_source (snd (rescale_sources [pulsed_source])) in
  rescale_sources ([pulsed_source] ++ silent_source :: [plain_source]) =
    (Raise ZeroDivisionError, [p] ++ silent_source :: [plain_source]) /\
  Ceqb (src_amplitude pulsed_source) (C_of_Z 6) = true /\
  Ceqb (src_amplitude p) (C_of_Z 3) = true.
Proof.
  intro p. split; [|split; vm_compute; reflexivity].
  apply (rescale_sources_stops_midway [pulsed_source] [plain_source] [p]
           silent_source ZeroDivisionError).
  - vm_compute. reflexivity.
  - reflexivity.
Defined.

(** ** [fix_array_metadata], continued *)

Lemma getitem_nat {A} (l : list A) (n : nat) :
  getitem l (Z.of_nat n) = match l !! n with Some a => Ok a | None => Raise IndexError end.
Proof.
  destruct (l !! n) as [a|] eqn:E.
  - apply getitem_lookup, E.
  - apply lookup_ge_None in E. unfold getitem.
    replace (Z.of_nat n <? Z.of_nat (length l)) with false
      by (symmetry; apply Z.ltb_ge; lia).
    replace (Z.of_nat n <? 0) with false by (symmetry; apply Z.ltb_ge; lia).
    rewrite !andb_false_r. reflexivity.
Qed.

Lemma setitem_nat {A} (l : list A) (n : nat) (v : A) :
  setitem l (Z.of_nat n) v =
  if (n <? length l)%nat then Ok (<[n := v]> l) else Raise IndexError.
Proof.
  destruct (n <? length l)%nat eqn:E.
  - apply setitem_insert. apply Nat.ltb_lt, E.
  - apply Nat.ltb_ge in E. unfold setitem.
    replace (Z.of_nat n <? Z.of_nat (length l)) with false
      by (symmetry; apply Z.ltb_ge; lia).
    replace (Z.of_nat n <? 0) with false by (symmetry; apply Z.ltb_ge; lia).
    rewrite !andb_false_r. reflexivity.
Qed.

(** One turn of the loop either raises [IndexError], or returns a list of the
    same length in which only the visited entry may differ. *)
Lemma fix_axis_cases (center size : list Qc) (xyzw : list (ndarray Qc)) (d : nat) :
  fix_axis center size xyzw (Z.of_nat d) = Raise IndexError \/
  exists sd a b,
    size !! d = Some sd /\ xyzw !! d = Some a /\
    (sd = 0%Qc -> nd_data a <> []) /\
    (sd = 0%Qc -> exists cd, center !! d = Some cd /\ nd_data b !! 0%nat = Some cd) /\
    fix_axis center size xyzw (Z.of_nat d) = Ok (<[d := b]> xyzw).
Proof.
  unfold fix_axis. rewrite !getitem_nat.
  destruct (size !! d) as [sd|] eqn:Es; cbn [mbind result_bind]; [|left; reflexivity].
  destruct (xyzw !! d) as [a|] eqn:Ex.
  2:{ left. destruct (Qc_eqb sd 0%Qc); reflexivity. }
  pose proof (lookup_lt_Some _ _ _ Ex) as Hlt. apply Nat.ltb_lt in Hlt.
  destruct (Qc_eqb sd 0%Qc) eqn:E0; cbn [mbind result_bind].
  - change 0 with (Z.of_nat 0). rewrite getitem_nat.
    destruct (nd_data a !! 0%nat) as [x0|] eqn:Ed; cbn [mbind result_bind];
      [|left; reflexivity].
    destruct (center !! d) as [cd|]; cbn [mbind result_bind]; [|left; reflexivity].
    right. exists sd, a.
    destruct (Qc_eqb x0 cd) eqn:Ec; cbn [negb mbind result_bind];
      rewrite setitem_nat, Hlt; eexists;
      (split; [reflexivity|split; [reflexivity|split; [|split; [|reflexivity]]]]).
    + intros _ E. rewrite E in Ed. discriminate Ed.
    + intros _. exists cd. apply Qc_eqb_eq in Ec. subst x0. auto.
    + intros _ E. rewrite E in Ed. discriminate Ed.
    + intros _. exists cd. auto.
  - right. exists sd, a, a. rewrite setitem_nat, Hlt.
    assert (Hne : sd <> 0%Qc) by (intros ->; rewrite Qc_eqb_refl in E0; discriminate E0).
    split; [reflexivity|split; [reflexivity|split; [|split; [|reflexivity]]]];
      intros ->; contradiction.
Qed.

(** X3.  [fix_array_metadata] raises nothing but [IndexError]; when it
    returns, the metadata and [size] have at least three entries, every axis
    of zero size had a coordinate, and the result has as many entries as the
    input, with the entries after the third (the weights) untouched. *)
Theorem fix_array_metadata_outcomes :
  forall (xyzw : list (ndarray Qc)) (center size : list Qc),
    match fix_array_metadata xyzw center size with
    | Raise e => e = IndexError
    | Ok xyzw' =>
        (3 <= length xyzw)%nat /\ (3 <= length size)%nat /\
        length xyzw' = length xyzw /\
        (forall d a, (d < 3)%nat -> size !! d = Some 0%Qc -> xyzw !! d = Some a ->
                     nd_data a <> []) /\
        (forall i, (3 <= i)%nat -> xyzw' !! i = xyzw !! i)
    end.
Proof.
  intros xyzw center size. unfold fix_array_metadata, for_axes.
  change 0 with (Z.of_nat 0). change 1 with (Z.of_nat 1). change 2 with (Z.of_nat 2).
  destruct (fix_axis_cases center size xyzw 0) as [->|(s0 & a0 & b0 & Hs0 & Hx0 & Hn0 & _ & ->)];
    [reflexivity|].
  cbn [mbind result_bind].
  destruct (fix_axis_cases center size (<[0%nat:=b0]> xyzw) 1)
    as [->|(s1 & a1 & b1 & Hs1 & Hx1 & Hn1 & _ & ->)]; [reflexivity|].
  cbn [mbind result_bind].
  destruct (fix_axis_cases center size (<[1%nat:=b1]> (<[0%nat:=b0]> xyzw)) 2)
    as [->|(s2 & a2 & b2 & Hs2 & Hx2 & Hn2 & _ & ->)]; [reflexivity|].
  rewrite list_lookup_insert_ne in Hx1 by lia.
  rewrite !list_lookup_insert_ne in Hx2 by lia.
  pose proof (lookup_lt_Some _ _ _ Hx2). pose proof (lookup_lt_Some _ _ _ Hs2).
  repeat split; try lia.
  - rewrite !length_insert. reflexivity.
  - intros d a Hd Hsd Hxd.
    destruct d as [|[|[|d]]]; [| | |lia]; simplify_eq; auto.
  - intros i Hi. rewrite !list_lookup_insert_ne by lia. reflexivity.
Qed.

Lemma fix_axis_stable (center size : list Qc) (ys : list (ndarray Qc)) (d : nat)
    (sd : Qc) (b : ndarray Qc) :
  size !! d = Some sd -> ys !! d = Some b ->
  (sd = 0%Qc -> exists cd, center !! d = Some cd /\ nd_data b !! 0%nat = Some cd) ->
  fix_axis center size ys (Z.of_nat d) = Ok ys.
Proof.
  intros Hs Hy Hc. unfold fix_axis. rewrite !getitem_nat, Hs, Hy.
  pose proof (lookup_lt_Some _ _ _ Hy) as Hlt. apply Nat.ltb_lt in Hlt.
  cbn [mbind result_bind].
  destruct (Qc_eqb sd 0%Qc) eqn:E0; cbn [mbind result_bind].
  - apply Qc_eqb_eq in E0. destruct (Hc E0) as (cd & Hcd & Hb).
    change 0 with (Z.of_nat 0). rewrite getitem_nat, Hb, Hcd. cbn [mbind result_bind].
    rewrite Qc_eqb_refl. cbn [negb]. rewrite setitem_nat, Hlt, list_insert_id by exact Hy.
    reflexivity.
  - rewrite setitem_nat, Hlt, list_insert_id by exact Hy. reflexivity.
Qed.

(** X4.  Whenever [fix_array_metadata] returns, every axis of zero size
    starts at the centre coordinate in the result, and fixing the result
    again changes nothing. *)
Theorem fix_array_metadata_idempotent :
  forall (xyzw xyzw' : list (ndarray Qc)) (center size : list Qc),
    fix_array_metadata xyzw center size = Ok xyzw' ->
    (forall d, (d < 3)%nat -> size !! d = Some 0%Qc ->
       exists a cd, xyzw' !! d = Some a /\ center !! d = Some cd /\
                    nd_data a !! 0%nat = Some cd) /\
    fix_array_metadata xyzw' center size = Ok xyzw'.
Proof.
  intros xyzw xyzw' center size. unfold fix_array_metadata, for_axes.
  change 0 with (Z.of_nat 0). change 1 with (Z.of_nat 1). change 2 with (Z.of_nat 2).
  destruct (fix_axis_cases center size xyzw 0)
    as [->|(s0 & a0 & b0 & Hs0 & Hx0 & _ & Hb0 & ->)]; [discriminate|].
  cbn [mbind result_bind].
  destruct (fix_axis_cases center size (<[0%nat:=b0]> xyzw) 1)
    as [->|(s1 & a1 & b1 & Hs1 & Hx1 & _ & Hb1 & ->)]; [discriminate|].
  cbn [mbind result_bind].
  destruct (fix_axis_cases center size (<[1%nat:=b1]> (<[0%nat:=b0]> xyzw)) 2)
    as [->|(s2 & a2 & b2 & Hs2 & Hx2 & _ & Hb2 & ->)]; [discriminate|].
  intros H. injection H as <-.
  pose proof (lookup_lt_Some _ _ _ Hx0) as L0.
  pose proof (lookup_lt_Some _ _ _ Hx1) as L1.
  pose proof (lookup_lt_Some _ _ _ Hx2) as L2.
  rewrite length_insert in L1. rewrite !length_insert in L2.
  set (r := <[2%nat:=b2]> (<[1%nat:=b1]> (<[0%nat:=b0]> xyzw))).
  assert (R0 : r !! 0%nat = Some b0).
  { unfold r. rewrite !list_lookup_insert_ne by lia. apply list_lookup_insert_eq. lia. }
  assert (R1 : r !! 1%nat = Some b1).
  { unfold r. rewrite list_lookup_insert_ne by lia.
    apply list_lookup_insert_eq. rewrite length_insert. lia. }
  assert (R2 : r !! 2%nat = Some b2).
  { unfold r. apply list_lookup_insert_eq. rewrite !length_insert. lia. }
  split.
  - intros d Hd Hsd.
    destruct d as [|[|[|d]]]; [| | |lia]; simplify_eq.
    + destruct (Hb0 eq_refl) as (cd & ? & ?). eauto.
    + destruct (Hb1 eq_refl) as (cd & ? & ?). eauto.
    + destruct (Hb2 eq_refl) as (cd & ? & ?). eauto.
  - rewrite (fix_axis_stable center size r 0 s0 b0 Hs0 R0 Hb0). cbn [mbind result_bind].
    rewrite (fix_axis_stable center size r 1 s1 b1 Hs1 R1 Hb1). cbn [mbind result_bind].
    rewrite (fix_axis_stable center size r 2 s2 b2 Hs2 R2 Hb2). reflexivity.
Qed.

Lemma fix_array_metadata_idempotent_witness :
  exists xyzw',
    fix_array_metadata snapped_metadata ORIGIN [0%Qc; Qc_of_Z 2; 0%Qc] = Ok xyzw' /\
    (forall d, (d < 3)%nat -> [0%Qc; Qc_of_Z 2; 0%Qc] !! d = Some 0%Qc ->
       exists a cd, xyzw' !! d = Some a /\ ORIGIN !! d = Some cd /\
                    nd_data a !! 0%nat = Some cd) /\
    fix_array_metadata xyzw' ORIGIN [0%Qc; Qc_of_Z 2; 0%Qc] = Ok xyzw'.
Proof.
  eexists. split; [vm_compute; reflexivity|].
  apply (fix_array_metadata_idempotent snapped_metadata).
  vm_compute. reflexivity.
Defined.

(** ** [xyzw2grid] *)

Lemma concatM_Ok {A B} (f : A -> result (list B)) (g : A -> list B) (l : list A) :
  (forall a, f a = Ok (g a)) -> concatM f l = Ok (flat_map g l).
Proof.
  intros H. induction l as [|a l IH]; [reflexivity|].
  cbn [concatM flat_map]. rewrite H, IH. reflexivity.
Qed.

Lemma length_flat_map_const {A B} (g : A -> list B) (m : nat) (l : list A) :
  (forall a, length (g a) = m) -> length (flat_map g l) = (length l * m)%nat.
Proof.
  intros H. induction l as [|a l IH]; [reflexivity|].
  cbn [flat_map length]. rewrite length_app, H, IH. lia.
Qed.

Lemma lookup_flat_map_const {A B} (g : A -> list B) (m : nat) (l : list A)
    (i j : nat) (a : A) :
  (forall a, length (g a) = m) -> l !! i = Some a -> (j < m)%nat ->
  flat_map g l !! (i * m + j)%nat = g a !! j.
Proof.
  intros H. revert i. induction l as [|x l IH]; intros i Hi Hj; [destruct i; discriminate|].
  cbn [flat_map]. destruct i as [|i].
  - injection Hi as ->. cbn [Nat.mul Nat.add]. apply lookup_app_l. rewrite H. exact Hj.
  - rewrite lookup_app_r by (rewrite H; lia).
    rewrite H. replace (S i * m + j - m)%nat with (i * m + j)%nat by lia.
    apply IH; assumption.
Qed.

Lemma lattice_length (xs ys zs : list Qc) :
  length (lattice xs ys zs) = (length xs * length ys * length zs)%nat.
Proof.
  unfold lattice.
  rewrite (length_flat_map_const _ (length ys * length zs)).
  - lia.
  - intros a. apply length_flat_map_const. intros b. apply length_map.
Qed.

Lemma lattice_lookup (xs ys zs : list Qc) (i j k : nat) (a b c : Qc) :
  xs !! i = Some a -> ys !! j = Some b -> zs !! k = Some c ->
  lattice xs ys zs !! ((i * length ys + j) * length zs + k)%nat = Some [a; b; c].
Proof.
  intros Hi Hj Hk. unfold lattice.
  pose proof (lookup_lt_Some _ _ _ Hj) as Lj. pose proof (lookup_lt_Some _ _ _ Hk) as Lk.
  replace ((i * length ys + j) * length zs + k)%nat
    with (i * (length ys * length zs) + (j * length zs + k))%nat by lia.
  rewrite (lookup_flat_map_const _ (length ys * length zs) xs i _ a); [| |exact Hi|nia].
  2:{ intros a'. apply length_flat_map_const. intros b'. apply length_map. }
  rewrite (lookup_flat_map_const _ (length zs) ys j k b); [| |exact Hj|exact Lk].
  2:{ intros b'. apply length_map. }
  rewrite lookup_map, Hk. reflexivity.
Qed.

Lemma xyzw2grid_cases (xyzw : list (ndarray Qc)) :
  match xyzw with
  | x :: y :: z :: w :: _ =>
      xyzw2grid xyzw =
      Ok (mkGrid (nd_data x) (nd_data y) (nd_data z)
            (lattice (nd_data x) (nd_data y) (nd_data z)) (nd_data w) (nd_shape w))
  | _ => xyzw2grid xyzw = Raise IndexError
  end.
Proof.
  destruct xyzw as [|x [|y [|z [|w rest]]]]; try reflexivity.
  - unfold xyzw2grid. rewrite getitem_0, getitem_1, getitem_2.
    cbn [mbind result_bind].
    rewrite (concatM_Ok _ (fun a => flat_map (fun b => map (fun c => [a; b; c]) (nd_data z))
                                      (nd_data y))).
    + reflexivity.
    + intros a. cbn [mbind result_bind]. apply concatM_Ok. intros b. reflexivity.
  - unfold xyzw2grid. rewrite getitem_0, getitem_1, getitem_2, getitem_3.
    cbn [mbind result_bind].
    rewrite (concatM_Ok _ (fun a => flat_map (fun b => map (fun c => [a; b; c]) (nd_data z))
                                      (nd_data y))).
    + reflexivity.
    + intros a. cbn [mbind result_bind].
      apply concatM_Ok. intros b. reflexivity.
Qed.

(** X5.  [xyzw2grid] needs four entries and raises [IndexError] on a shorter
    list.  Otherwise it returns the three coordinate arrays as tics, the
    flattened fourth array as weights and its shape as shape; the points are
    the full lattice, one per triple of tics, listed with the z index running
    fastest and the x index slowest. *)
Theorem xyzw2grid_lattice :
  forall xyzw : list (ndarray Qc),
    match xyzw with
    | x :: y :: z :: w :: _ =>
        exists g,
          xyzw2grid xyzw = Ok g /\
          xtics g = nd_data x /\ ytics g = nd_data y /\ ztics g = nd_data z /\
          weights g = nd_data w /\ shape g = nd_shape w /\
          length (points g) =
            (length (nd_data x) * length (nd_data y) * length (nd_data z))%nat /\
          forall i j k a b c,
            nd_data x !! i = Some a -> nd_data y !! j = Some b -> nd_data z !! k = Some c ->
            points g !! ((i * length (nd_data y) + j) * length (nd_data z) + k)%nat
              = Some [a; b; c]
    | _ => xyzw2grid xyzw = Raise IndexError
    end.
Proof.
  intros xyzw. pose proof (xyzw2grid_cases xyzw) as H.
  destruct xyzw as [|x [|y [|z [|w rest]]]]; try exact H.
  eexists. split; [exact H|].
  cbn [xtics ytics ztics weights shape points]. repeat split.
  - apply lattice_length.
  - intros i j k a b c. apply lattice_lookup.
Qed.

(** ** [make_grid], continued *)

Lemma linspace_tics (a b : Qc) (n : Z) :
  1 <= n ->
  exists l,
    linspace a b n = Ok l /\ length l = Z.to_nat n /\
    l !! 0%nat = Some a /\ (2 <= n -> last l = Some b).
Proof.
  intros Hn. unfold linspace.
  replace (n <? 0) with false by (symmetry; apply Z.ltb_ge; lia).
  replace (n =? 0) with false by (symmetry; apply Z.eqb_neq; lia).
  destruct (n =? 1) eqn:E1.
  - apply Z.eqb_eq in E1. subst n. exists [a]. repeat split. intros; lia.
  - apply Z.eqb_neq in E1. eexists. split; [reflexivity|]. split; [|split].
    + rewrite length_app, length_map, length_seq. cbn. lia.
    + destruct (Z.to_nat n - 1)%nat as [|m] eqn:Em; [lia|].
      cbn [seq map app]. cbn [lookup list_lookup]. f_equal.
      change (Qc_of_Z (Z.of_nat 0)) with 0%Qc. ring.
    + intros _. apply last_snoc.
Qed.

Lemma flatnonzero_box (sx sy sz : Qc) :
  sx <> 0%Qc -> sy <> 0%Qc -> sz <> 0%Qc ->
  flatnonzero [sx; sy; sz] = [0%nat; 1%nat; 2%nat].
Proof.
  intros Hx Hy Hz. apply Qc_eqb_neq in Hx, Hy, Hz.
  unfold flatnonzero. cbn -[Qc_eqb]. rewrite Hx, Hy, Hz. reflexivity.
Qed.

(** X6.  A box with three non-zero extents and at least one point per axis
    (the default is 10 points on an axis of positive extent and 1 on an axis
    of negative extent) gets a grid: each axis runs from [center - size/2]
    to [center + size/2] (one point: the lower end), the points are the
    full lattice of the tics, there are as many weights as points, namely
    the product of the three counts, and every weight is the quotient of
    the product of the positive extents by that number. *)
Theorem make_grid_box :
  forall (sx sy sz cx cy cz : Qc) (dims : option (list Z)) (nx ny nz : Z),
    sx <> 0%Qc -> sy <> 0%Qc -> sz <> 0%Qc ->
    match dims with
    | None => map (fun s => if Qc_ltb 0%Qc s then 10 else 1) [sx; sy; sz]
    | Some ds => ds
    end = [nx; ny; nz] ->
    1 <= nx -> 1 <= ny -> 1 <= nz ->
    exists g,
      make_grid [sx; sy; sz] [cx; cy; cz] dims None = Ok g /\
      linspace (cx - half * sx)%Qc (cx + half * sx)%Qc nx = Ok (xtics g) /\
      linspace (cy - half * sy)%Qc (cy + half * sy)%Qc ny = Ok (ytics g) /\
      linspace (cz - half * sz)%Qc (cz + half * sz)%Qc nz = Ok (ztics g) /\
      xtics g !! 0%nat = Some (cx - half * sx)%Qc /\
      (2 <= nx -> last (xtics g) = Some (cx + half * sx)%Qc) /\
      points g = lattice (xtics g) (ytics g) (ztics g) /\
      length (points g) = Z.to_nat (nx * ny * nz) /\
      length (weights g) = Z.to_nat (nx * ny * nz) /\
      weights g =
        replicate (Z.to_nat (nx * ny * nz))
          (Qc_prod (List.filter (fun s => Qc_ltb 0%Qc s) [sx; sy; sz]) /
           Qc_of_Z (nx * ny * nz))%Qc.
Proof.
  intros sx sy sz cx cy cz dims nx ny nz Hx Hy Hz Hd Hnx Hny Hnz.
  destruct (linspace_tics (cx - half * sx)%Qc (cx + half * sx)%Qc nx Hnx)
    as (lx & Elx & Llx & Fx & Lx).
  destruct (linspace_tics (cy - half * sy)%Qc (cy + half * sy)%Qc ny Hny)
    as (ly & Ely & Lly & _ & _).
  destruct (linspace_tics (cz - half * sz)%Qc (cz + half * sz)%Qc nz Hnz)
    as (lz & Elz & Llz & _ & _).
  set (vol := Qc_prod (List.filter (fun s => Qc_ltb 0%Qc s) [sx; sy; sz])).
  exists (mkGrid lx ly lz (lattice lx ly lz)
            (replicate (Z.to_nat (nx * ny * nz)) (vol / Qc_of_Z (nx * ny * nz))%Qc)
            (List.filter (fun n => (1 <? n)%nat) (map length [lx; ly; lz]))).
  assert (Hntot : 1 <= nx * ny * nz) by nia.
  split.
  - unfold make_grid. rewrite (flatnonzero_box sx sy sz Hx Hy Hz).
    cbn [length slice_to firstn mbind result_bind]. rewrite Hd.
    cbn [map broadcast2 length Nat.eqb zip_with mbind result_bind zip3 mapM].
    rewrite Elx, Ely, Elz. cbn [mbind result_bind length Nat.eqb].
    rewrite getitem_0, getitem_1, getitem_2. cbn [mbind result_bind].
    rewrite (concatM_Ok _ (fun a => flat_map (fun b => map (fun c => [a; b; c]) lz) ly)).
    2:{ intros a. cbn [mbind result_bind]. apply concatM_Ok. intros b. reflexivity. }
    cbn [mbind result_bind].
    replace (Z_prod [nx; ny; nz]) with (nx * ny * nz) by (cbn; lia).
    replace (nx * ny * nz <? 0) with false by (symmetry; apply Z.ltb_ge; lia).
    replace (nx * ny * nz =? 0) with false by (symmetry; apply Z.eqb_neq; lia).
    reflexivity.
  - cbn [xtics ytics ztics points weights].
    repeat split; try assumption.
    + rewrite lattice_length, Llx, Lly, Llz. lia.
    + apply length_replicate.
Qed.

Lemma make_grid_box_witness :
  exists g,
    make_grid [1%Qc; Qc_of_Z 2; Qc_of_Z 3] [0%Qc; 0%Qc; 0%Qc] (Some [2; 3; 1]) None = Ok g /\
    linspace (0 - half * 1)%Qc (0 + half * 1)%Qc 2 = Ok (xtics g) /\
    linspace (0 - half * Qc_of_Z 2)%Qc (0 + half * Qc_of_Z 2)%Qc 3 = Ok (ytics g) /\
    linspace (0 - half * Qc_of_Z 3)%Qc (0 + half * Qc_of_Z 3)%Qc 1 = Ok (ztics g) /\
    xtics g !! 0%nat = Some (0 - half * 1)%Qc /\
    (2 <= 2 -> last (xtics g) = Some (0 + half * 1)%Qc) /\
    points g = lattice (xtics g) (ytics g) (ztics g) /\
    length (points g) = Z.to_nat (2 * 3 * 1) /\
    length (weights g) = Z.to_nat (2 * 3 * 1) /\
    weights g =
      replicate (Z.to_nat (2 * 3 * 1))
        (Qc_prod (List.filter (fun s => Qc_ltb 0%Qc s) [1%Qc; Qc_of_Z 2; Qc_of_Z 3]) /
         Qc_of_Z (2 * 3 * 1))%Qc.
Proof.
  apply (make_grid_box 1%Qc (Qc_of_Z 2) (Qc_of_Z 3) 0%Qc 0%Qc 0%Qc (Some [2; 3; 1]) 2 3 1).
  - intros H. vm_compute in H. discriminate H.
  - intros H. vm_compute in H. discriminate H.
  - intros H. vm_compute in H. discriminate H.
  - reflexivity.
  - lia.
  - lia.
  - lia.
Defined.

Lemma mapM_ceil_div (len : Qc) (l : list Qc) :
  len <> 0%Qc ->
  mapM (fun s => n ← ceil_div s len; Ok (Z.max 1 n)) l =
  Ok (map (fun s => Z.max 1 (Qceiling (s / len)%Qc)) l).
Proof.
  intros H. apply Qc_eqb_neq in H.
  induction l as [|s l IH]; [reflexivity|].
  assert (E : ceil_div s len = Ok (Qceiling (s / len)%Qc))
    by (unfold ceil_div; rewrite H; reflexivity).
  cbn [mapM map]. rewrite E, IH. reflexivity.
Qed.

(** X7.  A discretisation length takes precedence over [dims].  With a
    length other than zero the call is the call with
    [max(1, ceil(s/length))] points on each kept axis; with a length of zero
    it raises [OverflowError] ([ValueError] for an extent of zero) as soon
    as one axis is kept. *)
Theorem make_grid_length_scale :
  forall (size center : list Qc) (dims : option (list Z)) (len : Qc),
    make_grid size center dims (Some len) =
    let kept := slice_to size (length (flatnonzero size)) in
    if Qc_eqb len 0%Qc then
      match kept with
      | [] => make_grid size center (Some []) None
      | s :: _ =>
          Raise (if Qc_eqb s 0%Qc then ValueError "cannot convert float NaN to integer"
                 else OverflowError)
      end
    else
      make_grid size center
        (Some (map (fun s => Z.max 1 (Qceiling (s / len)%Qc)) kept)) None.
Proof.
  intros size center dims len. cbv zeta.
  destruct (Qc_eqb len 0%Qc) eqn:E.
  - apply Qc_eqb_eq in E. subst len. unfold make_grid.
    destruct (slice_to size (length (flatnonzero size))) as [|s rest]; [reflexivity|].
    assert (E : ceil_div s 0%Qc =
                Raise (if Qc_eqb s 0%Qc then ValueError "cannot convert float NaN to integer"
                       else OverflowError)).
    { unfold ceil_div. rewrite Qc_eqb_refl. destruct (Qc_eqb s 0%Qc); reflexivity. }
    cbn [mapM]. rewrite E. reflexivity.
  - apply Qc_eqb_neq in E. unfold make_grid.
    rewrite (mapM_ceil_div len _ E). reflexivity.
Qed.

(** ** [DFTCell]: construction *)

Lemma getitem_error {A} (l : list A) (i : Z) (e : PyExn) :
  getitem l i = Raise e -> e = IndexError.
Proof.
  unfold getitem. intros H.
  repeat (match type of H with
          | context [if ?b then _ else _] => destruct b
          | context [match ?o with Some _ => _ | None => _ end] => destruct o
          end; try discriminate); congruence.
Qed.

(** X8.  A cell that [DFTCell.__init__] returns has as many frequencies as
    the region asks for: the centre frequency alone for one sample, and
    otherwise a sweep from [fcen - df/2] to [fcen + df/2]; a negative number
    of samples makes the constructor raise [ValueError], and the only other
    failure is the [IndexError] of a normal axis outside the table. *)
Theorem DFTCell_init_frequencies :
  forall (names : list string) (rgn : Subregion) (cpts : option (list Component)),
    match DFTCell.init names rgn cpts with
    | Ok (c, _) =>
        0 <= sr_nfreq rgn /\
        length (DFTCell.freqs c) = Z.to_nat (sr_nfreq rgn) /\
        (sr_nfreq rgn = 1 -> DFTCell.freqs c = [sr_fcen rgn]) /\
        (2 <= sr_nfreq rgn ->
           DFTCell.freqs c !! 0%nat = Some (sr_fcen rgn - half * sr_df rgn)%Qc /\
           last (DFTCell.freqs c) = Some (sr_fcen rgn + half * sr_df rgn)%Qc)
    | Raise e =>
        e = IndexError \/
        (sr_nfreq rgn < 0 /\
         e = ValueError ("Number of samples, " +:+ pretty (sr_nfreq rgn) +:+
                         ", must be non-negative."))
    end.
Proof.
  intros names rgn cpts. unfold DFTCell.init.
  match goal with |- context [?m ≫= _] => destruct m as [cs|e] eqn:Ec end;
    cbn [mbind result_bind].
  2:{ left. destruct cpts as [[|c l]|]; try discriminate;
        destruct (sr_normal rgn); try discriminate;
        exact (getitem_error _ _ _ Ec). }
  destruct (sr_nfreq rgn =? 1) eqn:E1.
  - apply Z.eqb_eq in E1. cbn [mbind result_bind DFTCell.freqs]. rewrite E1.
    repeat split; intros; try lia.
  - apply Z.eqb_neq in E1.
    destruct (Z.lt_ge_cases (sr_nfreq rgn) 0) as [Hneg|Hpos].
    + unfold linspace. replace (sr_nfreq rgn <? 0) with true
        by (symmetry; apply Z.ltb_lt; lia).
      cbn [mbind result_bind]. right. auto.
    + destruct (Z.eq_dec (sr_nfreq rgn) 0) as [E0|E0].
      * unfold linspace. rewrite E0. cbn [mbind result_bind DFTCell.freqs Z.ltb Z.eqb].
        cbn. repeat split; try lia.
      * destruct (linspace_tics (sr_fcen rgn - half * sr_df rgn)%Qc
                    (sr_fcen rgn + half * sr_df rgn)%Qc (sr_nfreq rgn) ltac:(lia))
          as (l & El & Ll & Fl & Lal).
        rewrite El. cbn [mbind result_bind DFTCell.freqs].
        repeat split; try lia; auto.
Qed.

Lemma getitem_range {A} (l : list A) (i : Z) (a : A) :
  getitem l i = Ok a ->
  - Z.of_nat (length l) <= i < Z.of_nat (length l) /\
  l !! Z.to_nat (i mod Z.of_nat (length l)) = Some a.
Proof.
  unfold getitem. intros H.
  destruct ((0 <=? i) && (i <? Z.of_nat (length l))) eqn:E1.
  - apply andb_true_iff in E1 as [H0 H1]. apply Z.leb_le in H0. apply Z.ltb_lt in H1.
    rewrite Z.mod_small by lia.
    destruct (l !! Z.to_nat i); [|discriminate]. split; [lia|congruence].
  - destruct ((- Z.of_nat (length l) <=? i) && (i <? 0)) eqn:E2; [|discriminate].
    apply andb_true_iff in E2 as [H0 H1]. apply Z.leb_le in H0. apply Z.ltb_lt in H1.
    replace (i mod Z.of_nat (length l)) with (Z.of_nat (length l) + i).
    + destruct (l !! Z.to_nat (Z.of_nat (length l) + i)); [|discriminate].
      split; [lia|congruence].
    + apply Z.mod_unique with (q := -1); lia.
Qed.

Lemma getitem_out_of_range {A} (l : list A) (i : Z) :
  i < - Z.of_nat (length l) \/ Z.of_nat (length l) <= i ->
  getitem l i = Raise IndexError.
Proof.
  intros H. unfold getitem.
  destruct ((0 <=? i) && (i <? Z.of_nat (length l))) eqn:E1.
  { apply andb_true_iff in E1 as [H0 H1]. apply Z.leb_le in H0. apply Z.ltb_lt in H1. lia. }
  destruct ((- Z.of_nat (length l) <=? i) && (i <? 0)) eqn:E2; [|reflexivity].
  apply andb_true_iff in E2 as [H0 H1]. apply Z.leb_le in H0. apply Z.ltb_lt in H1. lia.
Qed.

Lemma EH_TRANSVERSE_cyclic (n : Z) (cs : list Component) :
  getitem EH_TRANSVERSE n = Ok cs -> -3 <= n < 3 /\ cs = transverse_pair n.
Proof.
  intros H. apply getitem_range in H as [Hr Hl]. cbn [EH_TRANSVERSE length] in Hr.
  split; [lia|].
  assert (Hn : n = -3 \/ n = -2 \/ n = -1 \/ n = 0 \/ n = 1 \/ n = 2) by lia.
  destruct Hn as [->|[->|[->|[->|[->| ->]]]]]; vm_compute in Hl; injection Hl as <-; reflexivity.
Qed.

(** X9.  The components of a new cell.  A non-empty list given by the
    caller is taken as it is.  Otherwise (no list, or an empty one) a region
    without normal gets all six field components and a region with normal
    axis [n], [-3 <= n < 3], gets the four tangential ones in cyclic order
    (a negative axis counting from the end); the cell is a flux cell exactly
    when the region has a normal, also for normal axis 0; and a normal axis
    outside [-3, 3) makes the constructor raise [IndexError], unless the
    caller gave components. *)
Theorem DFTCell_init_components :
  forall (names : list string) (rgn : Subregion) (cpts : option (list Component)),
    match DFTCell.init names rgn cpts with
    | Ok (c, _) =>
        DFTCell.normal c = sr_normal rgn /\
        DFTCell.celltype c =
          match sr_normal rgn with Some _ => "flux" | None => "fields" end /\
        DFTCell.components c <> [] /\
        match cpts, sr_normal rgn with
        | Some (x :: l), _ => DFTCell.components c = x :: l
        | _, Some n => -3 <= n < 3 /\ DFTCell.components c = transverse_pair n
        | _, None => DFTCell.components c = [Ex; Ey; Ez; Hx; Hy; Hz]
        end
    | Raise e =>
        e = IndexError <->
        (cpts = None \/ cpts = Some []) /\
        exists n, sr_normal rgn = Some n /\ (n < -3 \/ 3 <= n)
    end.
Proof.
  intros names rgn cpts. unfold DFTCell.init.
  match goal with |- context [?m ≫= _] => destruct m as [cs|e] eqn:Ec end;
    cbn [mbind result_bind].
  - assert (Hcs : cs <> [] /\
              match cpts, sr_normal rgn with
              | Some (x :: l), _ => cs = x :: l
              | _, Some n => -3 <= n < 3 /\ cs = transverse_pair n
              | _, None => cs = [Ex; Ey; Ez; Hx; Hy; Hz]
              end).
    { destruct cpts as [[|x l]|].
      - destruct (sr_normal rgn) as [n|].
        + apply EH_TRANSVERSE_cyclic in Ec as [Hr ->]. repeat split; try lia. discriminate.
        + injection Ec as <-. split; [discriminate|reflexivity].
      - injection Ec as <-. split; [discriminate|reflexivity].
      - destruct (sr_normal rgn) as [n|].
        + apply EH_TRANSVERSE_cyclic in Ec as [Hr ->]. repeat split; try lia. discriminate.
        + injection Ec as <-. split; [discriminate|reflexivity]. }
    destruct Hcs as [Hne Hcs].
    match goal with |- context [?m ≫= _] => destruct m as [fs|e] eqn:Ef end;
      cbn [mbind result_bind DFTCell.normal DFTCell.celltype DFTCell.components].
    + repeat split; assumption.
    + assert (Hv : e <> IndexError).
      { destruct (sr_nfreq rgn =? 1); [discriminate|]. unfold linspace in Ef.
        destruct (sr_nfreq rgn <? 0); [injection Ef as <-; discriminate|].
        destruct (sr_nfreq rgn =? 0); [discriminate|].
        destruct (sr_nfreq rgn =? 1); discriminate. }
      split; [intros; contradiction|].
      intros [Hd (n & Hn & Hout)]. exfalso.
      rewrite Hn in Hcs. destruct Hd as [-> | ->]; lia.
  - assert (He : e = IndexError /\ (cpts = None \/ cpts = Some []) /\
                 exists n, sr_normal rgn = Some n /\ (n < -3 \/ 3 <= n)).
    { destruct cpts as [[|x l]|]; try discriminate;
        (destruct (sr_normal rgn) as [n|]; [|discriminate]);
        (split; [exact (getitem_error _ _ _ Ec)|]);
        (split; [auto|]); exists n; (split; [reflexivity|]);
        destruct (Z.lt_ge_cases n (-3)) as [?|H1]; auto;
        destruct (Z.lt_ge_cases n 3) as [H2|?]; auto;
        exfalso;
        assert (Hn : n = -3 \/ n = -2 \/ n = -1 \/ n = 0 \/ n = 1 \/ n = 2) by lia;
        destruct Hn as [->|[->|[->|[->|[->| ->]]]]]; discriminate. }
    destruct He as (-> & Hd & Hn). split; auto.
Qed.

Lemma init_name (names : list string) (rgn : Subregion)
    (cpts : option (list Component)) (c : DFTCell.t) (names' : list string) :
  DFTCell.init names rgn cpts = Ok (c, names') ->
  names' = names ++ [DFTCell.name c] /\
  DFTCell.name c =
    let ctype := match sr_normal rgn with Some _ => "flux" | None => "fields" end in
    match sr_name rgn with
    | Some rn => rn +:+ "_" +:+ ctype
    | None => ctype +:+ "_" +:+ pretty (length names)
    end.
Proof.
  unfold DFTCell.init. intros H.
  match type of H with context [?m ≫= _] => destruct m as [cs|e]; [|discriminate] end.
  cbn [mbind result_bind] in H.
  match type of H with context [?m ≫= _] => destruct m as [fs|e]; [|discriminate] end.
  cbn [mbind result_bind] in H. injection H as <- <-. split; reflexivity.
Qed.

Lemma auto_name_inj (t1 t2 : string) (n m : nat) :
  (t1 = "flux" \/ t1 = "fields") -> (t2 = "flux" \/ t2 = "fields") ->
  t1 +:+ "_" +:+ pretty n = t2 +:+ "_" +:+ pretty m -> n = m.
Proof.
  intros [-> | ->] [-> | ->] H; try discriminate;
    repeat (apply String.app_inj in H || (cbn in H; injection H as H));
    apply (inj pretty), H.
Qed.

(** X10.  The registry of cell names.  Each construction appends the
    name of the new cell to the registry.  A cell of an unnamed region is
    named after its type and the length of the registry at that moment, so
    two unnamed cells built at different registry lengths, in particular one
    after the other, never share a name; a named region gives
    [<name>_<type>] whatever the registry holds, so building two cells from
    the same named region enters the same name twice. *)
Theorem DFTCell_names :
  forall (names1 names2 : list string) (r1 r2 : Subregion)
         (k1 k2 : option (list Component)) (a b : DFTCell.t) (out1 out2 : list string),
    DFTCell.init names1 r1 k1 = Ok (a, out1) ->
    DFTCell.init names2 r2 k2 = Ok (b, out2) ->
    out1 = names1 ++ [DFTCell.name a] /\
    length out1 = S (length names1) /\
    (sr_name r1 = None -> sr_name r2 = None ->
     length names1 <> length names2 -> DFTCell.name a <> DFTCell.name b) /\
    (sr_name r1 = None -> sr_name r2 = None ->
     names2 = out1 -> NoDup (drop (length names1) out2)) /\
    (sr_name r1 <> None -> r2 = r1 -> DFTCell.name a = DFTCell.name b).
Proof.
  intros names1 names2 r1 r2 k1 k2 a b out1 out2 Ha Hb.
  apply init_name in Ha as [Ho1 Na]. apply init_name in Hb as [Ho2 Nb].
  cbv zeta in Na, Nb.
  assert (Hdiff : sr_name r1 = None -> sr_name r2 = None ->
                  length names1 <> length names2 -> DFTCell.name a <> DFTCell.name b).
  { intros E1 E2 Hl Heq. rewrite E1 in Na. rewrite E2 in Nb. rewrite Na, Nb in Heq.
    apply auto_name_inj in Heq; [contradiction| |];
      [destruct (sr_normal r1)|destruct (sr_normal r2)]; auto. }
  split; [exact Ho1|]. split; [rewrite Ho1, length_app; cbn; lia|].
  split; [exact Hdiff|]. split.
  - intros E1 E2 Hn. rewrite Ho2, Hn, Ho1.
    rewrite <- app_assoc, drop_app_length. cbn [app].
    apply NoDup_cons. split; [|apply NoDup_singleton].
    intros Hin. apply list_elem_of_singleton in Hin.
    apply (Hdiff E1 E2); [|exact Hin].
    rewrite Hn, Ho1, length_app. cbn. lia.
  - intros E1 ->. rewrite Na, Nb.
    destruct (sr_name r1) as [rn|]; [reflexivity|contradiction].
Qed.

Lemma DFTCell_names_witness :
  let second :=
    DFTCell.mk demo_region (Some 0) "flux" [Ey; Ez; Hy; Hz] 1%Qc 0%Qc 1 [1%Qc]
      None None ∅ ∅ "flux_1" None in
  ["flux_0"] = [] ++ [DFTCell.name demo_cell] /\
  length ["flux_0"] = S (length (@nil string)) /\
  (sr_name demo_region = None -> sr_name demo_region = None ->
   length (@nil string) <> length ["flux_0"] ->
   DFTCell.name demo_cell <> DFTCell.name second) /\
  (sr_name demo_region = None -> sr_name demo_region = None ->
   ["flux_0"] = ["flux_0"] ->
   NoDup (drop (length (@nil string)) ["flux_0"; "flux_1"])) /\
  (sr_name demo_region <> None -> demo_region = demo_region ->
   DFTCell.name demo_cell = DFTCell.name second).
Proof.
  intro second.
  apply (DFTCell_names [] ["flux_0"] demo_region demo_region None None
           demo_cell second ["flux_0"] ["flux_0"; "flux_1"]); reflexivity.
Defined.

(** ** [DFTCell]: the life of a cell *)

(** What [__init__] leaves behind. *)
Lemma init_state (names : list string) (rgn : Subregion)
    (cpts : option (list Component)) (c : DFTCell.t) (names' : list string) :
  DFTCell.init names rgn cpts = Ok (c, names') ->
  DFTCell.region c = rgn /\ DFTCell.sim c = None /\ DFTCell.dft_obj c = None /\
  DFTCell.grid c = None /\ DFTCell.EH_cache c = ∅ /\ DFTCell.eigencache c = ∅ /\
  DFTCell.components c <> [] /\
  DFTCell.nfreq c = sr_nfreq rgn /\
  0 <= sr_nfreq rgn /\ length (DFTCell.freqs c) = Z.to_nat (sr_nfreq rgn) /\
  DFTCell.celltype c = match sr_normal rgn with Some _ => "flux" | None => "fields" end.
Proof.
  unfold DFTCell.init. intros H.
  match type of H with context [?m ≫= _] => destruct m as [cs|e] eqn:Ec; [|discriminate] end.
  cbn [mbind result_bind] in H.
  match type of H with context [?m ≫= _] => destruct m as [fs|e] eqn:Ef; [|discriminate] end.
  cbn [mbind result_bind] in H. injection H as <- <-.
  cbn [DFTCell.region DFTCell.sim DFTCell.dft_obj DFTCell.grid DFTCell.EH_cache
       DFTCell.eigencache DFTCell.components DFTCell.nfreq DFTCell.freqs
       DFTCell.celltype].
  assert (Hcs : cs <> []).
  { destruct cpts as [[|x l]|]; try (injection Ec as <-; discriminate);
      (destruct (sr_normal rgn) as [n|]; [|injection Ec as <-; discriminate]);
      apply EH_TRANSVERSE_cyclic in Ec as [_ ->]; discriminate. }
  assert (Hfs : 0 <= sr_nfreq rgn /\ length fs = Z.to_nat (sr_nfreq rgn)).
  { destruct (sr_nfreq rgn =? 1) eqn:E1.
    - apply Z.eqb_eq in E1. injection Ef as <-. rewrite E1. split; [lia|reflexivity].
    - unfold linspace in Ef. rewrite E1 in Ef.
      destruct (sr_nfreq rgn <? 0) eqn:E2; [discriminate|]. apply Z.ltb_ge in E2.
      destruct (sr_nfreq rgn =? 0) eqn:E0.
      + apply Z.eqb_eq in E0. injection Ef as <-. rewrite E0. split; [lia|reflexivity].
      + apply Z.eqb_neq in E0. injection Ef as <-. split; [lia|].
        rewrite length_app, length_map, length_seq. cbn. lia. }
  repeat split; try reflexivity; try assumption; apply Hfs.
Qed.

Lemma mapM_first_raises {A B} (f : A -> result B) (l : list A) (e : PyExn) :
  l <> [] -> (forall a, f a = Raise e) -> mapM f l = Raise e.
Proof.
  intros Hl Hf. destruct l as [|a l]; [contradiction|].
  cbn [mapM]. rewrite Hf. reflexivity.
Qed.

(** X11.  A cell that was built and not yet registered in a simulation cannot
    be evaluated: every quantity call raises [AttributeError] for the
    missing grid ('weights'), before the quantity code is looked at; reading
    the live fields raises [AttributeError] for the missing simulation;
    every label is unknown; and [save_fields] raises the same
    [AttributeError] and stores nothing, except for a cell with no
    frequency at all, where it stores an empty snapshot under the label. *)
Theorem unregistered_cell_is_unusable :
  forall (names : list string) (rgn : Subregion) (cpts : option (list Component))
         (c : DFTCell.t) (names' : list string),
    DFTCell.init names rgn cpts = Ok (c, names') ->
    (forall qcode mode nf,
       DFTCell.call qcode mode nf c = (Raise (AttributeError "weights"), c)) /\
    (forall nf,
       DFTCell.get_EH_slices c None nf = Raise (AttributeError "get_dft_array")) /\
    (forall label nf,
       DFTCell.get_EH_slices c (Some label) nf =
       Raise (ValueError (DFTCell.no_saved_data (DFTCell.name c) label))) /\
    (forall label,
       DFTCell.save_fields label c =
       if sr_nfreq rgn =? 0
       then (Ok (), DFTCell.set_EH_cache (<[label := []]> (DFTCell.EH_cache c)) c)
       else (Raise (AttributeError "get_dft_array"), c)).
Proof.
  intros names rgn cpts c names' H.
  apply init_state in H as (Hr & Hs & Ho & Hg & Hc & He & Hk & Hn & H0 & Hl & Ht).
  assert (Hlive : forall nf,
            DFTCell.get_EH_slices c None nf = Raise (AttributeError "get_dft_array")).
  { intros nf. unfold DFTCell.get_EH_slices. apply mapM_first_raises; [exact Hk|].
    intros a. unfold DFTCell.get_EH_slice. rewrite Hs. reflexivity. }
  split; [|split; [exact Hlive|split]].
  - intros qcode mode nf. unfold DFTCell.call. rewrite Hg. reflexivity.
  - intros label nf. unfold DFTCell.get_EH_slices. rewrite Hc, lookup_empty. reflexivity.
  - intros label. unfold DFTCell.save_fields.
    destruct (sr_nfreq rgn =? 0) eqn:E0.
    + apply Z.eqb_eq in E0. rewrite E0 in Hl. cbn in Hl.
      apply nil_length_inv in Hl. rewrite Hl. reflexivity.
    + apply Z.eqb_neq in E0.
      rewrite (mapM_first_raises _ _ (AttributeError "get_dft_array")); [reflexivity| |].
      * unfold DFTCell.range. destruct (length (DFTCell.freqs c)) eqn:E; [lia|discriminate].
      * intros nf. apply Hlive.
Qed.

Lemma unregistered_cell_is_unusable_witness :
  (forall qcode mode nf,
     DFTCell.call qcode mode nf demo_cell = (Raise (AttributeError "weights"), demo_cell)) /\
  (forall nf,
     DFTCell.get_EH_slices demo_cell None nf = Raise (AttributeError "get_dft_array")) /\
  (forall label nf,
     DFTCell.get_EH_slices demo_cell (Some label) nf =
     Raise (ValueError (DFTCell.no_saved_data (DFTCell.name demo_cell) label))) /\
  (forall label,
     DFTCell.save_fields label demo_cell =
     if sr_nfreq demo_region =? 0
     then (Ok (), DFTCell.set_EH_cache (<[label := []]> (DFTCell.EH_cache demo_cell))
                    demo_cell)
     else (Raise (AttributeError "get_dft_array"), demo_cell)).
Proof.
  apply (unregistered_cell_is_unusable [] demo_region None demo_cell ["flux_0"]).
  reflexivity.
Defined.

Lemma xyzw2grid_error (xyzw : list (ndarray Qc)) (e : PyExn) :
  xyzw2grid xyzw = Raise e -> e = IndexError.
Proof.
  pose proof (xyzw2grid_cases xyzw) as H.
  destruct xyzw as [|x [|y [|z [|w rest]]]]; rewrite H; congruence.
Qed.

Lemma fix_array_metadata_error (xyzw : list (ndarray Qc)) (center size : list Qc)
    (e : PyExn) :
  fix_array_metadata xyzw center size = Raise e -> e = IndexError.
Proof.
  unfold fix_array_metadata, for_axes.
  change 0 with (Z.of_nat 0). change 1 with (Z.of_nat 1). change 2 with (Z.of_nat 2).
  destruct (fix_axis_cases center size xyzw 0) as [->|(? & ? & b0 & _ & _ & _ & _ & ->)];
    [cbn; congruence|].
  cbn [mbind result_bind].
  destruct (fix_axis_cases center size (<[0%nat:=b0]> xyzw) 1)
    as [->|(? & ? & b1 & _ & _ & _ & _ & ->)]; [cbn; congruence|].
  cbn [mbind result_bind].
  destruct (fix_axis_cases center size (<[1%nat:=b1]> (<[0%nat:=b0]> xyzw)) 2)
    as [->|(? & ? & b2 & _ & _ & _ & _ & ->)]; cbn; congruence.
Qed.

(** X12.  [register] binds the simulation first, so the cell points at the
    new simulation also when the call fails; it never touches the saved
    snapshots or the cached eigenmodes; and it computes the grid only while
    the cell has none: a grid the cell already has is kept, whatever
    metadata the new simulation reports.  When it returns, the cell has a
    DFT object and a grid; when it fails, the error is [AttributeError] for
    a region without centre or size, or [IndexError], and the grid is as it
    was. *)
Theorem register_outcome :
  forall (s : Simulation) (c : DFTCell.t),
    let r := fst (DFTCell.register s c) in
    let c' := snd (DFTCell.register s c) in
    DFTCell.sim c' = Some s /\
    DFTCell.EH_cache c' = DFTCell.EH_cache c /\
    DFTCell.eigencache c' = DFTCell.eigencache c /\
    match DFTCell.grid c with
    | Some g => DFTCell.grid c' = Some g
    | None =>
        match r with
        | Ok _ =>
            exists ctr sz xyzw g,
              sr_center (DFTCell.region c) = Some ctr /\
              sr_size (DFTCell.region c) = Some sz /\
              fix_array_metadata (get_array_metadata s ctr sz) (v3_list ctr) (v3_list sz)
                = Ok xyzw /\
              xyzw2grid xyzw = Ok g /\ DFTCell.grid c' = Some g
        | Raise _ => DFTCell.grid c' = None
        end
    end /\
    match r with
    | Ok _ => exists o, DFTCell.dft_obj c' = Some o
    | Raise e =>
        e = AttributeError "center" \/ e = AttributeError "size" \/ e = IndexError
    end.
Proof.
  intros s c. cbv zeta. unfold DFTCell.register.
  match goal with |- context [match ?m with Ok _ => _ | Raise _ => _ end] =>
    destruct m as [o|e] eqn:Eo end.
  2:{ cbn. repeat split.
      - destruct (DFTCell.grid c); reflexivity.
      - revert Eo.
        cbn [DFTCell.celltype DFTCell.region DFTCell.freqs DFTCell.set_sim].
        repeat match goal with
               | |- context [if ?b then _ else _] => destruct b
               | |- context [attr _ ?o] => destruct o; cbn [attr mbind result_bind]
               | |- context [getitem ?l ?i ≫= _] =>
                   let E := fresh "E" in
                   destruct (getitem l i) eqn:E; cbn [mbind result_bind];
                   [|apply getitem_error in E; subst]
               end; intros [= <-]; auto. }
  cbn [DFTCell.grid DFTCell.set_dft_obj DFTCell.set_sim].
  destruct (DFTCell.grid c) as [g0|] eqn:Eg.
  { cbn. rewrite Eg. repeat split. eauto. }
  destruct (sr_center (DFTCell.region c)) as [ctr|] eqn:Ec.
  2:{ exfalso. revert Eo.
      cbn [DFTCell.celltype DFTCell.region DFTCell.freqs DFTCell.set_sim]. rewrite Ec.
      destruct (String.eqb (DFTCell.celltype c) "flux");
        cbn [attr mbind result_bind]; [discriminate|].
      destruct (getitem (DFTCell.freqs c) 0); cbn [attr mbind result_bind]; [|discriminate].
      destruct (getitem (DFTCell.freqs c) (-1)); cbn [attr mbind result_bind]; discriminate. }
  destruct (sr_size (DFTCell.region c)) as [sz|] eqn:Es.
  2:{ exfalso. revert Eo.
      cbn [DFTCell.celltype DFTCell.region DFTCell.freqs DFTCell.set_sim]. rewrite Ec, Es.
      destruct (String.eqb (DFTCell.celltype c) "flux");
        cbn [attr mbind result_bind]; [discriminate|].
      destruct (getitem (DFTCell.freqs c) 0); cbn [attr mbind result_bind]; [|discriminate].
      destruct (getitem (DFTCell.freqs c) (-1)); cbn [attr mbind result_bind]; discriminate. }
  cbn [DFTCell.region DFTCell.set_dft_obj DFTCell.set_sim].
  rewrite Ec, Es. cbn [attr mbind result_bind].
  destruct (fix_array_metadata (get_array_metadata s ctr sz) (v3_list ctr) (v3_list sz))
    as [xyzw|e] eqn:Ef; cbn [mbind result_bind].
  2:{ cbn. rewrite Eg. repeat split. right; right. exact (fix_array_metadata_error _ _ _ _ Ef). }
  destruct (xyzw2grid xyzw) as [g|e] eqn:Ex.
  2:{ cbn. rewrite Eg. repeat split. right; right. exact (xyzw2grid_error _ _ Ex). }
  cbn. repeat split; eauto. exists ctr, sz, xyzw, g. auto.
Qed.

(** ** [DFTCell]: the two caches *)

Lemma register_frame (s : Simulation) (c : DFTCell.t) :
  let c' := snd (DFTCell.register s c) in
  DFTCell.eigencache c' = DFTCell.eigencache c /\
  DFTCell.components c' = DFTCell.components c /\
  DFTCell.region c' = DFTCell.region c.
Proof.
  cbv zeta. unfold DFTCell.register.
  match goal with |- context [match ?m with Ok _ => _ | Raise _ => _ end] =>
    destruct m as [o|e] end; [|repeat split].
  cbn [DFTCell.grid DFTCell.set_dft_obj DFTCell.set_sim].
  destruct (DFTCell.grid c); [repeat split|].
  match goal with |- context [match ?m with Ok _ => _ | Raise _ => _ end] =>
    destruct m as [g|e] end; repeat split.
Qed.

Lemma get_eigenmode_slices_keeps (mode nf : Z) (c : DFTCell.t) (k : Z * Z)
    (v : list (list C)) :
  DFTCell.eigencache c !! k = Some v ->
  DFTCell.eigencache (snd (DFTCell.get_eigenmode_slices mode nf c)) !! k = Some v.
Proof.
  intros H. unfold DFTCell.get_eigenmode_slices.
  destruct (DFTCell.eigencache c !! DFTCell.tag mode nf) as [hit|] eqn:E; [exact H|].
  match goal with |- context [match ?m with Ok _ => _ | Raise _ => _ end] =>
    destruct m as [eh|e] end; [|exact H].
  cbn [snd DFTCell.eigencache DFTCell.set_eigencache].
  rewrite lookup_insert_ne; [exact H|]. intros <-. congruence.
Qed.

Lemma call_state (qcode : string) (mode nf : Z) (c : DFTCell.t) :
  snd (DFTCell.call qcode mode nf c) = c \/
  snd (DFTCell.call qcode mode nf c) = snd (DFTCell.get_eigenmode_slices mode nf c).
Proof.
  unfold DFTCell.call.
  match goal with |- context [match ?m with Ok _ => _ | Raise _ => _ end] =>
    destruct m as [[w EH]|e] end; [|left; reflexivity].
  destruct (String.eqb (upper qcode) "S"); [left; reflexivity|].
  destruct (str_in (upper (upper qcode)) "PFMB").
  - right. destruct (DFTCell.get_eigenmode_slices mode nf c) as [[eh|e] c']; reflexivity.
  - left. destruct (str_in_list (upper qcode) ["UE"; "UH"; "UM"; "UEH"; "UEM"; "UT"]);
      reflexivity.
Qed.

Lemma cell_step_keeps_eigenmode (c : DFTCell.t) (op : CellOp) (k : Z * Z)
    (v : list (list C)) :
  DFTCell.eigencache c !! k = Some v ->
  DFTCell.eigencache (cell_step c op) !! k = Some v.
Proof.
  intros H. destruct op as [s|label|mode nf|qcode mode nf]; cbn [cell_step].
  - rewrite (proj1 (register_frame s c)). exact H.
  - unfold DFTCell.save_fields.
    match goal with |- context [match ?m with Ok _ => _ | Raise _ => _ end] =>
      destruct m end; exact H.
  - apply get_eigenmode_slices_keeps, H.
  - destruct (call_state qcode mode nf c) as [-> | ->];
      [exact H|apply get_eigenmode_slices_keeps, H].
Qed.

Lemma cell_run_keeps_eigenmode (ops : list CellOp) (c : DFTCell.t) (k : Z * Z)
    (v : list (list C)) :
  DFTCell.eigencache c !! k = Some v ->
  DFTCell.eigencache (cell_run ops c) !! k = Some v.
Proof.
  revert c. induction ops as [|op ops IH]; intros c H; [exact H|].
  cbn [cell_run fold_left]. apply IH, cell_step_keeps_eigenmode, H.
Qed.

(** X13.  Eigenmode slices are computed once per pair (mode, frequency
    index) and never again: after a successful [get_eigenmode_slices], the
    same slices are returned, and the cell is left as it is, after any
    further registrations, saves, eigenmode requests and quantity calls.  In
    particular a registration in another simulation does not invalidate
    them: the new simulation is not asked for the mode.  A failed request
    leaves the cell unchanged. *)
Theorem eigenmode_slices_are_computed_once :
  forall (mode nf : Z) (c : DFTCell.t),
    match DFTCell.get_eigenmode_slices mode nf c with
    | (Ok eh, c1) =>
        forall ops : list CellOp,
          DFTCell.get_eigenmode_slices mode nf (cell_run ops c1) =
          (Ok eh, cell_run ops c1)
    | (Raise _, c1) => c1 = c
    end.
Proof.
  intros mode nf c.
  assert (Hhit : forall c' eh, DFTCell.eigencache c' !! DFTCell.tag mode nf = Some eh ->
                   DFTCell.get_eigenmode_slices mode nf c' = (Ok eh, c')).
  { intros c' eh H. unfold DFTCell.get_eigenmode_slices. rewrite H. reflexivity. }
  unfold DFTCell.get_eigenmode_slices at 1.
  destruct (DFTCell.eigencache c !! DFTCell.tag mode nf) as [hit|] eqn:E.
  - intros ops. apply Hhit, cell_run_keeps_eigenmode, E.
  - match goal with |- context [match ?m with Ok _ => _ | Raise _ => _ end] =>
      destruct m as [eh|e] end; [|reflexivity].
    intros ops. apply Hhit, cell_run_keeps_eigenmode.
    cbn [DFTCell.eigencache DFTCell.set_eigencache]. apply lookup_insert_eq.
Qed.

Lemma mapM_length {A B} (f : A -> result B) (l : list A) (ys : list B) :
  mapM f l = Ok ys -> length ys = length l.
Proof.
  revert ys. induction l as [|a l IH]; intros ys H.
  - injection H as <-. reflexivity.
  - cbn [mapM] in H. destruct (f a); [|discriminate]. cbn [mbind result_bind] in H.
    destruct (mapM f l) as [ys'|]; [|discriminate]. cbn [mbind result_bind] in H.
    injection H as <-. cbn [length]. f_equal. apply IH. reflexivity.
Qed.

Lemma getitem_in_range {A} (l : list A) (i : Z) :
  - Z.of_nat (length l) <= i < Z.of_nat (length l) ->
  getitem l i =
  match l !! Z.to_nat (i mod Z.of_nat (length l)) with
  | Some a => Ok a
  | None => Raise IndexError
  end.
Proof.
  intros H. unfold getitem.
  destruct (Z.lt_ge_cases i 0) as [Hneg|Hpos].
  - replace (0 <=? i) with false by (symmetry; apply Z.leb_gt; lia).
    replace (- Z.of_nat (length l) <=? i) with true by (symmetry; apply Z.leb_le; lia).
    replace (i <? 0) with true by (symmetry; apply Z.ltb_lt; lia).
    cbn [andb].
    replace (i mod Z.of_nat (length l)) with (Z.of_nat (length l) + i);
      [reflexivity|].
    apply Z.mod_unique with (q := -1); lia.
  - replace (0 <=? i) with true by (symmetry; apply Z.leb_le; lia).
    replace (i <? Z.of_nat (length l)) with true by (symmetry; apply Z.ltb_lt; lia).
    cbn [andb]. rewrite Z.mod_small by lia. reflexivity.
Qed.

(** X14.  Indexing a saved snapshot.  After [save_fields(label)] has
    returned on a cell with [n] frequencies, the snapshot read back at
    frequency index [nf] is what the live fields were at index [nf mod n]
    when they were saved, for every [-n <= nf < n]: a negative index counts
    from the last frequency.  Any other index raises [IndexError]. *)
Theorem saved_snapshot_indexing :
  forall (label : string) (c : DFTCell.t) (nf : Z),
    fst (DFTCell.save_fields label c) = Ok () ->
    let c1 := snd (DFTCell.save_fields label c) in
    let n := Z.of_nat (length (DFTCell.freqs c)) in
    DFTCell.get_EH_slices c1 (Some label) nf =
    if (- n <=? nf) && (nf <? n)
    then DFTCell.get_EH_slices c None (nf mod n)
    else Raise IndexError.
Proof.
  intros label c nf. unfold DFTCell.save_fields.
  destruct (mapM (fun nf => DFTCell.get_EH_slices c None nf)
              (DFTCell.range (length (DFTCell.freqs c)))) as [slices|e] eqn:Em;
    [|discriminate].
  intros _. cbv zeta. cbn [snd].
  unfold DFTCell.get_EH_slices at 1.
  cbn [DFTCell.EH_cache DFTCell.set_EH_cache]. rewrite lookup_insert_eq.
  pose proof (mapM_length _ _ _ Em) as Hlen.
  unfold DFTCell.range in Hlen. rewrite length_map, length_seq in Hlen.
  destruct ((- Z.of_nat (length (DFTCell.freqs c)) <=? nf) &&
            (nf <? Z.of_nat (length (DFTCell.freqs c)))) eqn:Er.
  - apply andb_true_iff in Er as [H0 H1]. apply Z.leb_le in H0. apply Z.ltb_lt in H1.
    rewrite getitem_in_range by (rewrite Hlen; lia). rewrite Hlen.
    set (i := Z.to_nat (nf mod Z.of_nat (length (DFTCell.freqs c)))).
    assert (Hi : (i < length (DFTCell.freqs c))%nat).
    { subst i. pose proof (Z.mod_pos_bound nf (Z.of_nat (length (DFTCell.freqs c)))). lia. }
    destruct (mapM_lookup _ _ _ Em i (Z.of_nat i) (range_lookup _ _ Hi)) as (y & Hy & Hf).
    rewrite Hy. subst i. rewrite Z2Nat.id in Hf; [congruence|].
    apply Z.mod_pos_bound. lia.
  - apply getitem_out_of_range. rewrite Hlen.
    apply andb_false_iff in Er as [H|H]; [apply Z.leb_gt in H|apply Z.ltb_ge in H]; lia.
Qed.

Lemma saved_snapshot_indexing_witness :
  let c := cell_run [OpRegister incident_sim] demo_cell in
  let c1 := snd (DFTCell.save_fields "incident" c) in
  let n := Z.of_nat (length (DFTCell.freqs c)) in
  DFTCell.get_EH_slices c1 (Some "incident") (-1) =
  if (- n <=? -1) && (-1 <? n)
  then DFTCell.get_EH_slices c None (-1 mod n)
  else Raise IndexError.
Proof.
  intro c.
  apply (saved_snapshot_indexing "incident" c (-1)).
  reflexivity.
Defined.

(** X15.  A lowercase quantity code needs the incident run.  On a cell
    whose weights and live fields can be read, and which has no snapshot
    labelled 'incident', every call with a lowercase code raises the
    [ValueError] that names the cell and the label 'incident', whatever the
    code is (a recognised one or not), and leaves the cell unchanged. *)
Theorem lowercase_code_needs_incident :
  forall (qcode : string) (mode nf : Z) (c : DFTCell.t) (g : Grid)
         (w : list Qc) (EH : list (list C)),
    islower qcode = true ->
    DFTCell.grid c = Some g ->
    reshape (weights g) (shape g) = Ok w ->
    DFTCell.get_EH_slices c None nf = Ok EH ->
    DFTCell.EH_cache c !! "incident" = None ->
    DFTCell.call qcode mode nf c =
    (Raise (ValueError (DFTCell.no_saved_data (DFTCell.name c) "incident")), c).
Proof.
  intros qcode mode nf c g w EH Hl Hg Hw HE Hc. unfold DFTCell.call.
  rewrite Hg. cbn [attr mbind result_bind]. rewrite Hw. cbn [mbind result_bind].
  rewrite HE. cbn [mbind result_bind]. rewrite Hl.
  unfold DFTCell.subtract_incident_fields, DFTCell.get_EH_slices. rewrite Hc.
  reflexivity.
Qed.

Lemma lowercase_code_needs_incident_witness :
  let c := cell_run [OpRegister total_sim] demo_cell in
  DFTCell.call "s" 1 0 c =
  (Raise (ValueError (DFTCell.no_saved_data (DFTCell.name c) "incident")), c).
Proof.
  intro c.
  eapply (lowercase_code_needs_incident "s" 1 0 c); reflexivity.
Defined.

(** ** [DFTCell.__call__]: the energy codes *)

Lemma Cadd_zero_l (z : C) : Cadd (C_of_Qc 0%Qc) z = z.
Proof.
  destruct z as [x y]. unfold Cadd, C_of_Qc. cbn [re im]. f_equal; ring.
Qed.

(** X16.  The field energy is the sum of its electric and magnetic parts.
    For codes of the same case that read 'UE', 'UH' and 'UT' when
    uppercased: if the electric or the magnetic call raises, the total call
    raises (the electric error first); otherwise both return a complex
    number and the total call returns their sum.  The eigenmode index is not
    used, and the cell is left unchanged. *)
Theorem energy_is_additive :
  forall (qE qH qT : string) (mode nf : Z) (c : DFTCell.t),
    upper qE = "UE" -> upper qH = "UH" -> upper qT = "UT" ->
    islower qH = islower qE -> islower qT = islower qE ->
    snd (DFTCell.call qT mode nf c) = c /\
    (forall mode', DFTCell.call qT mode' nf c = DFTCell.call qT mode nf c) /\
    match fst (DFTCell.call qE mode nf c), fst (DFTCell.call qH mode nf c) with
    | Ok (VComplex a), Ok (VComplex b) =>
        fst (DFTCell.call qT mode nf c) = Ok (VComplex (Cadd a b))
    | Ok _, Ok _ => False
    | Raise e, _ => fst (DFTCell.call qT mode nf c) = Raise e
    | Ok _, Raise e => fst (DFTCell.call qT mode nf c) = Raise e
    end.
Proof.
  intros qE qH qT mode nf c HE HH HT LH LT. unfold DFTCell.call.
  rewrite HE, HH, HT, LH, LT.
  match goal with |- context [match ?m with Ok _ => _ | Raise _ => _ end] =>
    destruct m as [[w EH]|e] end; [|repeat split].
  change (String.eqb "UE" "S") with false. change (String.eqb "UH" "S") with false.
  change (String.eqb "UT" "S") with false.
  change (str_in (upper "UE") "PFMB") with false.
  change (str_in (upper "UH") "PFMB") with false.
  change (str_in (upper "UT") "PFMB") with false.
  change (str_in_list "UE" ["UE"; "UH"; "UM"; "UEH"; "UEM"; "UT"]) with true.
  change (str_in_list "UH" ["UE"; "UH"; "UM"; "UEH"; "UEM"; "UT"]) with true.
  change (str_in_list "UT" ["UE"; "UH"; "UM"; "UEH"; "UEM"; "UT"]) with true.
  change (str_in_list "UE" ["UE"; "UEH"; "UEM"; "UT"]) with true.
  change (str_in_list "UH" ["UE"; "UEH"; "UEM"; "UT"]) with false.
  change (str_in_list "UT" ["UE"; "UEH"; "UEM"; "UT"]) with true.
  change (str_in_list "UE" ["UH"; "UM"; "UEH"; "UEM"; "UT"]) with false.
  change (str_in_list "UH" ["UH"; "UM"; "UEH"; "UEM"; "UT"]) with true.
  change (str_in_list "UT" ["UH"; "UM"; "UEH"; "UEM"; "UT"]) with true.
  cbn [fst snd]. split; [reflexivity|]. split; [reflexivity|].
  destruct (attr "get_dft_array" (DFTCell.sim c)) as [s|e];
    cbn [mbind result_bind]; [|reflexivity].
  destruct (DFTCell.field_norm2 c EH E_CPTS) as [E2|e]; cbn [mbind result_bind].
  - destruct (DFTCell.energy_term w _ E2) as [uE|e]; cbn [mbind result_bind DFTCell.pyadd];
      [|reflexivity].
    destruct (DFTCell.field_norm2 c EH H_CPTS) as [H2|e]; cbn [mbind result_bind];
      [|reflexivity].
    destruct (DFTCell.energy_term w _ H2) as [uH|e]; cbn [mbind result_bind DFTCell.pyadd];
      [|reflexivity].
    rewrite (Cadd_zero_l uH). reflexivity.
  - reflexivity.
Qed.

Lemma energy_is_additive_witness :
  let c := cell_run [OpRegister medium_sim] demo_cell in
  exists a b,
    fst (DFTCell.call "UE" 1 0 c) = Ok (VComplex a) /\
    fst (DFTCell.call "UH" 1 0 c) = Ok (VComplex b) /\
    Ceqb a (C_of_Z 18) = true /\ Ceqb b (C_of_Z 12) = true /\
    fst (DFTCell.call "UT" 1 0 c) = Ok (VComplex (Cadd a b)).
Proof.
  intro c.
  pose proof (energy_is_additive "UE" "UH" "UT" 1 0 c
                eq_refl eq_refl eq_refl eq_refl eq_refl) as (_ & _ & H).
  destruct (fst (DFTCell.call "UE" 1 0 c)) as [[| |a]|] eqn:Ea;
    try (vm_compute in Ea; discriminate Ea).
  destruct (fst (DFTCell.call "UH" 1 0 c)) as [[| |b]|] eqn:Eb;
    try (vm_compute in Eb; discriminate Eb).
  exists a, b. split; [reflexivity|]. split; [reflexivity|].
  vm_compute in Ea. injection Ea as <-. vm_compute in Eb. injection Eb as <-.
  split; [vm_compute; reflexivity|]. split; [vm_compute; reflexivity|]. exact H.
Defined.

(** ** objective.py: [EigenmodeCoefficient] *)

Lemma argmin_from_spec (l pre : list Qc) (best : Qc) (bi : nat) :
  pre !! bi = Some best ->
  (forall j y, pre !! j = Some y -> (best <= y)%Qc) ->
  (forall j y, (j < bi)%nat -> pre !! j = Some y -> (best < y)%Qc) ->
  exists k m,
    argmin_from best (Z.of_nat bi) (Z.of_nat (length pre)) l = Z.of_nat k /\
    (pre ++ l) !! k = Some m /\
    (forall j y, (pre ++ l) !! j = Some y -> (m <= y)%Qc) /\
    (forall j y, (j < k)%nat -> (pre ++ l) !! j = Some y -> (m < y)%Qc).
Proof.
  revert pre best bi. induction l as [|x l IH]; intros pre best bi Hb Hle Hlt.
  - exists bi, best. rewrite app_nil_r. cbn [argmin_from]. auto.
  - cbn [argmin_from].
    replace (Z.of_nat (length pre) + 1) with (Z.of_nat (length (pre ++ [x])))
      by (rewrite length_app; cbn [length]; lia).
    replace (pre ++ x :: l) with ((pre ++ [x]) ++ l) by (rewrite <- app_assoc; reflexivity).
    destruct (Qc_ltb x best) eqn:E.
    + apply Qc_ltb_lt in E.
      apply (IH (pre ++ [x]) x (length pre)).
      * rewrite lookup_app_r, Nat.sub_diag by lia. reflexivity.
      * intros j y Hj. destruct (lookup_app_Some pre [x] j y) as [H _].
        destruct (H Hj) as [Hp|[_ Hx]].
        -- apply Qclt_le_weak. eapply Qclt_le_trans; [exact E|]. eapply Hle, Hp.
        -- destruct (j - length pre)%nat; [|discriminate]. injection Hx as <-.
           apply Qcle_refl.
      * intros j y Hj Hy. rewrite lookup_app_l in Hy by exact Hj.
        eapply Qclt_le_trans; [exact E|]. eapply Hle, Hy.
    + assert (Hx : (best <= x)%Qc).
      { apply Qcnot_lt_le. intros H. apply Qc_ltb_lt in H. congruence. }
      apply (IH (pre ++ [x]) best bi).
      * apply lookup_app_l_Some, Hb.
      * intros j y Hj. destruct (lookup_app_Some pre [x] j y) as [H _].
        destruct (H Hj) as [Hp|[_ Hy]].
        -- eapply Hle, Hp.
        -- destruct (j - length pre)%nat; [|discriminate]. injection Hy as <-. exact Hx.
      * intros j y Hj Hy. pose proof (lookup_lt_Some _ _ _ Hb).
        rewrite lookup_app_l in Hy by lia. eapply Hlt; eassumption.
Qed.

Lemma argmin_spec (l : list Qc) :
  match argmin l with
  | Ok i =>
      exists k m, i = Z.of_nat k /\ l !! k = Some m /\
        (forall j y, l !! j = Some y -> (m <= y)%Qc) /\
        (forall j y, (j < k)%nat -> l !! j = Some y -> (m < y)%Qc)
  | Raise e => l = [] /\ e = ValueError "attempt to get argmin of an empty sequence"
  end.
Proof.
  destruct l as [|x l]; cbn [argmin]; [auto|].
  destruct (argmin_from_spec l [x] x 0) as (k & m & Hk & Hm & Hle & Hlt).
  - reflexivity.
  - intros [|j] y Hj; [|discriminate]. injection Hj as <-. apply Qcle_refl.
  - intros j y Hj. lia.
  - exists k, m. auto.
Qed.

Lemma mapM_error {A B} (P : PyExn -> Prop) (f : A -> result B) (l : list A) (e : PyExn) :
  (forall a e, f a = Raise e -> P e) -> mapM f l = Raise e -> P e.
Proof.
  intros Hf. induction l as [|a l IH]; [discriminate|].
  cbn [mapM]. destruct (f a) eqn:E; cbn [mbind result_bind].
  - destruct (mapM f l); cbn [mbind result_bind]; [discriminate|].
    intros [= <-]. apply IH. reflexivity.
  - intros [= <-]. eapply Hf, E.
Qed.

Lemma slice_last_error (a : ndarray C) (k : Z) (e : PyExn) :
  slice_last a k = Raise e -> e = IndexError.
Proof.
  unfold slice_last.
  destruct (nd_shape a) as [|nb [|nf [|nd [|? ?]]]]; try (intros [= <-]; reflexivity).
  match goal with |- context [if ?b then _ else _] => destruct b end;
    [|intros [= <-]; reflexivity].
  match goal with |- context [mapM ?f ?l] => destruct (mapM f l) eqn:E end;
    cbn [mbind result_bind]; [discriminate|].
  intros [= <-]. revert E. apply (mapM_error (fun e => e = IndexError)).
  intros i e'. destruct (nd_data a !! _); [discriminate|intros [= <-]; reflexivity].
Qed.

(** What [a[:,:,k]] holds: the entries of [a] at last index [k], a negative
    [k] counting from the end. *)
Lemma slice_last_entries (a : ndarray C) (k : Z) (sl : ndarray C) :
  slice_last a k = Ok sl ->
  exists nb nf nd,
    nd_shape a = [nb; nf; nd] /\
    - Z.of_nat nd <= k < Z.of_nat nd /\
    nd_shape sl = [nb; nf] /\
    length (nd_data sl) = (nb * nf)%nat /\
    forall j, (j < nb * nf)%nat ->
      nd_data sl !! j = nd_data a !! (j * nd + Z.to_nat (k mod Z.of_nat nd))%nat.
Proof.
  unfold slice_last.
  destruct (nd_shape a) as [|nb [|nf [|nd [|? ?]]]]; try discriminate.
  match goal with |- context [if ?b then _ else _] => destruct b eqn:Ec end;
    [|discriminate].
  match goal with |- context [mapM ?f ?l] => destruct (mapM f l) as [rows|] eqn:Em end;
    cbn [mbind result_bind]; [|discriminate].
  intros [= <-]. exists nb, nf, nd. split; [reflexivity|].
  assert (Hr : - Z.of_nat nd <= k < Z.of_nat nd).
  { apply orb_true_iff in Ec as [Ec|Ec]; apply andb_true_iff in Ec as [H0 H1];
      apply Z.leb_le in H0; apply Z.ltb_lt in H1; lia. }
  assert (Hk : (if k <? 0 then Z.of_nat nd + k else k) = k mod Z.of_nat nd).
  { destruct (k <? 0) eqn:E.
    - apply Z.ltb_lt in E. apply Z.mod_unique with (q := -1); lia.
    - apply Z.ltb_ge in E. symmetry. apply Z.mod_small. lia. }
  rewrite Hk in Em.
  split; [exact Hr|]. split; [reflexivity|]. split.
  - apply mapM_length in Em. rewrite length_seq in Em. exact Em.
  - intros j Hj. cbn [nd_data].
    destruct (mapM_lookup _ _ _ Em j j) as (y & Hy & Hf).
    { apply lookup_seq_lt, Hj. }
    rewrite Hy. destruct (nd_data a !! _); congruence.
Qed.

(** X17.  Evaluating an eigenmode coefficient.  When [__call__] returns, the
    object holds the first time profile of the simulation; its [eval], the
    value returned, is the squeezed slice [alpha[:,:,self.forward]] of the
    monitor's coefficients (entry [j] of the slice is entry
    [j*nd + forward] of the array, whose last axis has length [nd]); it
    holds the monitor's scaling and frequencies; and [fcen_idx] is the index
    of the frequency nearest to the centre frequency, the first such index
    when several are equally near.  The call fails only with [IndexError]
    (no source, or a coefficient array without that direction),
    [AttributeError] (no monitor registered) or the [ValueError] of an empty
    frequency list. *)
Theorem call_selects_nearest_frequency :
  forall o : EigenmodeCoefficient.t,
    match EigenmodeCoefficient.call o with
    | (Ok ev, o') =>
        exists ts mon fc fs i f sl nb nf nd,
          let ob := get_eigenmode_coefficients (EigenmodeCoefficient.sim o) mon
                      [EigenmodeCoefficient.mode o]
                      (EigenmodeCoefficient.EigenMode_kwargs o) in
          getitem (sources (EigenmodeCoefficient.sim o)) 0 = Ok ts /\
          EigenmodeCoefficient.monitor o = Some mon /\
          EigenmodeCoefficient.fcen o = Some fc /\
          fs = get_eigenmode_freqs (EigenmodeCoefficient.sim o) mon /\
          slice_last (alpha ob) (EigenmodeCoefficient.forward o) = Ok sl /\
          ev = squeeze sl /\
          nd_shape (alpha ob) = [nb; nf; nd] /\
          - Z.of_nat nd <= EigenmodeCoefficient.forward o < Z.of_nat nd /\
          nd_shape ev = List.filter (fun n => negb (n =? 1)%nat) [nb; nf] /\
          length (nd_data ev) = (nb * nf)%nat /\
          (forall j, (j < nb * nf)%nat ->
             nd_data ev !! j =
             nd_data (alpha ob) !!
               (j * nd + Z.to_nat (EigenmodeCoefficient.forward o mod Z.of_nat nd))%nat) /\
          EigenmodeCoefficient.time_src o' = Some ts /\
          EigenmodeCoefficient.eval o' = Some ev /\
          EigenmodeCoefficient.freqs o' = Some fs /\
          EigenmodeCoefficient.cscale o' = Some (ob_cscale ob) /\
          EigenmodeCoefficient.fcen_idx o' = Some (Z.of_nat i) /\
          fs !! i = Some f /\
          (forall j g, fs !! j = Some g -> (Qc_abs (f - fc) <= Qc_abs (g - fc))%Qc) /\
          (forall j g, (j < i)%nat -> fs !! j = Some g ->
                       (Qc_abs (f - fc) < Qc_abs (g - fc))%Qc)
    | (Raise e, _) =>
        e = IndexError \/ e = AttributeError "monitor" \/ e = AttributeError "fcen" \/
        e = ValueError "attempt to get argmin of an empty sequence"
    end.
Proof.
  intros o. unfold EigenmodeCoefficient.call.
  destruct (getitem (sources (EigenmodeCoefficient.sim o)) 0) as [ts|e] eqn:Es.
  2:{ left. exact (getitem_error _ _ _ Es). }
  cbn [EigenmodeCoefficient.set_time_src EigenmodeCoefficient.monitor
       EigenmodeCoefficient.sim EigenmodeCoefficient.mode EigenmodeCoefficient.forward
       EigenmodeCoefficient.EigenMode_kwargs EigenmodeCoefficient.fcen].
  destruct (EigenmodeCoefficient.monitor o) as [mon|] eqn:Em; cbn [attr]; [|auto].
  match goal with |- context [slice_last ?a ?k] => destruct (slice_last a k) as [sl|e] eqn:Esl end.
  2:{ left. exact (slice_last_error _ _ _ Esl). }
  destruct (EigenmodeCoefficient.fcen o) as [fc|] eqn:Ef; cbn [attr mbind result_bind];
    [|auto].
  set (fs := get_eigenmode_freqs (EigenmodeCoefficient.sim o) mon).
  pose proof (argmin_spec (map (fun f => Qc_abs (f - fc)%Qc) fs)) as Ha.
  destruct (argmin (map (fun f => Qc_abs (f - fc)%Qc) fs)) as [i|e].
  - destruct Ha as (k & m & -> & Hk & Hle & Hlt).
    rewrite lookup_map in Hk. destruct (fs !! k) as [f|] eqn:Efk; [|discriminate].
    injection Hk as <-.
    destruct (slice_last_entries _ _ _ Esl) as (nb & nf & nd & Hsh & Hr & Hsl & Hlen & Hent).
    exists ts, mon, fc, fs, k, f, sl, nb, nf, nd. cbv zeta.
    cbn [EigenmodeCoefficient.time_src EigenmodeCoefficient.eval EigenmodeCoefficient.freqs
         EigenmodeCoefficient.cscale EigenmodeCoefficient.fcen_idx].
    split; [reflexivity|]. split; [reflexivity|]. split; [reflexivity|].
    split; [reflexivity|]. split; [exact Esl|]. split; [reflexivity|].
    split; [exact Hsh|]. split; [exact Hr|].
    split; [unfold squeeze; cbn [nd_shape]; rewrite Hsl; reflexivity|].
    split; [exact Hlen|]. split; [exact Hent|].
    repeat split; try reflexivity; try assumption.
    + intros j g Hg. apply (Hle j). rewrite lookup_map, Hg. reflexivity.
    + intros j g Hj Hg. apply (Hlt j); [exact Hj|]. rewrite lookup_map, Hg. reflexivity.
  - destruct Ha as [_ ->]. auto.
Qed.


Lemma getitem_nonempty {A} (l : list A) :
  l <> [] -> exists a b, getitem l 0 = Ok a /\ getitem l (-1) = Ok b.
Proof.
  intros Hl. destruct l as [|a l]; [contradiction|].
  destruct (last (a :: l)) as [b|] eqn:Eb.
  2:{ apply last_None in Eb. discriminate. }
  exists a, b. split; [reflexivity|].
  rewrite getitem_in_range by (cbn [length]; lia).
  replace (-1 mod Z.of_nat (length (a :: l))) with (Z.of_nat (length l)).
  - rewrite Nat2Z.id. rewrite last_lookup in Eb. cbn [length Nat.pred] in Eb.
    rewrite Eb. reflexivity.
  - apply Z.mod_unique with (q := -1); cbn [length]; lia.
Qed.

Lemma call_with_monitor (o : EigenmodeCoefficient.t) (mon : DftObj) (fc : Qc) :
  EigenmodeCoefficient.monitor o = Some mon ->
  EigenmodeCoefficient.fcen o = Some fc ->
  match fst (EigenmodeCoefficient.call o) with
  | Ok _ => True
  | Raise e =>
      e = IndexError \/ e = ValueError "attempt to get argmin of an empty sequence"
  end.
Proof.
  intros Hm Hf. unfold EigenmodeCoefficient.call.
  destruct (getitem (sources (EigenmodeCoefficient.sim o)) 0) as [ts|e] eqn:Es.
  2:{ left. exact (getitem_error _ _ _ Es). }
  cbn [EigenmodeCoefficient.set_time_src EigenmodeCoefficient.monitor
       EigenmodeCoefficient.sim EigenmodeCoefficient.mode EigenmodeCoefficient.forward
       EigenmodeCoefficient.EigenMode_kwargs EigenmodeCoefficient.fcen].
  rewrite Hm, Hf. cbn [attr mbind result_bind].
  match goal with |- context [slice_last ?a ?i] =>
    destruct (slice_last a i) as [sl|e] eqn:Esl end.
  2:{ left. exact (slice_last_error _ _ _ Esl). }
  match goal with |- context [argmin ?l] =>
    pose proof (argmin_spec l) as Ha; destruct (argmin l) as [i|e] end.
  - exact I.
  - destruct Ha as [_ ->]. right. reflexivity.
Qed.

(** X19.  An objective must be given its monitor before it is evaluated.
    Straight after construction, [__call__] raises [AttributeError] for the
    missing monitor, having already stored the first time profile of the
    simulation ([IndexError], and no change, if the simulation has no
    source).  After [register_monitors] the normal axis is the one the
    monitor reports, and the remaining failures of [__call__] are
    [IndexError] and the [ValueError] of an empty frequency list. *)
Theorem call_needs_registered_monitor :
  forall (s : Simulation) (vol : Volume) (m : Z) (fwd : bool) (k : option Vector3)
         (kwargs : Kwargs) (fc d : Qc) (n : Z),
    let o := EigenmodeCoefficient.init s vol m fwd k kwargs in
    let o1 := snd (EigenmodeCoefficient.register_monitors fc d n o) in
    EigenmodeCoefficient.call o =
      match sources s with
      | [] => (Raise IndexError, o)
      | ts :: _ =>
          (Raise (AttributeError "monitor"), EigenmodeCoefficient.set_time_src ts o)
      end /\
    EigenmodeCoefficient.normal_direction o1 =
      Some (dft_normal_direction (fst (EigenmodeCoefficient.register_monitors fc d n o))) /\
    match fst (EigenmodeCoefficient.call o1) with
    | Ok _ => True
    | Raise e =>
        e = IndexError \/ e = ValueError "attempt to get argmin of an empty sequence"
    end.
Proof.
  intros s vol m fwd k kwargs fc d n. cbv zeta. split; [|split].
  - unfold EigenmodeCoefficient.call, EigenmodeCoefficient.init.
    cbn [EigenmodeCoefficient.sim]. destruct (sources s) as [|ts l]; reflexivity.
  - reflexivity.
  - eapply call_with_monitor; reflexivity.
Qed.

(** X20.  A region needs an extent.  [Subregion] accepts a call that gives
    neither both corners nor a size, and then sets neither centre nor size;
    a cell can be built from such a region, but registering it always
    fails: with [AttributeError] for the missing centre, or, for a region
    without normal and without frequencies, with [IndexError].  The
    simulation is bound to the cell all the same. *)
Theorem region_without_extent_cannot_register :
  forall (fcen df : Qc) (nfreq : Z) (xmin xmax : option Vector3) (center : Vector3)
         (normal dir : option Z) (name : option string),
    xmin = None \/ xmax = None ->
    exists rgn,
      Subregion_init fcen df nfreq xmin xmax center None normal dir name = Ok rgn /\
      sr_center rgn = None /\ sr_size rgn = None /\
      forall (names names' : list string) (cpts : option (list Component))
             (c : DFTCell.t) (s : Simulation),
        DFTCell.init names rgn cpts = Ok (c, names') ->
        DFTCell.register s c =
        (Raise (match normal, dir with
                | None, None => if nfreq =? 0 then IndexError else AttributeError "center"
                | _, _ => AttributeError "center"
                end),
         DFTCell.set_sim (Some s) c).
Proof.
  intros fcen df nfreq xmin xmax center normal dir name Hx.
  exists (mkSubregion fcen df nfreq None None None None
            (match normal with None => dir | Some n => Some n end) name).
  split.
  { unfold Subregion_init. destruct Hx as [-> | ->]; [|destruct xmin]; reflexivity. }
  split; [reflexivity|]. split; [reflexivity|].
  intros names names' cpts c s Hi.
  apply init_state in Hi as (Hr & _ & _ & _ & _ & _ & _ & _ & H0 & Hl & Ht).
  cbn [sr_nfreq sr_normal] in H0, Hl, Ht.
  unfold DFTCell.register.
  cbn [DFTCell.celltype DFTCell.region DFTCell.freqs DFTCell.set_sim].
  rewrite Ht, Hr. cbn [sr_center].
  destruct normal as [nn|]; [reflexivity|]. destruct dir as [dd|]; [reflexivity|].
  change (String.eqb "fields" "flux") with false. cbv iota.
  destruct (nfreq =? 0) eqn:E0.
  - apply Z.eqb_eq in E0. rewrite E0 in Hl. cbn in Hl. apply nil_length_inv in Hl.
    rewrite Hl. reflexivity.
  - apply Z.eqb_neq in E0.
    destruct (getitem_nonempty (DFTCell.freqs c)) as (a & b & -> & ->).
    + intros E. rewrite E in Hl. cbn in Hl. lia.
    + reflexivity.
Qed.

Lemma region_without_extent_cannot_register_witness :
  let rgn := mkSubregion 1%Qc 0%Qc 1 None None None None (Some 0) None in
  let c := DFTCell.mk rgn (Some 0) "flux" [Ey; Ez; Hy; Hz] 1%Qc 0%Qc 1 [1%Qc]
             None None ∅ ∅ "flux_0" None in
  Subregion_init 1%Qc 0%Qc 1 None None v3_zero None (Some 0) None None = Ok rgn /\
  DFTCell.init [] rgn None = Ok (c, ["flux_0"]) /\
  DFTCell.register total_sim c =
  (Raise (AttributeError "center"), DFTCell.set_sim (Some total_sim) c).
Proof.
  intros rgn c.
  destruct (region_without_extent_cannot_register 1%Qc 0%Qc 1 None None v3_zero
              (Some 0) None None (or_introl eq_refl)) as (r & Hr & _ & _ & H).
  injection Hr as <-.
  split; [reflexivity|]. split; [reflexivity|].
  apply (H [] ["flux_0"] None c total_sim). reflexivity.
Defined.

(** ** [DFTCell.__call__]: repeated and scattered evaluation *)

Lemma call_ignores_eigencache (m : gmap (Z * Z) (list (list C))) (qcode : string)
    (mode nf : Z) (c : DFTCell.t) (eh : list (list C)) :
  DFTCell.get_eigenmode_slices mode nf c = (Ok eh, DFTCell.set_eigencache m c) ->
  m !! DFTCell.tag mode nf = Some eh ->
  DFTCell.call qcode mode nf (DFTCell.set_eigencache m c) =
  (fst (DFTCell.call qcode mode nf c), DFTCell.set_eigencache m c).
Proof.
  intros Hc Hm. unfold DFTCell.call.
  change (DFTCell.grid (DFTCell.set_eigencache m c)) with (DFTCell.grid c).
  change (DFTCell.get_EH_slices (DFTCell.set_eigencache m c)) with (DFTCell.get_EH_slices c).
  change (DFTCell.subtract_incident_fields (DFTCell.set_eigencache m c))
    with (DFTCell.subtract_incident_fields c).
  change (DFTCell.field_norm2 (DFTCell.set_eigencache m c)) with (DFTCell.field_norm2 c).
  change (DFTCell.sim (DFTCell.set_eigencache m c)) with (DFTCell.sim c).
  change (DFTCell.dft_obj (DFTCell.set_eigencache m c)) with (DFTCell.dft_obj c).
  match goal with |- context [attr "weights" ?o ≫= ?k] =>
    destruct (attr "weights" o ≫= k) as [[w EH]|e] end; [|reflexivity].
  destruct (String.eqb (upper qcode) "S"); [reflexivity|].
  destruct (str_in (upper (upper qcode)) "PFMB").
  - rewrite Hc.
    assert (Hhit : DFTCell.get_eigenmode_slices mode nf (DFTCell.set_eigencache m c) =
                   (Ok eh, DFTCell.set_eigencache m c)).
    { unfold DFTCell.get_eigenmode_slices at 1.
      cbn [DFTCell.eigencache DFTCell.set_eigencache]. rewrite Hm. reflexivity. }
    rewrite Hhit. reflexivity.
  - destruct (str_in_list (upper qcode) ["UE"; "UH"; "UM"; "UEH"; "UEM"; "UT"]);
      reflexivity.
Qed.

Lemma call_keeps_or_caches (qcode : string) (mode nf : Z) (c : DFTCell.t) :
  snd (DFTCell.call qcode mode nf c) = c \/
  exists eh m,
    snd (DFTCell.call qcode mode nf c) = DFTCell.set_eigencache m c /\
    DFTCell.get_eigenmode_slices mode nf c = (Ok eh, DFTCell.set_eigencache m c) /\
    m !! DFTCell.tag mode nf = Some eh.
Proof.
  destruct (call_state qcode mode nf c) as [H|H]; [left; exact H|].
  rewrite H. unfold DFTCell.get_eigenmode_slices.
  destruct (DFTCell.eigencache c !! DFTCell.tag mode nf) as [hit|] eqn:E;
    [left; reflexivity|].
  match goal with |- context [match ?r with Ok _ => _ | Raise _ => _ end] =>
    destruct r as [eh|e] end; [|left; reflexivity].
  right. exists eh, (<[DFTCell.tag mode nf := eh]> (DFTCell.eigencache c)).
  split; [reflexivity|]. split; [reflexivity|]. apply lookup_insert_eq.
Qed.

(** X21.  A quantity call can be repeated.  Whatever the first call did
    (return a value, return nothing, or raise), the same call on the cell it
    left behind gives the same outcome and leaves the cell as it is: the
    only state a call writes is the eigenmode cache, and the second call
    reads from it what the first one computed.  In particular the incident
    fields are not subtracted twice. *)
Theorem call_is_repeatable :
  forall (qcode : string) (mode nf : Z) (c : DFTCell.t),
    DFTCell.call qcode mode nf (snd (DFTCell.call qcode mode nf c)) =
    (fst (DFTCell.call qcode mode nf c), snd (DFTCell.call qcode mode nf c)).
Proof.
  intros qcode mode nf c.
  destruct (call_keeps_or_caches qcode mode nf c) as [H|(eh & m & H & Hc & Hm)].
  - rewrite H. rewrite <- H at 3. apply surjective_pairing.
  - rewrite H. apply (call_ignores_eigencache m qcode mode nf c eh Hc Hm).
Qed.

Lemma Csub_diag (z : C) : Csub z z = Czero.
Proof. destruct z as [x y]. unfold Csub, Czero. cbn [re im]. f_equal; ring. Qed.

Lemma zip_with_Csub_diag (a : list C) :
  zip_with Csub a a = replicate (length a) Czero.
Proof.
  induction a as [|z a IH]; [reflexivity|].
  cbn [zip_with length replicate]. rewrite Csub_diag, IH. reflexivity.
Qed.

Lemma Cmul_zero_r (z : C) : Cmul z Czero = Czero.
Proof. destruct z as [x y]. unfold Cmul, Czero. cbn [re im]. f_equal; ring. Qed.

Lemma weighted_sum_zero (w : list C) (n : nat) :
  weighted_sum w (replicate n Czero) = Czero.
Proof.
  unfold weighted_sum. revert n. induction w as [|x w IH]; intros [|n]; try reflexivity.
  cbn [replicate zip_with C_sum fold_right]. fold (C_sum (zip_with Cmul w (replicate n Czero))).
  rewrite IH, Cmul_zero_r. reflexivity.
Qed.

Lemma zero_field_has_no_flux (n : nat) :
  zip_with Csub (conj_times (replicate n Czero) (replicate n Czero))
                (conj_times (replicate n Czero) (replicate n Czero)) =
  replicate n Czero.
Proof.
  rewrite zip_with_Csub_diag. unfold conj_times.
  rewrite length_zip_with, !length_replicate. f_equal. lia.
Qed.

(** X22.  The scattered flux of the incident run is zero.  If the fields of
    a run are saved under 'incident' and the flux of the scattered field
    (a lowercase code that reads 'S' when uppercased) is then evaluated in
    the same run, at a frequency index of the cell, the result is the real
    number 0, whatever the fields and the weights are, provided the cell
    has its four tangential slices and each has one value per weight. *)
Theorem scattered_flux_of_incident_run_is_zero :
  forall (qcode : string) (mode nf : Z) (c : DFTCell.t) (g : Grid) (w : list Qc)
         (EH : list (list C)),
    islower qcode = true -> upper qcode = "S" ->
    DFTCell.grid c = Some g ->
    reshape (weights g) (shape g) = Ok w ->
    0 <= nf < Z.of_nat (length (DFTCell.freqs c)) ->
    fst (DFTCell.save_fields "incident" c) = Ok () ->
    DFTCell.get_EH_slices c None nf = Ok EH ->
    (4 <= length EH)%nat ->
    Forall (fun a => length a = length w) EH ->
    DFTCell.call qcode mode nf (snd (DFTCell.save_fields "incident" c)) =
    (Ok (VFloat 0%Qc), snd (DFTCell.save_fields "incident" c)).
Proof.
  intros qcode mode nf c g w EH Hlow Hup Hg Hw Hnf Hsave HE H4 Hlen.
  unfold DFTCell.save_fields in *.
  destruct (mapM (fun nf => DFTCell.get_EH_slices c None nf)
              (DFTCell.range (length (DFTCell.freqs c)))) as [slices|e] eqn:Em;
    [|discriminate].
  cbn [snd]. clear Hsave.
  set (c1 := DFTCell.set_EH_cache (<["incident" := slices]> (DFTCell.EH_cache c)) c).
  assert (Hsaved : getitem slices nf = Ok EH).
  { assert (Hi : (Z.to_nat nf < length (DFTCell.freqs c))%nat) by lia.
    destruct (mapM_lookup _ _ _ Em _ _ (range_lookup _ _ Hi)) as (y & Hy & Hf).
    rewrite Z2Nat.id in Hf by lia. rewrite HE in Hf. injection Hf as <-.
    rewrite <- (Z2Nat.id nf) by lia. apply getitem_lookup, Hy. }
  assert (Hsub : DFTCell.subtract_incident_fields c1 EH nf = Ok (slices_sub EH EH)).
  { apply (subtract_incident_fields_spec c1 EH nf slices EH).
    - subst c1. cbn [DFTCell.EH_cache DFTCell.set_EH_cache]. apply lookup_insert_eq.
    - exact Hsaved.
    - unfold DFTCell.get_EH_slices in HE. apply mapM_length in HE. exact HE.
    - clear. induction EH; constructor; auto. }
  unfold DFTCell.call.
  change (DFTCell.grid c1) with (DFTCell.grid c).
  change (DFTCell.get_EH_slices c1 None nf) with (DFTCell.get_EH_slices c None nf).
  rewrite Hg. cbn [attr mbind result_bind]. rewrite Hw. cbn [mbind result_bind].
  rewrite HE. cbn [mbind result_bind]. rewrite Hlow, Hsub. cbn [mbind result_bind].
  rewrite Hup. change (String.eqb "S" "S") with true. cbv iota.
  destruct EH as [|e0 [|e1 [|e2 [|e3 rest]]]]; cbn [length] in H4; try lia.
  apply Forall_cons in Hlen as [L0 Hlen]. apply Forall_cons in Hlen as [L1 Hlen].
  apply Forall_cons in Hlen as [L2 Hlen]. apply Forall_cons in Hlen as [L3 _].
  unfold slices_sub. cbn [zip_with].
  rewrite getitem_0, getitem_1, getitem_2, getitem_3.
  rewrite !zip_with_Csub_diag, L0, L1, L2, L3.
  rewrite overlap_sum_spec by (rewrite ?length_replicate, length_map; reflexivity).
  cbn [mbind result_bind]. rewrite zero_field_has_no_flux, weighted_sum_zero.
  reflexivity.
Qed.

Lemma scattered_flux_of_incident_run_is_zero_witness :
  let c := cell_run [OpRegister incident_sim] demo_cell in
  DFTCell.call "s" 1 0 (snd (DFTCell.save_fields "incident" c)) =
  (Ok (VFloat 0%Qc), snd (DFTCell.save_fields "incident" c)).
Proof.
  intro c.
  eapply (scattered_flux_of_incident_run_is_zero "s" 1 0 c).
  - reflexivity.
  - reflexivity.
  - reflexivity.
  - reflexivity.
  - split; [lia|reflexivity].
  - reflexivity.
  - reflexivity.
  - cbn. lia.
  - repeat constructor.
Defined.

(** ** [place_adjoint_source]: a scalar derivative *)

Lemma broadcast2_scalar_r {A B D} (f : A -> B -> D) (xs : list A) (y : B) :
  broadcast2 f xs [y] = Ok (map (fun x => f x y) xs).
Proof.
  unfold broadcast2. destruct xs as [|x [|x' xs]]; reflexivity.
Qed.

(** X23.  A scalar derivative is used at every frequency.  After an
    evaluation with one coefficient scaling per frequency, a non-zero
    resolution and an envelope transform that does not vanish on the sweep,
    [place_adjoint_source] called with a single number [dJ] computes one
    scale per frequency, each from that same number; and a derivative array
    whose length is neither 1 nor the number of scalings (itself not 1)
    raises the broadcasting [ValueError]. *)
Theorem scale_factor_broadcasts_scalar :
  forall (o : EigenmodeCoefficient.t) (cs fs : list Qc) (ts : TimeSrc),
    resolution (EigenmodeCoefficient.sim o) <> 0%Qc ->
    EigenmodeCoefficient.cscale o = Some cs ->
    EigenmodeCoefficient.freqs o = Some fs ->
    EigenmodeCoefficient.time_src o = Some ts ->
    length cs = length fs ->
    (forall f, In f fs -> fourier_transform ts f <> Czero) ->
    (forall d : C,
       exists scale,
         EigenmodeCoefficient.scale_factor o (atleast_1d (Scalar d)) = Ok scale /\
         length scale = length fs /\
         forall i c f,
           cs !! i = Some c -> fs !! i = Some f ->
           scale !! i =
           Some (scale_with_cscale (resolution (EigenmodeCoefficient.sim o)) c d f
                   (fourier_transform ts f))) /\
    (forall dJ : list C,
       length dJ <> 1%nat -> length cs <> 1%nat -> length dJ <> length cs ->
       EigenmodeCoefficient.scale_factor o (atleast_1d (Array1 dJ)) =
       Raise (ValueError broadcast_msg)).
Proof.
  intros o cs fs ts Hres Hcs Hfs Hts Hlc Hft.
  apply Qc_eqb_neq in Hres. split.
  - intros d.
    unfold EigenmodeCoefficient.scale_factor, EigenmodeCoefficient.da_dE.
    rewrite Hres, Hcs, Hfs, Hts. cbn [attr mbind result_bind atleast_1d].
    rewrite broadcast2_scalar_r. cbn [mbind result_bind].
    rewrite broadcast2_same_length by (rewrite !length_map; lia).
    cbn [mbind result_bind]. rewrite (mapM_Ok (fourier_transform ts) fs).
    cbn [mbind result_bind]. unfold array_div.
    assert (Hnz : forallb (fun z => negb (Ceqb z Czero)) (map (fourier_transform ts) fs)
                  = true).
    { apply forallb_forall. intros z Hz. apply in_map_iff in Hz.
      destruct Hz as (f & <- & Hf). apply negb_true_iff, Ceqb_neq, Hft, Hf. }
    rewrite Hnz.
    rewrite broadcast2_same_length by (rewrite length_zip_with, !length_map; lia).
    eexists. split; [reflexivity|]. split.
    + rewrite length_zip_with, !length_map, length_zip_with, !length_map. lia.
    + intros i c f Hc Hf.
      repeat (rewrite lookup_zip_with || rewrite lookup_map).
      rewrite Hc, Hf. cbn. unfold scale_with_cscale, scale_formula.
      rewrite da_dE_with_cscale by (apply Qc_eqb_neq; exact Hres).
      reflexivity.
  - intros dJ H1 H2 H3.
    unfold EigenmodeCoefficient.scale_factor, EigenmodeCoefficient.da_dE.
    rewrite Hres, Hcs. cbn [attr mbind result_bind atleast_1d].
    match goal with |- context [broadcast2 Cmul ?a dJ] =>
      assert (E : broadcast2 Cmul a dJ = Raise (ValueError broadcast_msg)) end.
    { unfold broadcast2. rewrite length_map.
      replace (length cs =? length dJ)%nat with false
        by (symmetry; apply Nat.eqb_neq; congruence).
      destruct cs as [|c0 [|c1 cs]]; cbn [length] in H2; try lia;
        destruct dJ as [|d0 [|d1 dJ]]; cbn [length] in H1, H3; try lia; reflexivity. }
    rewrite E. reflexivity.
Qed.

Lemma scale_factor_broadcasts_scalar_witness :
  let o := EigenmodeCoefficient.mk (demo_sim 0 1%Qc 3 2)
             (mkVolume v3_zero (V3 0%Qc (Qc_of_Z 2) 0%Qc)) 1 0 (Some 0) None None []
             (Some 1%Qc) (Some 1%Qc) (Some 2) (Some (mkDftObj 0 0))
             (Some demo_envelope) (Some [1%Qc; Qc_of_Z 2]) (Some [1%Qc; Qc_of_Z 2])
             (Some 0) None in
  (forall d : C,
     exists scale,
       EigenmodeCoefficient.scale_factor o (atleast_1d (Scalar d)) = Ok scale /\
       length scale = length [1%Qc; Qc_of_Z 2] /\
       forall i c f,
         [1%Qc; Qc_of_Z 2] !! i = Some c -> [1%Qc; Qc_of_Z 2] !! i = Some f ->
         scale !! i =
         Some (scale_with_cscale (resolution (EigenmodeCoefficient.sim o)) c d f
                 (fourier_transform demo_envelope f))) /\
  (forall dJ : list C,
     length dJ <> 1%nat -> length [1%Qc; Qc_of_Z 2] <> 1%nat ->
     length dJ <> length [1%Qc; Qc_of_Z 2] ->
     EigenmodeCoefficient.scale_factor o (atleast_1d (Array1 dJ)) =
     Raise (ValueError broadcast_msg)).
Proof.
  intro o.
  apply (scale_factor_broadcasts_scalar o [1%Qc; Qc_of_Z 2] [1%Qc; Qc_of_Z 2]
           demo_envelope).
  - intros H. vm_compute in H. discriminate H.
  - reflexivity.
  - reflexivity.
  - reflexivity.
  - reflexivity.
  - intros f _ H. vm_compute in H. discriminate H.
Defined.
